(** * TracMarket: the replicated contract, the command router and the rule engine

    A shallow embedding of
      - [contract.js]  (the Autobase [apply] handler: module [Contract]),
      - the protocol / command router ([_ruleSet]: module [Router]; [handle]
        and the handlers it routes to: module [Protocol]),
      - [market.js]    ([_evalAcceptRules], [_checkRateLimit]: module [Market];
        the sidechannel events and the buy rules: module [Agent]),
      - the entry point (the in-memory stand-in for the log and its view:
        module [Main]),
    over a model of the JavaScript values these files compute with.

    Conventions.
    - A JavaScript value is a [value]; [undefined] is one of them, because the
      code reads absent properties and tests them.
    - Numbers are IEEE 754 binary64 ([float], the kernel's primitive floats).
    - A JSON text is represented by the value [JSON.parse] gives for it, so
      [JSON.parse] is the identity and [JSON_stringify] is the composition
      "stringify, then parse": it drops [undefined] properties, turns
      [undefined] array elements and non-finite numbers into [null], and [-0]
      into [0].
    - A raised exception is an [outcome]; state changes made before the raise
      stay (the view and the module counters are mutated in place). *)

From Stdlib Require Import ZArith NArith Uint63 Floats Ascii String.
From Stdlib Require Import DecimalString DecimalN DecimalPos.
From stdpp Require Import gmap strings list sorting.

Set Warnings "-register-all,-inexact-float".

Local Open Scope string_scope.

(** ** Values *)

Inductive value : Type :=
| VUndef
| VNull
| VBool (b : bool)
| VNum (x : float)
| VStr (s : string)
| VArr (xs : list value)
| VObj (fields : list (string * value)).

(** The only exception the modelled code can raise outward is a [TypeError]
    (a [SyntaxError] of [JSON.parse] is caught where it is raised). *)
Inductive exn : Type := TypeError.

Inductive outcome (A : Type) : Type :=
| Return (a : A)
| Raise (e : exn).
Arguments Return {A} a.
Arguments Raise {A} e.

(** What the files use and do not define: three conversions of the language
    whose algorithms read or write decimal numerals or compare UTF-16 code
    units, and the view's key encoding applied to a key that is not a
    string.  Everything below holds for every such runtime. *)
Record Runtime : Type := {
  (** [Number::toString(x)]. *)
  Number_toString : float -> string;
  (** [StringToNumber(s)]. *)
  StringToNumber : string -> float;
  (** [IsLessThan] on two strings. *)
  String_lessThan : string -> string -> bool;
  (** the key a non-string value is stored under; [None]: the encoder raises. *)
  key_encoding : value -> option string
}.

(** Own-property lookup in a property list (enumeration order, no name
    repeated). *)
Fixpoint own (fs : list (string * value)) (k : string) : value :=
  match fs with
  | [] => VUndef
  | (k', x) :: fs' => if String.eqb k' k then x else own fs' k
  end.

Definition has_own (fs : list (string * value)) (k : string) : bool :=
  existsb (fun p => String.eqb (fst p) k) fs.

(** [v.k] for [v] neither [null] nor [undefined].  None of the property names
    read in this development is a property of a prototype, an index or
    [length], so on a primitive or an array the read gives [undefined]. *)
Definition get (v : value) (k : string) : value :=
  match v with
  | VObj fs => own fs k
  | _ => VUndef
  end.

(** [v.k]. *)
Definition prop (v : value) (k : string) : outcome value :=
  match v with
  | VUndef | VNull => Raise TypeError
  | _ => Return (get v k)
  end.

Fixpoint set_own (fs : list (string * value)) (k : string) (x : value)
  : list (string * value) :=
  match fs with
  | [] => [(k, x)]
  | (k', y) :: fs' =>
      if String.eqb k' k then (k', x) :: fs' else (k', y) :: set_own fs' k x
  end.

(** [v.k = x] in strict mode, for the names written here (never an index):
    an object gets or replaces the property; an array gets a property that
    [JSON.stringify] never prints and that is not read back, so it stands
    for itself; a primitive raises. *)
Definition set_prop (v : value) (k : string) (x : value) : outcome value :=
  match v with
  | VObj fs => Return (VObj (set_own fs k x))
  | VArr xs => Return (VArr xs)
  | _ => Raise TypeError
  end.

(** [ToBoolean]. *)
Definition truthy (v : value) : bool :=
  match v with
  | VUndef | VNull => false
  | VBool b => b
  | VNum x => negb (PrimFloat.eqb x 0 || is_nan x)
  | VStr s => negb (String.eqb s "")
  | VArr _ | VObj _ => true
  end.

(** [a || b]. *)
Definition js_or (a b : value) : value := if truthy a then a else b.

(** [a === b].  Two objects or arrays are equal when they are the same
    object; every comparison below is between values of two different
    [JSON.parse] calls, or against a literal, so they never are. *)
Definition strict_eq (a b : value) : bool :=
  match a, b with
  | VUndef, VUndef | VNull, VNull => true
  | VBool x, VBool y => Bool.eqb x y
  | VNum x, VNum y => PrimFloat.eqb x y
  | VStr x, VStr y => String.eqb x y
  | _, _ => false
  end.

(** [JSON.parse(JSON.stringify(v))]; at top level [undefined] stays. *)
Fixpoint JSON_stringify (v : value) : value :=
  match v with
  | VNum x =>
      if (is_nan x || is_infinity x)%bool then VNull
      else if PrimFloat.eqb x 0 then VNum 0 else VNum x
  | VArr xs =>
      VArr ((fix elems (l : list value) : list value :=
               match l with
               | [] => []
               | x :: l' =>
                   match JSON_stringify x with
                   | VUndef => VNull
                   | y => y
                   end :: elems l'
               end) xs)
  | VObj fs =>
      VObj ((fix props (l : list (string * value)) : list (string * value) :=
               match l with
               | [] => []
               | (k, x) :: l' =>
                   match JSON_stringify x with
                   | VUndef => props l'
                   | y => (k, y) :: props l'
                   end
               end) fs)
  | _ => v
  end.

Fixpoint join (sep : string) (l : list string) : string :=
  match l with
  | [] => ""
  | [s] => s
  | s :: l' => s ++ sep ++ join sep l'
  end.

Section Conversions.
Context (rt : Runtime).

(** [ToString(v)], as a template literal applies it.  An object parsed from
    JSON has only data properties: with an own [toString] no method is
    callable and the conversion raises, without one it is
    [Object.prototype.toString].  An array is joined with commas, [null] and
    [undefined] elements printing as the empty string. *)
Fixpoint ToString (v : value) : outcome string :=
  match v with
  | VUndef => Return "undefined"
  | VNull => Return "null"
  | VBool true => Return "true"
  | VBool false => Return "false"
  | VNum x => Return (Number_toString rt x)
  | VStr s => Return s
  | VArr xs =>
      match
        (fix elems (l : list value) : outcome (list string) :=
           match l with
           | [] => Return []
           | x :: l' =>
               match (match x with
                      | VUndef | VNull => Return ""
                      | _ => ToString x
                      end) with
               | Raise e => Raise e
               | Return s =>
                   match elems l' with
                   | Raise e => Raise e
                   | Return ss => Return (s :: ss)
                   end
               end
           end) xs
      with
      | Raise e => Raise e
      | Return ss => Return (join "," ss)
      end
  | VObj fs =>
      if has_own fs "toString" then Raise TypeError
      else Return "[object Object]"
  end.

(** [ToPrimitive(v)] with hint number: [Object.prototype.valueOf] gives the
    object back, so an object or array parsed from JSON ends in its
    [toString], as in [ToString]. *)
Definition ToPrimitive (v : value) : outcome value :=
  match v with
  | VArr _ | VObj _ =>
      match ToString v with
      | Raise e => Raise e
      | Return s => Return (VStr s)
      end
  | _ => Return v
  end.

(** [ToNumber] of a primitive. *)
Definition number_of_primitive (p : value) : float :=
  match p with
  | VNull => 0
  | VBool true => 1
  | VBool false => 0
  | VNum x => x
  | VStr s => StringToNumber rt s
  | _ => nan
  end.

Definition ToNumber (v : value) : outcome float :=
  match ToPrimitive v with
  | Raise e => Raise e
  | Return p => Return (number_of_primitive p)
  end.

(** [a * b]. *)
Definition js_mul (a b : value) : outcome float :=
  match ToNumber a with
  | Raise e => Raise e
  | Return x =>
      match ToNumber b with
      | Raise e => Raise e
      | Return y => Return (x * y)%float
      end
  end.

(** [IsLessThan(a, b)], left operand first; [None] is its [undefined]
    (a [NaN] operand). *)
Definition IsLessThan (a b : value) : outcome (option bool) :=
  match ToPrimitive a with
  | Raise e => Raise e
  | Return pa =>
      match ToPrimitive b with
      | Raise e => Raise e
      | Return pb =>
          match pa, pb with
          | VStr sa, VStr sb => Return (Some (String_lessThan rt sa sb))
          | _, _ =>
              let x := number_of_primitive pa in
              let y := number_of_primitive pb in
              if (is_nan x || is_nan y)%bool then Return None
              else Return (Some (PrimFloat.ltb x y))
          end
      end
  end.

(** [a < b]. *)
Definition js_lt (a b : value) : outcome bool :=
  match IsLessThan a b with
  | Raise e => Raise e
  | Return (Some r) => Return r
  | Return None => Return false
  end.

(** [a >= b]. *)
Definition js_ge (a b : value) : outcome bool :=
  match IsLessThan a b with
  | Raise e => Raise e
  | Return (Some r) => Return (negb r)
  | Return None => Return false
  end.

End Conversions.

(** The float of an integer below [2^53] in magnitude (exact). *)
Definition float_of_Z (z : Z) : float :=
  match z with
  | Z0 => 0%float
  | Zpos _ => PrimFloat.of_uint63 (Uint63.of_Z z)
  | Zneg p => (- PrimFloat.of_uint63 (Uint63.of_Z (Zpos p)))%float
  end.

(** [Math.floor(x)]: zeros, infinities and [NaN] stay; a finite [±m·2^e] with
    [e >= 0] is an integer; otherwise the quotient of [±m] by [2^(-e)],
    rounded down. *)
Definition Math_floor (x : float) : float :=
  match Prim2SF x with
  | S754_finite s m e =>
      if (0 <=? e)%Z then x
      else float_of_Z ((if s then Zneg m else Zpos m) / 2 ^ (- e))
  | _ => x
  end.

(** ** contract.js *)

Module Contract.

(** Modelled from the spec: the Keyed View Store (the Hyperbee the [open]
    handler creates is not part of the repository's files).  [put] upserts,
    [get] gives the stored value or nothing; keys are strings.  [apply]
    hands what [get] gives to [JSON.parse] as it is, so [get] is taken to
    give the stored text itself. *)
Abbreviation View := (gmap string value).

(** The module-level counters [listingSeq], [offerSeq], [dealSeq], [ruleSeq]:
    they live as long as the process, not as long as a view. *)
Record Counters : Type := {
  listingSeq : N;
  offerSeq : N;
  dealSeq : N;
  ruleSeq : N
}.

Definition fresh : Counters :=
  {| listingSeq := 0; offerSeq := 0; dealSeq := 0; ruleSeq := 0 |}.

(** [seq++] on a binary64 counter: exact up to [2^53], where it stays. *)
Definition incr (n : N) : N := if (n <? 2 ^ 53)%N then (n + 1)%N else n.

(** [String(seq)] for a counter: decimal digits. *)
Definition String_of_N (n : N) : string := NilEmpty.string_of_uint (N.to_uint n).

Fixpoint repeat_char (n : nat) (c : ascii) : string :=
  match n with
  | O => ""
  | S n' => String c (repeat_char n' c)
  end.

(** [s.padStart(n, c)] for a one-character [c]. *)
Definition padStart (n : nat) (c : ascii) (s : string) : string :=
  repeat_char (n - String.length s) c ++ s.

Definition nextId (prefix : string) (seq : N) : string :=
  prefix ++ "-" ++ padStart 3 "0" (String_of_N seq).

(** What one call of [apply] reads and writes. *)
Record Mem : Type := {
  seqs : Counters;
  view : View
}.

Definition M (A : Type) : Type := Mem -> Mem * outcome A.

Definition ret {A} (a : A) : M A := fun m => (m, Return a).

Definition bind {A B} (c : M A) (k : A -> M B) : M B :=
  fun m =>
    match c m with
    | (m', Return a) => k a m'
    | (m', Raise e) => (m', Raise e)
    end.

Definition lift {A} (o : outcome A) : M A := fun m => (m, o).

Notation "'do' x <- c ; k" := (bind c (fun x => k))
  (at level 10, x name, c at level 100, k at level 200).
Notation "c ;; k" := (bind c (fun _ => k))
  (at level 100, k at level 200, right associativity).

Section Apply.
Context (rt : Runtime).

Definition view_key (k : value) : outcome string :=
  match k with
  | VStr s => Return s
  | _ =>
      match key_encoding rt k with
      | Some s => Return s
      | None => Raise TypeError
      end
  end.

(** [await view.get(k)]; [None] is the falsy result. *)
Definition view_get (k : value) : M (option value) :=
  fun m =>
    match view_key k with
    | Return s => (m, Return (view m !! s))
    | Raise e => (m, Raise e)
    end.

(** [await view.put(k, JSON.stringify(x))]. *)
Definition view_put (k : value) (x : value) : M unit :=
  fun m =>
    match view_key k with
    | Return s =>
        ({| seqs := seqs m; view := <[s := JSON_stringify x]> (view m) |}, Return tt)
    | Raise e => (m, Raise e)
    end.

Definition next_listing : M string :=
  fun m =>
    let c := seqs m in
    let n := incr (listingSeq c) in
    ({| seqs := {| listingSeq := n; offerSeq := offerSeq c;
                   dealSeq := dealSeq c; ruleSeq := ruleSeq c |};
        view := view m |}, Return (nextId "LST" n)).

Definition next_offer : M string :=
  fun m =>
    let c := seqs m in
    let n := incr (offerSeq c) in
    ({| seqs := {| listingSeq := listingSeq c; offerSeq := n;
                   dealSeq := dealSeq c; ruleSeq := ruleSeq c |};
        view := view m |}, Return (nextId "OFR" n)).

Definition next_deal : M string :=
  fun m =>
    let c := seqs m in
    let n := incr (dealSeq c) in
    ({| seqs := {| listingSeq := listingSeq c; offerSeq := offerSeq c;
                   dealSeq := n; ruleSeq := ruleSeq c |};
        view := view m |}, Return (nextId "DEAL" n)).

Definition next_rule : M string :=
  fun m =>
    let c := seqs m in
    let n := incr (ruleSeq c) in
    ({| seqs := {| listingSeq := listingSeq c; offerSeq := offerSeq c;
                   dealSeq := dealSeq c; ruleSeq := n |};
        view := view m |}, Return (nextId "RULE" n)).

(** The template [`${a}:${b}`]. *)
Definition colon_key (a b : value) : outcome string :=
  match ToString rt a with
  | Raise e => Raise e
  | Return sa =>
      match ToString rt b with
      | Raise e => Raise e
      | Return sb => Return (sa ++ ":" ++ sb)
      end
  end.

(** In the handlers [entry] has already answered [entry.op], so it is neither
    [null] nor [undefined] and its properties are read with [get]. *)

Definition listing_post (entry : value) : M unit :=
  do id <- next_listing;
  view_put (VStr id) (VObj [
    ("id", VStr id);
    ("title", get entry "title");
    ("desc", js_or (get entry "desc") (VStr ""));
    ("price", get entry "price");
    ("currency", js_or (get entry "currency") (VStr "TNK"));
    ("category", js_or (get entry "category") (VStr "general"));
    ("tags", js_or (get entry "tags") (VStr ""));
    ("seller", get entry "seller");
    ("createdAt", get entry "ts");
    ("status", VStr "active") ]).

Definition listing_update (entry : value) : M unit :=
  do raw <- view_get (get entry "id");
  match raw with
  | None => ret tt
  | Some listing =>
      do seller <- lift (prop listing "seller");
      if negb (strict_eq seller (get entry "seller")) then ret tt
      else
        do listing <- lift (if negb (strict_eq (get entry "price") VUndef)
                            then set_prop listing "price" (get entry "price")
                            else Return listing);
        do listing <- lift (if negb (strict_eq (get entry "desc") VUndef)
                            then set_prop listing "desc" (get entry "desc")
                            else Return listing);
        do listing <- lift (set_prop listing "updatedAt" (get entry "ts"));
        view_put (get entry "id") listing
  end.

Definition listing_remove (entry : value) : M unit :=
  do raw <- view_get (get entry "id");
  match raw with
  | None => ret tt
  | Some listing =>
      do seller <- lift (prop listing "seller");
      if negb (strict_eq seller (get entry "seller")) then ret tt
      else
        do listing <- lift (set_prop listing "status" (VStr "removed"));
        do listing <- lift (set_prop listing "removedAt" (get entry "ts"));
        view_put (get entry "id") listing
  end.

Definition offer_send (entry : value) : M unit :=
  do offerId <- next_offer;
  do key <- lift (colon_key (get entry "listingId") (VStr offerId));
  view_put (VStr key) (VObj [
    ("id", VStr offerId);
    ("listingId", get entry "listingId");
    ("buyer", get entry "buyer");
    ("amount", get entry "amount");
    ("note", js_or (get entry "note") (VStr ""));
    ("status", VStr "pending");
    ("createdAt", get entry "ts");
    ("history", VArr [ VObj [ ("amount", get entry "amount");
                              ("by", get entry "buyer");
                              ("at", get entry "ts") ] ]) ]).

(** [offer.history.push(x)]. *)
Definition history_push (offer x : value) : outcome value :=
  match prop offer "history" with
  | Raise e => Raise e
  | Return (VArr xs) => set_prop offer "history" (VArr (xs ++ [x])%list)
  | Return _ => Raise TypeError
  end.

Definition offer_counter (entry : value) : M unit :=
  do key <- lift (colon_key (get entry "listingId") (get entry "offerId"));
  do raw <- view_get (VStr key);
  match raw with
  | None => ret tt
  | Some offer =>
      do status <- lift (prop offer "status");
      if negb (strict_eq status (VStr "pending")) then ret tt
      else
        do offer <- lift (set_prop offer "amount" (get entry "amount"));
        do offer <- lift (set_prop offer "status" (VStr "pending"));
        do offer <- lift (history_push offer
                            (VObj [ ("amount", get entry "amount");
                                    ("by", get entry "by");
                                    ("at", get entry "ts") ]));
        do offer <- lift (set_prop offer "lastUpdated" (get entry "ts"));
        view_put (VStr key) offer
  end.

Definition offer_accept (entry : value) : M unit :=
  do key <- lift (colon_key (get entry "listingId") (get entry "offerId"));
  do raw <- view_get (VStr key);
  match raw with
  | None => ret tt
  | Some offer =>
      do status <- lift (prop offer "status");
      if negb (strict_eq status (VStr "pending")) then ret tt
      else
        do offer <- lift (set_prop offer "status" (VStr "accepted"));
        do offer <- lift (set_prop offer "acceptedAt" (get entry "ts"));
        do offer <- lift (set_prop offer "acceptedBy" (get entry "by"));
        view_put (VStr key) offer ;;
        do dealId <- next_deal;
        do listingRaw <- view_get (get entry "listingId");
        let listing := match listingRaw with Some l => l | None => VObj [] end in
        do title <- lift (prop listing "title");
        do buyer <- lift (prop offer "buyer");
        do seller <- lift (prop listing "seller");
        do finalPrice <- lift (prop offer "amount");
        do currency <- lift (prop listing "currency");
        view_put (VStr dealId) (VObj [
          ("id", VStr dealId);
          ("listingId", get entry "listingId");
          ("offerId", get entry "offerId");
          ("listingTitle", js_or title (VStr ""));
          ("buyer", buyer);
          ("seller", js_or seller (get entry "seller"));
          ("finalPrice", finalPrice);
          ("currency", js_or currency (VStr "TNK"));
          ("closedAt", get entry "ts") ]) ;;
        match listingRaw with
        | None => ret tt
        | Some _ =>
            do listing <- lift (set_prop listing "status" (VStr "sold"));
            do listing <- lift (set_prop listing "soldAt" (get entry "ts"));
            do listing <- lift (set_prop listing "dealId" (VStr dealId));
            view_put (get entry "listingId") listing
        end
  end.

Definition offer_decline (entry : value) : M unit :=
  do key <- lift (colon_key (get entry "listingId") (get entry "offerId"));
  do raw <- view_get (VStr key);
  match raw with
  | None => ret tt
  | Some offer =>
      do status <- lift (prop offer "status");
      if negb (strict_eq status (VStr "pending")) then ret tt
      else
        do offer <- lift (set_prop offer "status" (VStr "declined"));
        do offer <- lift (set_prop offer "declinedAt" (get entry "ts"));
        do offer <- lift (set_prop offer "declinedBy" (get entry "by"));
        view_put (VStr key) offer
  end.

(** The template [`rule:${owner}:${id}`]. *)
Definition rule_key (owner id : value) : outcome string :=
  match colon_key owner id with
  | Raise e => Raise e
  | Return s => Return ("rule:" ++ s)
  end.

Definition rule_set (entry : value) : M unit :=
  do ruleId <- next_rule;
  do ruleKey <- lift (rule_key (get entry "owner") (VStr ruleId));
  view_put (VStr ruleKey) (VObj [
    ("id", VStr ruleId);
    ("owner", get entry "owner");
    ("type", get entry "ruleType");
    ("params", get entry "params");
    ("createdAt", get entry "ts") ]).

Definition rule_delete (entry : value) : M unit :=
  do ruleKey <- lift (rule_key (get entry "owner") (get entry "ruleId"));
  do raw <- view_get (VStr ruleKey);
  match raw with
  | None => ret tt
  | Some rule =>
      do owner <- lift (prop rule "owner");
      if negb (strict_eq owner (get entry "owner")) then ret tt
      else
        do rule <- lift (set_prop rule "deleted" (VBool true));
        view_put (VStr ruleKey) rule
  end.

(** The [switch (entry.op)]: a case is taken when [entry.op] is strictly equal
    to its string; no case, no effect. *)
Definition dispatch (op : string) (entry : value) : M unit :=
  if String.eqb op "listing_post" then listing_post entry
  else if String.eqb op "listing_update" then listing_update entry
  else if String.eqb op "listing_remove" then listing_remove entry
  else if String.eqb op "offer_send" then offer_send entry
  else if String.eqb op "offer_counter" then offer_counter entry
  else if String.eqb op "offer_accept" then offer_accept entry
  else if String.eqb op "offer_decline" then offer_decline entry
  else if String.eqb op "rule_set" then rule_set entry
  else if String.eqb op "rule_delete" then rule_delete entry
  else ret tt.

(** One turn of the loop.  A node is what the guarded
    [JSON.parse(node.value.toString())] gave: [None] when it threw. *)
Definition apply_node (node : option value) : M unit :=
  match node with
  | None => ret tt
  | Some entry =>
      do op <- lift (prop entry "op");
      match op with
      | VStr s => dispatch s entry
      | _ => ret tt
      end
  end.

Fixpoint apply (nodes : list (option value)) : M unit :=
  match nodes with
  | [] => ret tt
  | node :: nodes' => apply_node node ;; apply nodes'
  end.

End Apply.

End Contract.

(** ** The command router: [_ruleSet] *)

Module Router.

(** [_ok(msg, data)]. *)
Definition _ok (msg data : value) : value :=
  let out := [("ok", VBool true)] in
  let out := if truthy msg then set_own out "message" msg else out in
  let out := if negb (strict_eq data VUndef) then set_own out "data" data else out in
  VObj out.

(** [_err(msg)]. *)
Definition _err (msg : value) : value :=
  VObj [("ok", VBool false); ("error", msg)].

(** [_ruleSet(cmd)] for a command [cmd] that [handle] dispatched (an object
    whose [op] is ['rule_set']), on the peer [address] at time [now]
    ([Date.now()]).  The result is the list of entries handed to
    [base.append], each as the JSON text it is sent as, and the reply. *)
Definition _ruleSet (address : value) (now : float) (cmd : value)
  : list value * value :=
  let category := get cmd "category" in
  let listing_id := get cmd "listing_id" in
  let auto_buy_below := get cmd "auto_buy_below" in
  let auto_accept_above := get cmd "auto_accept_above" in
  let auto_counter_ratio := get cmd "auto_counter_ratio" in
  let chosen :=
    if negb (strict_eq auto_buy_below VUndef) then
      Some ("auto_buy",
            VObj [("category", category); ("max_price", auto_buy_below)])
    else if negb (strict_eq auto_accept_above VUndef) then
      Some ("auto_accept",
            VObj [("listingId", listing_id); ("min_price", auto_accept_above)])
    else if negb (strict_eq auto_counter_ratio VUndef) then
      Some ("auto_counter",
            VObj [("listingId", listing_id); ("ratio", auto_counter_ratio)])
    else None in
  match chosen with
  | None =>
      ([], _err (VStr "rule_set: specify auto_buy_below, auto_accept_above, or auto_counter_ratio"))
  | Some (ruleType, params) =>
      ([JSON_stringify (VObj [
          ("op", VStr "rule_set");
          ("ruleType", VStr ruleType);
          ("params", params);
          ("owner", address);
          ("ts", VNum now) ])],
       _ok (VStr ("Rule set: " ++ ruleType)) VUndef)
  end.

End Router.

(** ** market.js: the rule engine *)

Module Market.

Definition DEAL_RATE_WINDOW_MS : Z := 60 * 60 * 1000.

(** [_checkRateLimit(maxPerHour)] at [Date.now() = now] (integer
    milliseconds, which binary64 subtracts exactly), on the field
    [dealTimestamps]: the new value of the field and the result. *)
Definition _checkRateLimit (maxPerHour : Z) (now : Z) (dealTimestamps : list Z)
  : list Z * bool :=
  let dealTimestamps :=
    List.filter (fun t => (now - t <? DEAL_RATE_WINDOW_MS)%Z) dealTimestamps in
  if (Z.of_nat (List.length dealTimestamps) >=? maxPerHour)%Z then (dealTimestamps, false)
  else ((dealTimestamps ++ [now])%list, true).

Section Engine.
Context (rt : Runtime).
(** The reply of [protocol.handle({ op: 'listing_get', id })]. *)
Context (listing_get : string -> value).

Definition accept_command (listingId : string) (offerMsg : value) : value :=
  VObj [("op", VStr "offer_accept");
        ("listing_id", VStr listingId);
        ("offer_id", get offerMsg "offerId")].

Definition counter_command (listingId : string) (offerMsg : value) (floor : float)
  : value :=
  VObj [("op", VStr "offer_counter");
        ("listing_id", VStr listingId);
        ("offer_id", get offerMsg "offerId");
        ("amount", VNum floor)].

(** [rule.type === t && rule.params.listingId === listingId]. *)
Definition scoped (rule : value) (t : string) (listingId : string) : outcome bool :=
  match prop rule "type" with
  | Raise e => Raise e
  | Return ty =>
      if strict_eq ty (VStr t) then
        match prop (get rule "params") "listingId" with
        | Raise e => Raise e
        | Return l => Return (strict_eq l (VStr listingId))
        end
      else Return false
  end.

(** The [auto_counter] branch of the loop body, once the rule is known to be
    scoped to the listing: [None] is [continue], [Some c] is the command
    handed to [protocol.handle] before the [return]. *)
Definition counter_branch (rule : value) (listingId : string) (offerMsg : value)
  : outcome (option value) :=
  let listingResult := listing_get listingId in
  match prop listingResult "ok" with
  | Raise e => Raise e
  | Return ok =>
      if negb (truthy ok) then Return None
      else
        match prop (get listingResult "data") "price" with
        | Raise e => Raise e
        | Return price =>
            match js_mul rt price (get (get rule "params") "ratio") with
            | Raise e => Raise e
            | Return x =>
                let floor := Math_floor x in
                match js_lt rt (get offerMsg "amount") (VNum floor) with
                | Raise e => Raise e
                | Return true => Return (Some (counter_command listingId offerMsg floor))
                | Return false => Return (Some (accept_command listingId offerMsg))
                end
            end
        end
  end.

(** The loop of [_evalAcceptRules(listingId, offerMsg)] over the rules that
    [rule_list] replied ([offerMsg] has answered [msg.event], so it is
    neither [null] nor [undefined]).  The result is the command the engine
    hands to [protocol.handle] for its effect, if any. *)
Fixpoint _evalAcceptRules (rules : list value) (listingId : string) (offerMsg : value)
  : outcome (option value) :=
  match rules with
  | [] => Return None
  | rule :: rules' =>
      match scoped rule "auto_accept" listingId with
      | Raise e => Raise e
      | Return is_accept =>
          match (if is_accept
                 then js_ge rt (get offerMsg "amount") (get (get rule "params") "min_price")
                 else Return false) with
          | Raise e => Raise e
          | Return true => Return (Some (accept_command listingId offerMsg))
          | Return false =>
              match scoped rule "auto_counter" listingId with
              | Raise e => Raise e
              | Return false => _evalAcceptRules rules' listingId offerMsg
              | Return true =>
                  match counter_branch rule listingId offerMsg with
                  | Raise e => Raise e
                  | Return None => _evalAcceptRules rules' listingId offerMsg
                  | Return (Some c) => Return (Some c)
                  end
              end
          end
      end
  end.

End Engine.

End Market.

(** ** The command router: [handle] and the other handlers *)

Module Protocol.

Import Contract Router.

(** Modelled from the spec: the read side of the Keyed View Store, as the
    router uses it.  [get(k)] gives a node whose [value] is the stored text,
    or [null]; [createReadStream(range)] gives the nodes of the keys in the
    range, in ascending byte order of the keys (the [open] handler makes the
    keys UTF-8).  A string is the sequence of its UTF-8 bytes. *)
Definition key_le (a b : string * value) : Prop := String.le a.1 b.1.

#[global] Instance key_le_dec : RelDecision key_le.
Proof. intros a b. unfold key_le. apply _. Defined.

Definition createReadStream (v : View) : list (string * value) :=
  merge_sort key_le (map_to_list v).

(** The character [\xff], as a key holds it. *)
Definition xff : string := String "195" (String "191" "").

(** [createReadStream({ gte, lte })]. *)
Definition createReadStream_range (v : View) (gte lte : string)
  : list (string * value) :=
  List.filter (fun e => String.leb gte e.1 && String.leb e.1 lte) (createReadStream v).

(** What a call of [handle] hands to [base.append] and to [sc.broadcast], in
    order: each entry and message as the JSON text it is sent as, a message
    with its channel. *)
Record Outbox : Type := {
  appended : list value;
  broadcasts : list (string * value)
}.

Definition nothing : Outbox := {| appended := []; broadcasts := [] |}.

(** A handler: what it sends stays sent when it raises. *)
Definition P (A : Type) : Type := Outbox -> Outbox * outcome A.

Definition ret {A} (a : A) : P A := fun o => (o, Return a).

Definition bind {A B} (c : P A) (k : A -> P B) : P B :=
  fun o =>
    match c o with
    | (o', Return a) => k a o'
    | (o', Raise e) => (o', Raise e)
    end.

Definition lift {A} (r : outcome A) : P A := fun o => (o, r).

Notation "'let*' x := c 'in' k" := (bind c (fun x => k))
  (at level 10, x name, c at level 100, k at level 200).

(** [await this.base.append(JSON.stringify(entry))]. *)
Definition base_append (entry : value) : P unit :=
  fun o =>
    ({| appended := appended o ++ [JSON_stringify entry];
        broadcasts := broadcasts o |}, Return tt).

(** [this.sc.broadcast(channel, JSON.stringify(msg))]. *)
Definition sc_broadcast (channel : string) (msg : value) : P unit :=
  fun o =>
    ({| appended := appended o;
        broadcasts := broadcasts o ++ [(channel, JSON_stringify msg)] |}, Return tt).

(** What [handle] is called with: a string, given by what [JSON.parse] makes
    of it ([None] when it throws), or a value that is not a string. *)
Inductive raw_command : Type :=
| Text (parsed : option value)
| Direct (cmd : value).

(** [typeof v === 'number']. *)
Definition is_number (v : value) : bool :=
  match v with
  | VNum _ => true
  | _ => false
  end.

Section Handlers.
Context (rt : Runtime).
(** [this.address], [Date.now()] and the content of [this.view] during the
    call. *)
Context (address : value) (now : float) (v : View).

(** [a > b]. *)
Definition js_gt (a b : value) : outcome bool :=
  match IsLessThan rt b a with
  | Raise e => Raise e
  | Return (Some r) => Return r
  | Return None => Return false
  end.

(** The template [`deal-${listing_id}`]. *)
Definition deal_channel (listing_id : value) : outcome string :=
  match ToString rt listing_id with
  | Raise e => Raise e
  | Return s => Return ("deal-" ++ s)
  end.

Definition _listingPost (cmd : value) : P value :=
  let title := get cmd "title" in
  let desc := get cmd "desc" in
  let price := get cmd "price" in
  let currency := get cmd "currency" in
  let category := get cmd "category" in
  let tags := get cmd "tags" in
  if negb (truthy title) then ret (_err (VStr "listing_post requires title"))
  else
    let* negative :=
      if negb (is_number price) then ret true else lift (js_lt rt price (VNum 0)) in
    if negative then ret (_err (VStr "listing_post requires numeric price"))
    else
      let* _ := base_append (VObj [
        ("op", VStr "listing_post"); ("title", title);
        ("desc", js_or desc (VStr "")); ("price", price);
        ("currency", js_or currency (VStr "TNK"));
        ("category", js_or category (VStr "general"));
        ("tags", js_or tags (VStr ""));
        ("seller", address);
        ("ts", VNum now) ]) in
      let* _ := sc_broadcast "tracmarket" (VObj [
        ("event", VStr "LISTING_POST");
        ("title", title); ("price", price);
        ("currency", js_or currency (VStr "TNK"));
        ("category", js_or category (VStr "general"));
        ("seller", address) ]) in
      ret (_ok (VStr "Listing posted to tracmarket channel") VUndef).

Definition _listingUpdate (cmd : value) : P value :=
  let id := get cmd "id" in
  let price := get cmd "price" in
  let desc := get cmd "desc" in
  if negb (truthy id) then ret (_err (VStr "listing_update requires id"))
  else
    let* _ := base_append (VObj [
      ("op", VStr "listing_update"); ("id", id); ("price", price); ("desc", desc);
      ("seller", address); ("ts", VNum now) ]) in
    let* _ := (if negb (strict_eq price VUndef)
     then sc_broadcast "tracmarket" (VObj [
            ("event", VStr "LISTING_UPDATE"); ("id", id); ("price", price) ])
     else ret tt) in
    let* s := lift (ToString rt id) in
    ret (_ok (VStr ("Listing " ++ s ++ " updated")) VUndef).

Definition _listingRemove (cmd : value) : P value :=
  let id := get cmd "id" in
  if negb (truthy id) then ret (_err (VStr "listing_remove requires id"))
  else
    let* _ := base_append (VObj [
      ("op", VStr "listing_remove"); ("id", id);
      ("seller", address); ("ts", VNum now) ]) in
    let* _ := sc_broadcast "tracmarket" (VObj [("event", VStr "LISTING_REMOVE"); ("id", id)]) in
    let* s := lift (ToString rt id) in
    ret (_ok (VStr ("Listing " ++ s ++ " removed")) VUndef).

(** The loop of [_listingList] over the nodes of the stream, from the
    [results] so far. *)
Fixpoint _listingList_loop (limit category max_price mine : value)
    (stream : list (string * value)) (results : list value)
  : outcome (list value) :=
  match stream with
  | [] => Return results
  | (key, listing) :: stream' =>
      let continue :=
        _listingList_loop limit category max_price mine stream' results in
      if negb (String.prefix "LST-" key) then continue
      else
        match prop listing "status" with
        | Raise e => Raise e
        | Return status =>
            if negb (strict_eq status (VStr "active")) then continue
            else if truthy category && negb (strict_eq (get listing "category") category)
            then continue
            else
              match (if negb (strict_eq max_price VUndef)
                     then js_gt (get listing "price") max_price
                     else Return false) with
              | Raise e => Raise e
              | Return true => continue
              | Return false =>
                  if truthy mine && negb (strict_eq (get listing "seller") address)
                  then continue
                  else
                    let results := (results ++ [listing])%list in
                    match js_ge rt (VNum (float_of_Z (Z.of_nat (List.length results))))
                                limit with
                    | Raise e => Raise e
                    | Return true => Return results
                    | Return false =>
                        _listingList_loop limit category max_price mine stream' results
                    end
              end
        end
  end.

(** [const { x = d } = cmd]: the default stands in for [undefined] only. *)
Definition default (x d : value) : value :=
  match x with
  | VUndef => d
  | _ => x
  end.

Definition _listingList (cmd : value) : P value :=
  let limit := default (get cmd "limit") (VNum 20) in
  let category := get cmd "category" in
  let max_price := get cmd "max_price" in
  let mine := get cmd "mine" in
  let* results :=
    lift (_listingList_loop limit category max_price mine (createReadStream v) []) in
  ret (_ok VNull (VArr results)).

(** [_listingGet] and [_dealGet] differ in the words of their messages. *)
Definition get_by_id (op what : string) (cmd : value) : P value :=
  let id := get cmd "id" in
  if negb (truthy id) then ret (_err (VStr (op ++ " requires id")))
  else
    let* key := lift (view_key rt id) in
    match v !! key with
    | None =>
        let* s := lift (ToString rt id) in
        ret (_err (VStr (what ++ " " ++ s ++ " not found")))
    | Some text => ret (_ok VNull text)
    end.

Definition _listingGet (cmd : value) : P value := get_by_id "listing_get" "Listing" cmd.

Definition _dealGet (cmd : value) : P value := get_by_id "deal_get" "Deal" cmd.

Definition _offerSend (cmd : value) : P value :=
  let listing_id := get cmd "listing_id" in
  let amount := get cmd "amount" in
  let note := get cmd "note" in
  if negb (truthy listing_id) then ret (_err (VStr "offer_send requires listing_id"))
  else if negb (is_number amount) then ret (_err (VStr "offer_send requires numeric amount"))
  else
    let* _ := base_append (VObj [
      ("op", VStr "offer_send"); ("listingId", listing_id);
      ("buyer", address); ("amount", amount);
      ("note", js_or note (VStr "")); ("ts", VNum now) ]) in
    let* channel := lift (deal_channel listing_id) in
    let* _ := sc_broadcast channel (VObj [
      ("event", VStr "OFFER_SENT"); ("amount", amount);
      ("note", js_or note (VStr "")); ("buyer", address) ]) in
    ret (_ok (VStr "Offer sent") VUndef).

Definition _offerCounter (cmd : value) : P value :=
  let listing_id := get cmd "listing_id" in
  let offer_id := get cmd "offer_id" in
  let amount := get cmd "amount" in
  if negb (truthy listing_id) || negb (truthy offer_id)
  then ret (_err (VStr "offer_counter requires listing_id and offer_id"))
  else if negb (is_number amount)
  then ret (_err (VStr "offer_counter requires numeric amount"))
  else
    let* _ := base_append (VObj [
      ("op", VStr "offer_counter"); ("listingId", listing_id); ("offerId", offer_id);
      ("amount", amount); ("by", address); ("ts", VNum now) ]) in
    let* channel := lift (deal_channel listing_id) in
    let* _ := sc_broadcast channel (VObj [
      ("event", VStr "OFFER_COUNTER"); ("offerId", offer_id);
      ("amount", amount); ("by", address) ]) in
    let* s := lift (ToString rt amount) in
    ret (_ok (VStr ("Counter-offer sent: " ++ s ++ " TNK")) VUndef).

Definition _offerAccept (cmd : value) : P value :=
  let listing_id := get cmd "listing_id" in
  let offer_id := get cmd "offer_id" in
  if negb (truthy listing_id) || negb (truthy offer_id)
  then ret (_err (VStr "offer_accept requires listing_id and offer_id"))
  else
    let* _ := base_append (VObj [
      ("op", VStr "offer_accept"); ("listingId", listing_id); ("offerId", offer_id);
      ("by", address); ("seller", address); ("ts", VNum now) ]) in
    let dealMsg := VObj [
      ("event", VStr "OFFER_ACCEPTED"); ("offerId", offer_id); ("by", address) ] in
    let* channel := lift (deal_channel listing_id) in
    let* _ := sc_broadcast channel dealMsg in
    let* _ := sc_broadcast "tracmarket" (VObj [
      ("event", VStr "DEAL_CLOSED"); ("listingId", listing_id) ]) in
    ret (_ok (VStr "Deal accepted! Recorded on-chain.") VUndef).

Definition _offerDecline (cmd : value) : P value :=
  let listing_id := get cmd "listing_id" in
  let offer_id := get cmd "offer_id" in
  if negb (truthy listing_id) || negb (truthy offer_id)
  then ret (_err (VStr "offer_decline requires listing_id and offer_id"))
  else
    let* _ := base_append (VObj [
      ("op", VStr "offer_decline"); ("listingId", listing_id); ("offerId", offer_id);
      ("by", address); ("ts", VNum now) ]) in
    let* channel := lift (deal_channel listing_id) in
    let* _ := sc_broadcast channel (VObj [
      ("event", VStr "OFFER_DECLINED"); ("offerId", offer_id); ("by", address) ]) in
    ret (_ok (VStr "Offer declined") VUndef).

(** The loop of [_dealList]. *)
Fixpoint _dealList_loop (limit mine : value)
    (stream : list (string * value)) (results : list value)
  : outcome (list value) :=
  match stream with
  | [] => Return results
  | (key, deal) :: stream' =>
      let continue := _dealList_loop limit mine stream' results in
      if negb (String.prefix "DEAL-" key) then continue
      else
        match (if truthy mine
               then match prop deal "buyer" with
                    | Raise e => Raise e
                    | Return buyer =>
                        Return (negb (strict_eq buyer address) &&
                                negb (strict_eq (get deal "seller") address))
                    end
               else Return false) with
        | Raise e => Raise e
        | Return true => continue
        | Return false =>
            let results := (results ++ [deal])%list in
            match js_ge rt (VNum (float_of_Z (Z.of_nat (List.length results)))) limit with
            | Raise e => Raise e
            | Return true => Return results
            | Return false => _dealList_loop limit mine stream' results
            end
        end
  end.

Definition _dealList (cmd : value) : P value :=
  let limit := default (get cmd "limit") (VNum 10) in
  let mine := get cmd "mine" in
  let* results := lift (_dealList_loop limit mine (createReadStream v) []) in
  ret (_ok VNull (VArr results)).

(** The loop of [_ruleList]. *)
Fixpoint _ruleList_loop (stream : list (string * value)) (results : list value)
  : outcome (list value) :=
  match stream with
  | [] => Return results
  | (_, rule) :: stream' =>
      match prop rule "deleted" with
      | Raise e => Raise e
      | Return deleted =>
          _ruleList_loop stream'
            (if negb (truthy deleted) then (results ++ [rule])%list else results)
      end
  end.

Definition _ruleList : P value :=
  let* a := lift (ToString rt address) in
  let prefix := "rule:" ++ a ++ ":" in
  let* results :=
    lift (_ruleList_loop (createReadStream_range v prefix (prefix ++ xff)) []) in
  ret (_ok VNull (VArr results)).

Definition _ruleDelete (cmd : value) : P value :=
  let rule_id := get cmd "rule_id" in
  if negb (truthy rule_id) then ret (_err (VStr "rule_delete requires rule_id"))
  else
    let* _ := base_append (VObj [
      ("op", VStr "rule_delete"); ("ruleId", rule_id);
      ("owner", address); ("ts", VNum now) ]) in
    let* s := lift (ToString rt rule_id) in
    ret (_ok (VStr ("Rule " ++ s ++ " deleted")) VUndef).

(** [_ruleSet] hands its entry, already a JSON text, to [base.append]. *)
Definition rule_set_command (cmd : value) : P value :=
  fun o =>
    let '(entries, reply) := _ruleSet address now cmd in
    ({| appended := appended o ++ entries; broadcasts := broadcasts o |}, Return reply).

(** The [switch (op)] of [handle]: a case is taken when [op] is strictly
    equal to its label. *)
Definition route (op : value) (cmd : value) : P value :=
  let unknown :=
    let* s := lift (ToString rt op) in
    ret (_err (VStr ("Unknown op: " ++ s))) in
  match op with
  | VStr op =>
      if String.eqb op "listing_post" then _listingPost cmd
      else if String.eqb op "listing_update" then _listingUpdate cmd
      else if String.eqb op "listing_remove" then _listingRemove cmd
      else if String.eqb op "listing_list" then _listingList cmd
      else if String.eqb op "listing_get" then _listingGet cmd
      else if String.eqb op "offer_send" then _offerSend cmd
      else if String.eqb op "offer_counter" then _offerCounter cmd
      else if String.eqb op "offer_accept" then _offerAccept cmd
      else if String.eqb op "offer_decline" then _offerDecline cmd
      else if String.eqb op "deal_list" then _dealList cmd
      else if String.eqb op "deal_get" then _dealGet cmd
      else if String.eqb op "rule_set" then rule_set_command cmd
      else if String.eqb op "rule_list" then _ruleList
      else if String.eqb op "rule_delete" then _ruleDelete cmd
      else unknown
  | _ => unknown
  end.

Definition handle (raw : raw_command) : P value :=
  match (match raw with Text parsed => parsed | Direct cmd => Some cmd end) with
  | None => ret (_err (VStr "Invalid JSON command"))
  | Some cmd =>
      let* op := lift (prop cmd "op") in
      if negb (truthy op) then ret (_err (VStr "Missing op field"))
      else route op cmd
  end.

End Handlers.

End Protocol.

(** ** market.js: the sidechannel events and the buy rules *)

Module Agent.

Import Contract Protocol.

(** [SameValueZero], the equality of [Map] keys.  Two objects or arrays are
    the same key when they are the same object; the keys below come from
    different [JSON.parse] calls, so they never are. *)
Definition same_value_zero (a b : value) : bool :=
  match a, b with
  | VNum x, VNum y => (PrimFloat.eqb x y || (is_nan x && is_nan y))%bool
  | _, _ => strict_eq a b
  end.

(** [map.set(k, x)]: a key that is present keeps its place. *)
Fixpoint map_set (m : list (value * value)) (k x : value) : list (value * value) :=
  match m with
  | [] => [(k, x)]
  | (k', y) :: m' =>
      if same_value_zero k' k then (k', x) :: m' else (k', y) :: map_set m' k x
  end.

(** [map.delete(k)]. *)
Fixpoint map_delete (m : list (value * value)) (k : value) : list (value * value) :=
  match m with
  | [] => []
  | (k', y) :: m' =>
      if same_value_zero k' k then m' else (k', y) :: map_delete m' k
  end.

(** The own properties [{ ...v }] copies.  The messages spread below have
    answered [msg.event] with a string, so they are objects. *)
Definition spread (v : value) : list (string * value) :=
  match v with
  | VObj fs => fs
  | _ => []
  end.

(** [s.slice(n)] for a string that starts with [n] ASCII characters. *)
Fixpoint slice (n : nat) (s : string) : string :=
  match n, s with
  | S n', String _ s' => slice n' s'
  | _, _ => s
  end.

(** A [Market] instance and what it has made its protocol do: the fields
    [knownListings] (in insertion order) and [dealTimestamps], the channels
    handed to [sc.join], what [protocol.handle] has sent, and the number of
    steps so far (calls of [Date.now()] and of [protocol.handle]). *)
Record Peer : Type := {
  knownListings : list (value * value);
  dealTimestamps : list Z;
  joined : list string;
  sent : Outbox;
  steps : nat
}.

Definition A (T : Type) : Type := Peer -> Peer * outcome T.

Definition ret {T} (a : T) : A T := fun p => (p, Return a).

Definition bind {T U} (c : A T) (k : T -> A U) : A U :=
  fun p =>
    match c p with
    | (p', Return a) => k a p'
    | (p', Raise e) => (p', Raise e)
    end.

Definition lift {T} (r : outcome T) : A T := fun p => (p, r).

Notation "'let!' x := c 'in' k" := (bind c (fun x => k))
  (at level 10, x name, c at level 100, k at level 200).

Section Engine.
Context (rt : Runtime).
(** [protocol.address] and the constructor's [agentMode]. *)
Context (address : value) (agentMode : bool).
(** What the clock reads and what the view holds at each step. *)
Context (Date_now : nat -> Z) (view_at : nat -> View).

(** [await this.protocol.handle(cmd)]. *)
Definition protocol_handle (cmd : value) : A value :=
  fun p =>
    let '(out, r) :=
      handle rt address (float_of_Z (Date_now (steps p))) (view_at (steps p))
        (Direct cmd) (sent p) in
    ({| knownListings := knownListings p; dealTimestamps := dealTimestamps p;
        joined := joined p; sent := out; steps := S (steps p) |}, r).

(** [this._checkRateLimit(maxPerHour)]. *)
Definition checkRateLimit (maxPerHour : Z) : A bool :=
  fun p =>
    let '(ts, ok) :=
      Market._checkRateLimit maxPerHour (Date_now (steps p)) (dealTimestamps p) in
    ({| knownListings := knownListings p; dealTimestamps := ts;
        joined := joined p; sent := sent p; steps := S (steps p) |}, Return ok).

(** [this.protocol.sc.join(channel)]. *)
Definition sc_join (channel : string) : A unit :=
  fun p =>
    ({| knownListings := knownListings p; dealTimestamps := dealTimestamps p;
        joined := joined p ++ [channel]; sent := sent p; steps := steps p |},
     Return tt).

(** The conversions of a [console.log] template, in order; what is printed
    is not modelled. *)
Fixpoint console_log (parts : list value) : A unit :=
  match parts with
  | [] => ret tt
  | x :: parts' =>
      let! _ := lift (ToString rt x) in
      console_log parts'
  end.

(** [result.data || []], iterated: [handle] replies [rule_list] with an
    array. *)
Definition rules_of (result : value) : outcome (list value) :=
  match prop result "data" with
  | Raise e => Raise e
  | Return data =>
      match js_or data (VArr []) with
      | VArr rules => Return rules
      | _ => Raise TypeError
      end
  end.

(** The loop of [_evalBuyRules(listing)]. *)
Fixpoint _evalBuyRules_loop (rules : list value) (listing : value) : A unit :=
  match rules with
  | [] => ret tt
  | rule :: rules' =>
      let continue := _evalBuyRules_loop rules' listing in
      let! type := lift (prop rule "type") in
      if negb (strict_eq type (VStr "auto_buy")) then continue
      else
        let! category := lift (prop (get rule "params") "category") in
        if truthy category && negb (strict_eq category (get listing "category"))
        then continue
        else
          let! above :=
            lift (js_gt rt (get listing "price") (get (get rule "params") "max_price")) in
          if above then continue
          else
            let! ok := checkRateLimit 10 in
            if negb ok then ret tt
            else
              let! _ := console_log [get listing "title"; get listing "price"] in
              let! channel := lift (deal_channel rt (get listing "id")) in
              let! _ := sc_join channel in
              let! _ := protocol_handle (VObj [
                ("op", VStr "offer_send");
                ("listing_id", get listing "id");
                ("amount", get listing "price");
                ("note", VStr "Auto-buy: accepting ask price") ]) in
              continue
  end.

Definition _evalBuyRules (listing : value) : A unit :=
  let! result := protocol_handle (VObj [("op", VStr "rule_list")]) in
  let! rules := lift (rules_of result) in
  _evalBuyRules_loop rules listing.

(** The reply of [protocol.handle({ op: 'listing_get', id })] on the view
    [v]; the call sends nothing and, for an [id] that is a string, does not
    raise. *)
Definition listing_get (v : View) (id : string) : value :=
  match handle rt address 0 v
          (Direct (VObj [("op", VStr "listing_get"); ("id", VStr id)])) nothing with
  | (_, Return reply) => reply
  | (_, Raise _) => VUndef
  end.

(** [_evalAcceptRules(listingId, offerMsg)]: the loop is
    [Market._evalAcceptRules], which reads the listing in the view as it is
    when the rules have been listed; the command it ends with is handed to
    [protocol.handle]. *)
Definition _evalAcceptRules (listingId : string) (offerMsg : value) : A unit :=
  let! result := protocol_handle (VObj [("op", VStr "rule_list")]) in
  let! rules := lift (rules_of result) in
  fun p =>
    match Market._evalAcceptRules rt (listing_get (view_at (steps p)))
            rules listingId offerMsg with
    | Raise e => (p, Raise e)
    | Return None => (p, Return tt)
    | Return (Some cmd) => (let! _ := protocol_handle cmd in ret tt) p
    end.

Definition set_knownListings (f : list (value * value) -> list (value * value))
  : A unit :=
  fun p =>
    ({| knownListings := f (knownListings p); dealTimestamps := dealTimestamps p;
        joined := joined p; sent := sent p; steps := steps p |}, Return tt).

(** [_onPublicChannelEvent(msg, from)]; [from.slice(0, 12)] is a string. *)
Definition _onPublicChannelEvent (msg : value) (from : string) : A unit :=
  let! event := lift (prop msg "event") in
  if strict_eq event (VStr "LISTING_POST") then
    let listing := VObj (set_own (spread msg) "seller" (VStr from)) in
    let! _ := set_knownListings
                (fun m => map_set m (js_or (get msg "id") (get msg "title")) listing) in
    let! _ := console_log [get msg "title"; get msg "price";
                           js_or (get msg "currency") (VStr "TNK");
                           get msg "category"] in
    if agentMode then _evalBuyRules listing else ret tt
  else if strict_eq event (VStr "LISTING_UPDATE") then
    console_log [get msg "id"; get msg "price"]
  else if strict_eq event (VStr "LISTING_REMOVE") then
    let! _ := console_log [get msg "id"] in
    set_knownListings (fun m => map_delete m (get msg "id"))
  else if strict_eq event (VStr "DEAL_CLOSED") then
    console_log [get msg "listingId"]
  else ret tt.

(** [_onDealChannelEvent(listingId, msg, from)]. *)
Definition _onDealChannelEvent (listingId : string) (msg : value) (from : string)
  : A unit :=
  let! event := lift (prop msg "event") in
  if strict_eq event (VStr "OFFER_SENT") then
    let! _ := console_log (get msg "amount" ::
                           if truthy (get msg "note") then [get msg "note"] else []) in
    if agentMode then _evalAcceptRules listingId msg else ret tt
  else if strict_eq event (VStr "OFFER_COUNTER") then
    console_log [get msg "amount"]
  else if strict_eq event (VStr "OFFER_ACCEPTED") then
    console_log [get msg "offerId"]
  else if strict_eq event (VStr "OFFER_DECLINED") then
    console_log [get msg "offerId"]
  else ret tt.

(** The handler [_bindSidechannelEvents] registers for ['sc_message'], on a
    message [{ channel, data, from }] whose [channel] and [from] are strings;
    [data] is given by what [JSON.parse] makes of it. *)
Definition sc_message (channel : string) (data : option value) (from : string)
  : A unit :=
  match data with
  | None => ret tt
  | Some msg =>
      if String.eqb channel "tracmarket" then _onPublicChannelEvent msg from
      else if String.prefix "deal-" channel
      then _onDealChannelEvent (slice 5 channel) msg from
      else ret tt
  end.

End Engine.

End Agent.

(** ** The entry point: the in-memory stand-in for the log and its view *)

Module Main.

Import Contract Agent.

(** [store], a [Map] whose keys come out of [JSON.parse], with its entries
    in insertion order.  A JSON text is given by the value it parses to;
    [undefined] is what [JSON.stringify(undefined)] gives. *)
Definition Store : Type := list (value * value).

(** [store.get(k)]. *)
Fixpoint map_get (m : Store) (k : value) : value :=
  match m with
  | [] => VUndef
  | (k', y) :: m' => if same_value_zero k' k then y else map_get m' k
  end.

(** [intercom.base.append(data)], [data] given by what [JSON.parse] makes of
    it: whatever is thrown is caught. *)
Definition append (data : option value) (store : Store) : Store :=
  match data with
  | None => store
  | Some d =>
      match prop d "op" with
      | Raise _ => store
      | Return op =>
          if strict_eq op (VStr "PUT")
          then map_set store (get d "key") (JSON_stringify (get d "value"))
          else store
      end
  end.

(** [v ? Buffer.from(v) : null]: a JSON text is never empty. *)
Definition buffer_or_null (v : value) : option value :=
  match v with
  | VUndef => None
  | text => Some text
  end.

(** [await intercom.base.view.get(key)] for a key that is a string, which
    is its own [toString()]: the text of the buffer, [None] for [null]. *)
Definition view_get (key : string) (store : Store) : option value :=
  buffer_or_null (map_get store (VStr key)).

End Main.

(** ** Well-formed stored values and entries *)

Import Contract.

(** The properties [JSON_stringify] keeps of an object. *)
Fixpoint stringify_props (l : list (string * value)) : list (string * value) :=
  match l with
  | [] => []
  | (k, x) :: l' =>
      match JSON_stringify x with
      | VUndef => stringify_props l'
      | y => (k, y) :: stringify_props l'
      end
  end.

(** What [apply] keeps true of every stored value: it is an object, and while
    its [status] is ['pending'] its [history] is an array. *)
Definition stored_ok (x : value) : Prop :=
  exists fs, x = VObj fs /\ NoDup fs.*1 /\
    (own fs "status" = VStr "pending" -> exists xs, own fs "history" = VArr xs).

Definition view_ok (v : View) : Prop :=
  forall k x, v !! k = Some x -> stored_ok x.

Definition is_string (v : value) : bool :=
  match v with
  | VStr _ => true
  | _ => false
  end.

(** The fields an operation builds its keys from. *)
Definition key_fields (op : string) : list string :=
  if String.eqb op "listing_update" then ["id"]
  else if String.eqb op "listing_remove" then ["id"]
  else if String.eqb op "offer_send" then ["listingId"]
  else if String.eqb op "offer_counter" then ["listingId"; "offerId"]
  else if String.eqb op "offer_accept" then ["listingId"; "offerId"]
  else if String.eqb op "offer_decline" then ["listingId"; "offerId"]
  else if String.eqb op "rule_set" then ["owner"]
  else if String.eqb op "rule_delete" then ["owner"; "ruleId"]
  else [].

(** A node that decodes to something other than [null], with strings in the
    key fields of its operation. *)
Definition well_keyed (node : option value) : bool :=
  match node with
  | None => true
  | Some VUndef | Some VNull => false
  | Some entry =>
      match get entry "op" with
      | VStr op => forallb (fun f => is_string (get entry f)) (key_fields op)
      | _ => true
      end
  end.

(** The operations [apply] knows. *)
Definition known_op (op : string) : bool :=
  existsb (String.eqb op)
    ["listing_post"; "listing_update"; "listing_remove"; "offer_send";
     "offer_counter"; "offer_accept"; "offer_decline"; "rule_set"; "rule_delete"].

(** A node [apply] has no case for: undecodable, or decoded to a value other
    than [null] whose [op] is not the string of a known operation. *)
Definition no_case (node : option value) : bool :=
  match node with
  | None => true
  | Some VUndef | Some VNull => false
  | Some entry =>
      match get entry "op" with
      | VStr op => negb (known_op op)
      | _ => true
      end
  end.

(** A command with the invariant [view_ok]: it keeps it, raises only when
    [total] is false, and returns values in [Q]. *)
Definition triple {A} (total : bool) (c : M A) (Q : A -> Prop) : Prop :=
  forall m, view_ok (view m) ->
    view_ok (view (fst (c m))) /\
    match snd (c m) with
    | Return a => Q a
    | Raise _ => total = false
    end.

(** Whether a string holds a colon: every offer and rule key does, no
    listing or deal key does. *)
Fixpoint has_colon (s : string) : bool :=
  match s with
  | EmptyString => false
  | String c s' => (Ascii.eqb c ":" || has_colon s')%bool
  end.

(** The property [f] of the value stored under [k] ([undefined] when nothing
    is stored there). *)
Definition stored_field (v : View) (k f : string) : value :=
  match v !! k with
  | Some x => get x f
  | None => VUndef
  end.

(** ** Deals and the offers they reference *)

(** The part of a key after its last colon (the key itself when it has none). *)
Fixpoint after_last_colon (s : string) : string :=
  match s with
  | EmptyString => ""
  | String c s' =>
      if has_colon s' then after_last_colon s'
      else if Ascii.eqb c ":" then s' else String c s'
  end.

(** The number a padded decimal id stands for. *)
Definition N_of_digits (s : string) : N :=
  match NilEmpty.uint_of_string s with
  | Some d => N.of_uint d
  | None => 0%N
  end.

(** A stored value whose [status] is ['pending']. *)
Definition pending (y : value) : Prop := get y "status" = VStr "pending".

(** The key [k] holds a value that is not pending. *)
Definition closed (v : View) (k : string) : Prop :=
  exists y, v !! k = Some y /\ ~ pending y.

(** The deal [DEAL-j] is stored and references the pair [(l, o)]. *)
Definition deal_pair (v : View) (j : N) (l o : string) : Prop :=
  exists d, v !! nextId "DEAL" j = Some d /\
            get d "listingId" = VStr l /\ get d "offerId" = VStr o.

(** What every log keeps true from the empty view: stored values are well
    formed; an offer key names an offer id the counter has reached, a deal
    key a deal id the counter has reached; the offer a deal references is
    stored and no longer pending; and no two deals reference the same pair. *)
Record Inv (m : Mem) : Prop := {
  inv_ok : view_ok (view m);
  inv_offers : forall k x j,
    view m !! k = Some x -> after_last_colon k = nextId "OFR" j ->
    (j <= offerSeq (seqs m))%N;
  inv_deal_ids : forall j d,
    view m !! nextId "DEAL" j = Some d -> (j <= dealSeq (seqs m))%N;
  inv_deals : forall j l o, deal_pair (view m) j l o -> closed (view m) (l ++ ":" ++ o);
  inv_unique : forall i j l o,
    deal_pair (view m) i l o -> deal_pair (view m) j l o -> i = j
}.

(** A rewrite of a stored value that keeps what it references and does not
    reopen it. *)
Definition benign (y y' : value) : Prop :=
  (forall l, get y' "listingId" = VStr l <-> get y "listingId" = VStr l) /\
  (forall o, get y' "offerId" = VStr o <-> get y "offerId" = VStr o) /\
  (~ pending y -> ~ pending y').

(** The offer and deal counters are the same. *)
Definition same_seqs (c c' : Counters) : Prop :=
  offerSeq c' = offerSeq c /\ dealSeq c' = dealSeq c.

(** Both counters are below 2^53, where [n + 1] is still exact. *)
Definition bounded (c : Counters) : Prop :=
  (offerSeq c < 2 ^ 53)%N /\ (dealSeq c < 2 ^ 53)%N.

(** The offer and deal counters never go down. *)
Definition mono (m m1 : Mem) : Prop :=
  (offerSeq (seqs m) <= offerSeq (seqs m1))%N /\
  (dealSeq (seqs m) <= dealSeq (seqs m1))%N.

(** ** Sample data

    Entries as the router writes them, on a runtime whose conversions the
    samples never reach: no sample prints or reads a number, compares two
    strings or uses a key that is not a string. *)

Definition sample_runtime : Runtime :=
  {| Number_toString := fun _ => "";
     StringToNumber := fun _ => nan;
     String_lessThan := fun _ _ => false;
     key_encoding := fun _ => None |}.

(** A process that has applied nothing, on an empty view. *)
Definition empty_mem : Mem := {| seqs := fresh; view := ∅ |}.

Definition post_keyboard : value :=
  VObj [("op", VStr "listing_post"); ("title", VStr "Keyboard"); ("desc", VStr "");
        ("price", VNum 120); ("currency", VStr "TNK"); ("category", VStr "electronics");
        ("tags", VStr ""); ("seller", VStr "S"); ("ts", VNum 1000)].

Definition post_mouse : value :=
  VObj [("op", VStr "listing_post"); ("title", VStr "Mouse"); ("desc", VStr "");
        ("price", VNum 30); ("currency", VStr "TNK"); ("category", VStr "electronics");
        ("tags", VStr ""); ("seller", VStr "T"); ("ts", VNum 9000)].

Definition offer_on (listingId buyer : string) (amount : float) : value :=
  VObj [("op", VStr "offer_send"); ("listingId", VStr listingId); ("buyer", VStr buyer);
        ("amount", VNum amount); ("note", VStr ""); ("ts", VNum 2000)].

Definition offer_from (buyer : string) (amount : float) : value :=
  offer_on "LST-001" buyer amount.

(** [offer_accept] as [_offerAccept] writes it: [by] and [seller] are both
    the submitter. *)
Definition accept_on (listingId offerId who : string) : value :=
  VObj [("op", VStr "offer_accept"); ("listingId", VStr listingId);
        ("offerId", VStr offerId); ("by", VStr who); ("seller", VStr who);
        ("ts", VNum 3000)].

Definition accept_by (who offerId : string) : value :=
  accept_on "LST-001" offerId who.

Definition decline_by (who offerId : string) : value :=
  VObj [("op", VStr "offer_decline"); ("listingId", VStr "LST-001");
        ("offerId", VStr offerId); ("by", VStr who); ("ts", VNum 3000)].

(** [listing_update] as [_listingUpdate] writes it for
    [{ op: 'listing_update', id, price }]. *)
Definition update_price (who id : string) (price : float) : value :=
  VObj [("op", VStr "listing_update"); ("id", VStr id); ("price", VNum price);
        ("seller", VStr who); ("ts", VNum 4000)].

Definition remove_by (who id : string) : value :=
  VObj [("op", VStr "listing_remove"); ("id", VStr id); ("seller", VStr who);
        ("ts", VNum 4000)].

(** A [listing_remove] entry that carries no [seller]. *)
Definition remove_unsigned (id : string) : value :=
  VObj [("op", VStr "listing_remove"); ("id", VStr id); ("ts", VNum 4000)].

Definition delete_rule (who ruleId : string) : value :=
  VObj [("op", VStr "rule_delete"); ("ruleId", VStr ruleId); ("owner", VStr who);
        ("ts", VNum 5000)].

(** The offer [offer_from "B" 90] as [offer_send] stores it. *)
Definition stored_offer : value :=
  VObj [("id", VStr "OFR-001"); ("listingId", VStr "LST-001"); ("buyer", VStr "B");
        ("amount", VNum 90); ("note", VStr ""); ("status", VStr "pending");
        ("createdAt", VNum 2000);
        ("history", VArr [VObj [("amount", VNum 90); ("by", VStr "B");
                                ("at", VNum 2000)]])].

(** A [rule_set] entry of the owner ["a:b"]: its rule is stored under
    [rule:a:b:RULE-001]. *)
Definition shared_rule : value :=
  VObj [("op", VStr "rule_set"); ("ruleType", VStr "auto_buy");
        ("params", VObj [("max_price", VNum 50)]); ("owner", VStr "a:b");
        ("ts", VNum 500)].

(** A [listing_post] entry with nothing but its operation. *)
Definition bare_post : value := VObj [("op", VStr "listing_post")].

(** An [offer_send] whose [listingId] is the JSON object [{"toString": 1}]. *)
Definition odd_offer : value :=
  VObj [("op", VStr "offer_send"); ("listingId", VObj [("toString", VNum 1)])].

(** One listing, two offers on it, both accepted in turn. *)
Definition double_sale_log : list (option value) :=
  [Some post_keyboard; Some (offer_from "B" 90); Some (offer_from "C" 95);
   Some (accept_by "S" "OFR-001"); Some (accept_by "S" "OFR-002")].

(** One listing, one offer, accepted by the seller. *)
Definition sale_log : list (option value) :=
  [Some post_keyboard; Some (offer_from "B" 90); Some (accept_by "S" "OFR-001")].

(** A [rule_set] command naming two of the three parameters. *)
Definition two_parameter_command : value :=
  VObj [("op", VStr "rule_set"); ("listing_id", VStr "LST-001");
        ("auto_buy_below", VNum 50); ("auto_accept_above", VNum 100)].

(** A [rule_set] command naming none of them, and one naming the ratio. *)
Definition bare_rule_command : value :=
  VObj [("op", VStr "rule_set"); ("category", VStr "electronics")].

Definition ratio_command : value :=
  VObj [("op", VStr "rule_set"); ("listing_id", VStr "LST-001");
        ("auto_counter_ratio", VNum 0.9)].

(** The reply of [listing_get] for a stored listing of the given price. *)
Definition listing_found (price : float) : value :=
  Router._ok VNull
    (VObj [("id", VStr "LST-001"); ("title", VStr "Keyboard"); ("price", VNum price);
           ("seller", VStr "S"); ("status", VStr "active")]).

(** An [auto_counter] rule as [rule_set] stores it. *)
Definition counter_rule (listingId : string) (ratio : float) : value :=
  VObj [("id", VStr "RULE-001"); ("owner", VStr "S"); ("type", VStr "auto_counter");
        ("params", VObj [("listingId", VStr listingId); ("ratio", VNum ratio)]);
        ("createdAt", VNum 500)].

(** An [auto_accept] rule as [rule_set] stores it. *)
Definition accept_rule (listingId : string) (min_price : float) : value :=
  VObj [("id", VStr "RULE-002"); ("owner", VStr "S"); ("type", VStr "auto_accept");
        ("params", VObj [("listingId", VStr listingId); ("min_price", VNum min_price)]);
        ("createdAt", VNum 600)].

(** An [OFFER_SENT] notification. *)
Definition offer_sent (amount : float) : value :=
  VObj [("event", VStr "OFFER_SENT"); ("offerId", VStr "OFR-001");
        ("amount", VNum amount); ("note", VStr ""); ("buyer", VStr "B")].

(** ** Notions for the router and the agent *)

Module Notions.

Import Router Protocol Agent.

(** The operations that read the view. *)
Definition is_read (op : string) : bool :=
  existsb (String.eqb op)
    ["listing_list"; "listing_get"; "deal_list"; "deal_get"; "rule_list"].

(** The command [handle] works on, when it has one. *)
Definition command_of (raw : raw_command) : option value :=
  match raw with
  | Text parsed => parsed
  | Direct cmd => Some cmd
  end.

(** What a call of [handle] on the command [cmd] ends with. *)
Definition sends_one_or_nothing (cmd : option value) (res : Outbox * outcome value)
  : Prop :=
  match res with
  | (o, Return reply) =>
      (get reply "ok" = VBool false /\ o = nothing) \/
      (get reply "ok" = VBool true /\
       exists c op, cmd = Some c /\ get c "op" = VStr op /\
         if is_read op then o = nothing
         else exists e, appended o = [e] /\ get e "op" = VStr op)
  | (o, Raise _) => (List.length (appended o) <= 1)%nat
  end.

(** The identity fields the entry [e] has are [address] and its [ts] is
    [now], as JSON gives them. *)
Definition stamped (address : value) (now : float) (e : value) : Prop :=
  Forall (fun f => get e f = VUndef \/ get e f = JSON_stringify address)
    ["seller"; "buyer"; "by"; "owner"] /\
  get e "ts" = JSON_stringify (VNum now).

(** A string or [undefined]. *)
Definition string_or_absent (x : value) : bool :=
  match x with
  | VStr _ | VUndef => true
  | _ => false
  end.

(** The ids a command names are strings. *)
Definition string_ids (raw : raw_command) : bool :=
  match command_of raw with
  | None => true
  | Some cmd =>
      forallb (fun f => string_or_absent (get cmd f))
        ["id"; "listing_id"; "offer_id"; "rule_id"]
  end.

(** One call of [handle]: on the peer [caller], at the time [at_time], with
    the view as [on_view]. *)
Record Call : Type := {
  caller : string;
  at_time : float;
  on_view : View;
  command : raw_command
}.

(** The nodes a list of calls appends to the log, in order. *)
Definition log_of (rt : Runtime) (calls : list Call) : list (option value) :=
  flat_map (fun c =>
              map Some (appended (fst (handle rt (VStr (caller c)) (at_time c)
                                         (on_view c) (command c) nothing))))
    calls.

(** What the loop of [_listingList] keeps when no [max_price] is given. *)
Definition listing_matches (address category mine : value) (e : string * value) : bool :=
  String.prefix "LST-" e.1 &&
  strict_eq (get e.2 "status") (VStr "active") &&
  (negb (truthy category) || strict_eq (get e.2 "category") category) &&
  (negb (truthy mine) || strict_eq (get e.2 "seller") address).

(** [results.length >= limit] becomes true at the length [n] and not before. *)
Definition reached_at (rt : Runtime) (limit : value) (n : nat) : Prop :=
  forall k, (1 <= k <= n)%nat ->
    js_ge rt (VNum (float_of_Z (Z.of_nat k))) limit = Return (n <=? k)%nat.

(** [x] is an object, not an array or a primitive. *)
Definition is_object (x : value) : bool :=
  match x with
  | VObj _ => true
  | _ => false
  end.

(** The record [x] stored under [k] is a listing: its key is a listing id,
    and its own [id]. *)
Definition listing_record (k : string) (x : value) : Prop :=
  exists j, k = nextId "LST" j /\ get x "id" = VStr k.

(** Stored values are well formed, and a stored value whose [status] is
    ['active'] is a listing. *)
Definition active_inv (v : View) : Prop :=
  view_ok v /\
  forall k x, v !! k = Some x -> get x "status" = VStr "active" -> listing_record k x.

(** The elements [JSON_stringify] gives an array. *)
Fixpoint stringify_elems (l : list value) : list value :=
  match l with
  | [] => []
  | x :: l' =>
      match JSON_stringify x with
      | VUndef => VNull
      | y => y
      end :: stringify_elems l'
  end.

(** The commands [{ op: 'rule_list' }] and [{ op: 'rule_delete', rule_id }]. *)
Definition rule_list_command : value := VObj [("op", VStr "rule_list")].

Definition rule_delete_command (id : string) : value :=
  VObj [("op", VStr "rule_delete"); ("rule_id", VStr id)].

(** What was sent in [o], then what was sent in [o']. *)
Definition after (o o' : Outbox) : Outbox :=
  {| appended := appended o ++ appended o';
     broadcasts := broadcasts o ++ broadcasts o' |}.

(** [c] adds what it sends to what was sent, and does not look at it. *)
Definition framed {T} (c : P T) : Prop :=
  forall o, c o = (after o (c nothing).1, (c nothing).2).

(** From [p] to [p'] the protocol has sent nothing, and the channels joined
    are [deal-undefined]. *)
Definition sends_no_offer (p p' : Peer) : Prop :=
  sent p' = sent p /\
  exists k, joined p' = (joined p ++ replicate k "deal-undefined")%list.

(** An [auto_buy] rule with no category and a ceiling the price [price] is
    not above. *)
Definition buys_at (rt : Runtime) (price : value) (rule : value) : Prop :=
  get rule "type" = VStr "auto_buy" /\
  exists fs, get rule "params" = VObj fs /\
             truthy (own fs "category") = false /\
             js_gt rt price (own fs "max_price") = Return false.

(** An [offer_send] entry for the listing [id] at the price [x]. *)
Definition offer_entry (id : string) (x : float) (e : value) : Prop :=
  get e "op" = VStr "offer_send" /\ get e "listingId" = VStr id /\
  get e "amount" = JSON_stringify (VNum x).

(** Among the calls [_checkRateLimit(maxPerHour)] made at the times [times],
    starting from the timestamps [ts]: the number of those that are accepted
    at a time in the window from [w] to [w + W], [W] one hour, [w + W]
    excluded. *)
Fixpoint accepted_in (maxPerHour w : Z) (times ts : list Z) : nat :=
  match times with
  | [] => 0
  | now :: times' =>
      let '(ts', ok) := Market._checkRateLimit maxPerHour now ts in
      ((if ok && (w <=? now)%Z && (now <? w + Market.DEAL_RATE_WINDOW_MS)%Z
        then 1 else 0) + accepted_in maxPerHour w times' ts')%nat
  end.

(** From [p] to [p'] the protocol has sent nothing and no channel has been
    joined. *)
Definition quiet (p p' : Peer) : Prop :=
  sent p' = sent p /\ joined p' = joined p.



(** The keys in [v] that are listing ids were handed out by a counter that
    has reached [n]. *)
Definition listing_ids_below (n : N) (v : View) : Prop :=
  forall k x j, v !! k = Some x -> k = nextId "LST" j -> (j <= n)%N.

(** The key [k] holds a value whose [status] is not ['active']. *)
Definition inactive (k : string) (v : View) : Prop :=
  exists y, v !! k = Some y /\ get y "status" <> VStr "active".

(** The stored values are well formed and the listing ids in the view were
    handed out by the listing counter. *)
Definition settled (m : Mem) : Prop :=
  view_ok (view m) /\ listing_ids_below (listingSeq (seqs m)) (view m).

(** From [m] to [m']: what was not active is not active. *)
Definition kept (m m' : Mem) : Prop :=
  settled m' /\ forall k, inactive k (view m) -> inactive k (view m').

(** The listing counter never goes down. *)
Definition lmono (m m' : Mem) : Prop :=
  (listingSeq (seqs m) <= listingSeq (seqs m'))%N.

(** ** Samples for the router and the agent *)

(** Commands as a caller hands them to [handle]. *)
Definition post_command : value :=
  VObj [("op", VStr "listing_post"); ("title", VStr "Keyboard"); ("price", VNum 120)].

Definition offer_command : value :=
  VObj [("op", VStr "offer_send"); ("listing_id", VStr "LST-001"); ("amount", VNum 90)].

Definition accept_offer_command : value :=
  VObj [("op", VStr "offer_accept"); ("listing_id", VStr "LST-001");
        ("offer_id", VStr "OFR-001")].

(** An [offer_send] command whose [listing_id] is the object
    [{ toString: 1 }]. *)
Definition odd_offer_command : value :=
  VObj [("op", VStr "offer_send"); ("listing_id", VObj [("toString", VNum 1)]);
        ("amount", VNum 5)].

(** An [offer_send] command on a listing named like a deal. *)
Definition deal_like_offer_command : value :=
  VObj [("op", VStr "offer_send"); ("listing_id", VStr "DEAL-001"); ("amount", VNum 5)].

Definition list_command : value := VObj [("op", VStr "listing_list")].

Definition list_mine_command : value :=
  VObj [("op", VStr "listing_list"); ("mine", VBool true)].

Definition list_none_command : value :=
  VObj [("op", VStr "listing_list"); ("limit", VNum 0)].

Definition deal_list_command : value := VObj [("op", VStr "deal_list")].

(** The seller posts, the buyer offers, the seller accepts. *)
Definition sample_calls : list Call :=
  [ {| caller := "S"; at_time := 1000; on_view := ∅; command := Direct post_command |};
    {| caller := "B"; at_time := 2000; on_view := ∅; command := Direct offer_command |};
    {| caller := "S"; at_time := 3000; on_view := ∅; command := Direct accept_offer_command |} ].

(** The view after the two listings have been posted. *)
Definition two_listings : View :=
  view (fst (apply sample_runtime [Some post_keyboard; Some post_mouse] empty_mem)).

(** The listing [post_keyboard] as [listing_post] stores it. *)
Definition stored_keyboard : value :=
  VObj [("id", VStr "LST-001"); ("title", VStr "Keyboard"); ("desc", VStr "");
        ("price", VNum 120); ("currency", VStr "TNK"); ("category", VStr "electronics");
        ("tags", VStr ""); ("seller", VStr "S"); ("createdAt", VNum 1000);
        ("status", VStr "active")].

(** The entry [_ruleSet] appends for [ratio_command], on the peer [S] at the
    time 500. *)
Definition ratio_entry : value :=
  VObj [("op", VStr "rule_set"); ("ruleType", VStr "auto_counter");
        ("params", VObj [("listingId", VStr "LST-001"); ("ratio", VNum 0.9)]);
        ("owner", VStr "S"); ("ts", VNum 500)].

(** [rule_set] entries: the seller accepts offers of 50 and more on its
    listing; the buyer buys what costs no more than the ceiling. *)
Definition accept_rule_entry : value :=
  VObj [("op", VStr "rule_set"); ("ruleType", VStr "auto_accept");
        ("params", VObj [("listingId", VStr "LST-001"); ("min_price", VNum 50)]);
        ("owner", VStr "S"); ("ts", VNum 500)].

Definition buy_rule_entry (max_price : float) : value :=
  VObj [("op", VStr "rule_set"); ("ruleType", VStr "auto_buy");
        ("params", VObj [("max_price", VNum max_price)]);
        ("owner", VStr "B"); ("ts", VNum 500)].

(** An [auto_buy] rule as [rule_set] stores it. *)
Definition buy_rule (max_price : float) : value :=
  VObj [("id", VStr "RULE-001"); ("owner", VStr "B"); ("type", VStr "auto_buy");
        ("params", VObj [("max_price", VNum max_price)]); ("createdAt", VNum 500)].

(** The messages [_offerSend] and [_listingPost] broadcast for
    [offer_command] of the peer [B] and [post_command] of the peer [S]. *)
Definition offer_notice : value :=
  VObj [("event", VStr "OFFER_SENT"); ("amount", VNum 90); ("note", VStr "");
        ("buyer", VStr "B")].

Definition listing_notice : value :=
  VObj [("event", VStr "LISTING_POST"); ("title", VStr "Keyboard"); ("price", VNum 120);
        ("currency", VStr "TNK"); ("category", VStr "general"); ("seller", VStr "S")].

(** A listing as the agent knows it, with an id. *)
Definition known_keyboard : value :=
  VObj [("id", VStr "LST-001"); ("title", VStr "Keyboard"); ("price", VNum 120);
        ("seller", VStr "S")].

(** An agent that has done nothing yet, a clock that advances by a second
    at each step, and the views of a seller and of a buyer that hold their
    rule.  The agent converts numbers to text for its console output only,
    which is not modelled. *)
Definition idle : Peer :=
  {| knownListings := []; dealTimestamps := []; joined := []; sent := nothing;
     steps := 0 |}.

Definition clock (n : nat) : Z := 1000 * Z.of_nat n.

Definition seller_view : View :=
  view (fst (apply sample_runtime [Some post_keyboard; Some accept_rule_entry] empty_mem)).

Definition buyer_view : View :=
  view (fst (apply sample_runtime [Some (buy_rule_entry 500)] empty_mem)).

(** An agent whose ten deals were all stamped at the start of the clock. *)
Definition busy : Peer :=
  {| knownListings := []; dealTimestamps := [0; 0; 0; 0; 0; 0; 0; 0; 0; 0]%Z;
     joined := []; sent := nothing; steps := 0 |}.

(** A [listing_remove] command, and the message [_listingRemove] broadcasts
    for it. *)
Definition remove_command : value :=
  VObj [("op", VStr "listing_remove"); ("id", VStr "LST-001")].

Definition removal_notice : value :=
  VObj [("event", VStr "LISTING_REMOVE"); ("id", VStr "LST-001")].

(** A [PUT] entry of the stand-in. *)
Definition put_entry : value :=
  VObj [("op", VStr "PUT"); ("key", VStr "k"); ("value", VNum 1)].

(** After the sale: another listing is posted and the seller updates the
    price of the sold one. *)
Definition after_sale_log : list (option value) :=
  [Some post_mouse; Some (update_price "S" "LST-001" 100)].

(** The listing [post_keyboard] after [sale_log]. *)
Definition sold_keyboard : value :=
  VObj [("id", VStr "LST-001"); ("title", VStr "Keyboard"); ("desc", VStr "");
        ("price", VNum 120); ("currency", VStr "TNK"); ("category", VStr "electronics");
        ("tags", VStr ""); ("seller", VStr "S"); ("createdAt", VNum 1000);
        ("status", VStr "sold"); ("soldAt", VNum 3000); ("dealId", VStr "DEAL-001")].

End Notions.

(** ** Basic facts about values *)

Lemma JSON_stringify_obj fs : JSON_stringify (VObj fs) = VObj (stringify_props fs).
Proof. reflexivity. Qed.

Lemma JSON_stringify_undef v : JSON_stringify v = VUndef -> v = VUndef.
Proof.
  destruct v; simpl; try discriminate; auto.
  destruct (is_nan x || is_infinity x)%bool; [discriminate|].
  destruct (PrimFloat.eqb x 0); discriminate.
Qed.

Lemma JSON_stringify_str v s : JSON_stringify v = VStr s -> v = VStr s.
Proof.
  destruct v; simpl; try discriminate; auto.
  destruct (is_nan x || is_infinity x)%bool; [discriminate|].
  destruct (PrimFloat.eqb x 0); discriminate.
Qed.

Lemma JSON_stringify_arr xs : exists ys, JSON_stringify (VArr xs) = VArr ys.
Proof. simpl. eauto. Qed.

Lemma own_not_elem fs k : k ∉ fs.*1 -> own fs k = VUndef.
Proof.
  induction fs as [|[k' x] fs IH]; simpl; [done|].
  intros Hk. apply not_elem_of_cons in Hk as [Hne Hk].
  destruct (String.eqb_spec k' k); [congruence|auto].
Qed.

Lemma stringify_props_keys fs k : k ∈ (stringify_props fs).*1 -> k ∈ fs.*1.
Proof.
  induction fs as [|[k' x] fs IH]; simpl; [done|].
  destruct (JSON_stringify x); simpl; rewrite ?elem_of_cons; intuition.
Qed.

Lemma stringify_props_NoDup fs : NoDup fs.*1 -> NoDup (stringify_props fs).*1.
Proof.
  induction fs as [|[k' x] fs IH]; simpl; [done|].
  intros [Hk Hnd]%NoDup_cons.
  destruct (JSON_stringify x); simpl; auto;
    apply NoDup_cons; split; auto; intros ?%stringify_props_keys; done.
Qed.

Lemma own_stringify_props fs k :
  NoDup fs.*1 -> own (stringify_props fs) k = JSON_stringify (own fs k).
Proof.
  induction fs as [|[k' x] fs IH]; simpl; [done|].
  intros [Hk Hnd]%NoDup_cons.
  destruct (JSON_stringify x) eqn:Hx; simpl;
    destruct (String.eqb_spec k' k) as [->|Hne]; auto.
  rewrite IH by done. rewrite (own_not_elem _ _ Hk). done.
Qed.

Lemma own_set_own_eq fs k x : own (set_own fs k x) k = x.
Proof.
  induction fs as [|[k' y] fs IH]; simpl.
  - by rewrite String.eqb_refl.
  - destruct (String.eqb_spec k' k) as [->|Hne]; simpl.
    + by rewrite String.eqb_refl.
    + destruct (String.eqb_spec k' k); [done|auto].
Qed.

Lemma own_set_own_ne fs k k' x : k <> k' -> own (set_own fs k x) k' = own fs k'.
Proof.
  intros Hne. induction fs as [|[k0 y] fs IH]; simpl.
  - destruct (String.eqb_spec k k'); done.
  - destruct (String.eqb_spec k0 k) as [->|Hne0]; simpl.
    + destruct (String.eqb_spec k k'); done.
    + by rewrite IH.
Qed.

Lemma set_own_keys fs k x k' : k' ∈ (set_own fs k x).*1 -> k' = k \/ k' ∈ fs.*1.
Proof.
  induction fs as [|[k0 y] fs IH]; simpl.
  - rewrite list_elem_of_singleton. auto.
  - destruct (String.eqb_spec k0 k) as [->|Hne0]; simpl; rewrite !elem_of_cons; intuition.
Qed.

Lemma set_own_NoDup fs k x : NoDup fs.*1 -> NoDup (set_own fs k x).*1.
Proof.
  induction fs as [|[k0 y] fs IH]; simpl.
  - intros _. apply NoDup_singleton.
  - intros [Hk Hnd]%NoDup_cons.
    destruct (String.eqb_spec k0 k) as [->|Hne0]; simpl.
    + apply NoDup_cons; done.
    + apply NoDup_cons; split; auto.
      intros [->|?]%set_own_keys; done.
Qed.

Lemma own_stringify_props_defined fs k :
  own fs k <> VUndef -> own (stringify_props fs) k = JSON_stringify (own fs k).
Proof.
  induction fs as [|[k' x] fs IH]; simpl; [done|].
  destruct (String.eqb_spec k' k) as [->|Hne].
  - intros Hx. destruct (JSON_stringify x) eqn:E; simpl; rewrite ?String.eqb_refl; try done.
    by apply JSON_stringify_undef in E.
  - intros Hx. destruct (JSON_stringify x) eqn:E; simpl; auto.
    all: destruct (String.eqb_spec k' k); [done|auto].
Qed.

(** ** Keys *)

Lemma has_colon_app a b : has_colon (a ++ b) = (has_colon a || has_colon b)%bool.
Proof. induction a as [|c a IH]; simpl; [done|]. rewrite IH. by rewrite orb_assoc. Qed.

Lemma has_colon_repeat n : has_colon (repeat_char n "0") = false.
Proof. induction n; simpl; auto. Qed.

Lemma has_colon_uint d : has_colon (NilEmpty.string_of_uint d) = false.
Proof. induction d; simpl; auto. Qed.

Lemma has_colon_nextId p n : has_colon p = false -> has_colon (nextId p n) = false.
Proof.
  intros Hp. unfold nextId, padStart, String_of_N.
  rewrite !has_colon_app, Hp, has_colon_repeat, has_colon_uint. done.
Qed.

Lemma colon_key_has_colon rt a b k : colon_key rt a b = Return k -> has_colon k = true.
Proof.
  unfold colon_key. destruct (ToString rt a); [|done]. destruct (ToString rt b); [|done].
  intros [= <-]. rewrite !has_colon_app. simpl. by rewrite orb_true_r.
Qed.

(** ** The invariant of the view *)

Lemma stored_ok_stringify fs :
  NoDup fs.*1 ->
  (own fs "status" = VStr "pending" -> exists xs, own fs "history" = VArr xs) ->
  stored_ok (JSON_stringify (VObj fs)).
Proof.
  intros Hnd Hst. exists (stringify_props fs). split; [done|].
  split; [by apply stringify_props_NoDup|].
  rewrite !own_stringify_props by done.
  intros Hs%JSON_stringify_str. destruct (Hst Hs) as [xs ->].
  apply JSON_stringify_arr.
Qed.

Lemma view_ok_empty : view_ok ∅.
Proof. intros k x Hk. by rewrite lookup_empty in Hk. Qed.

Lemma view_ok_insert (v : View) k x :
  view_ok v -> stored_ok x -> view_ok (<[k := x]> v).
Proof.
  intros Hv Hx k' x'. rewrite lookup_insert.
  case_decide; [intros [= <-]; done | apply Hv].
Qed.

Lemma strict_eq_str v s : strict_eq v (VStr s) = true -> v = VStr s.
Proof.
  destruct v; simpl; try discriminate.
  intros ?%String.eqb_eq. by subst.
Qed.

Lemma strict_eq_undef v : strict_eq v VUndef = true <-> v = VUndef.
Proof. destruct v; simpl; split; congruence. Qed.

Lemma is_string_inv v : is_string v = true -> exists s, v = VStr s.
Proof. destruct v; simpl; try discriminate; eauto. Qed.

Ltac keys_nodup := apply (bool_decide_unpack _); vm_compute; exact I.
Ltac own_set' :=
  repeat first [ rewrite own_set_own_eq | rewrite own_set_own_ne by discriminate ].
Ltac stored :=
  apply stored_ok_stringify;
  [ repeat apply set_own_NoDup; first [done | keys_nodup]
  | own_set'; try (simpl; discriminate); eauto ].

Section Invariant.
Context (rt : Runtime).

Lemma view_key_string b v :
  (b = true -> is_string v = true) ->
  match view_key rt v with Return _ => True | Raise _ => b = false end.
Proof.
  intros H. destruct (view_key rt v) eqn:Hk; [done|].
  destruct b; [|done]. destruct (is_string_inv v (H eq_refl)) as [s ->]. done.
Qed.

Lemma ToString_string b v :
  (b = true -> is_string v = true) ->
  match ToString rt v with Return _ => True | Raise _ => b = false end.
Proof.
  intros H. destruct (ToString rt v) eqn:Hk; [done|].
  destruct b; [|done]. destruct (is_string_inv v (H eq_refl)) as [s ->]. done.
Qed.

Lemma colon_key_string b u v :
  (b = true -> is_string u = true) -> (b = true -> is_string v = true) ->
  match colon_key rt u v with Return _ => True | Raise _ => b = false end.
Proof.
  intros Hu Hv. unfold colon_key.
  pose proof (ToString_string b u Hu). pose proof (ToString_string b v Hv).
  destruct (ToString rt u); [|done]. destruct (ToString rt v); done.
Qed.

Lemma listing_post_ok b entry : triple b (listing_post rt entry) (fun _ => True).
Proof.
  intros m Hm. unfold listing_post, bind, next_listing, view_put.
  cbn [view_key fst snd view seqs].
  split; [|done]. apply view_ok_insert; [done|]. stored.
Qed.

Lemma listing_update_ok b entry :
  (b = true -> is_string (get entry "id") = true) ->
  triple b (listing_update rt entry) (fun _ => True).
Proof.
  intros Hid m Hm. unfold listing_update, bind, view_get, view_put, lift, ret.
  pose proof (view_key_string b _ Hid) as Hk.
  destruct (view_key rt (get entry "id")) as [s|e]; [|done].
  destruct (view m !! s) as [listing|] eqn:Hl; [|done].
  destruct (Hm _ _ Hl) as (fs & -> & Hnd & Hst).
  cbn [prop get fst snd].
  destruct (negb (strict_eq (own fs "seller") (get entry "seller"))); [done|].
  destruct (negb (strict_eq (get entry "price") VUndef));
    destruct (negb (strict_eq (get entry "desc") VUndef));
    cbn [set_prop fst snd view]; (split; [|done]);
    (apply view_ok_insert; [done|]); stored.
Qed.


Lemma listing_remove_ok b entry :
  (b = true -> is_string (get entry "id") = true) ->
  triple b (listing_remove rt entry) (fun _ => True).
Proof.
  intros Hid m Hm. unfold listing_remove, bind, view_get, view_put, lift, ret.
  pose proof (view_key_string b _ Hid) as Hk.
  destruct (view_key rt (get entry "id")) as [s|e]; [|done].
  destruct (view m !! s) as [listing|] eqn:Hl; [|done].
  destruct (Hm _ _ Hl) as (fs & -> & Hnd & Hst).
  cbn [prop get fst snd].
  destruct (negb (strict_eq (own fs "seller") (get entry "seller"))); [done|].
  cbn [set_prop fst snd view]. split; [|done].
  apply view_ok_insert; [done|]. stored.
Qed.

Lemma offer_send_ok b entry :
  (b = true -> is_string (get entry "listingId") = true) ->
  triple b (offer_send rt entry) (fun _ => True).
Proof.
  intros Hid m Hm. unfold offer_send, bind, next_offer, view_put, lift.
  pose proof (colon_key_string b _ (VStr (nextId "OFR" (incr (offerSeq (seqs m))))) Hid
                (fun _ => eq_refl)) as Hk.
  destruct (colon_key rt _ _) as [key|e]; [|done].
  cbn [view_key fst snd view seqs]. split; [|done].
  apply view_ok_insert; [done|]. stored.
Qed.

Lemma history_push_ok fs x :
  NoDup fs.*1 -> own fs "status" = VStr "pending" ->
  (exists xs, own fs "history" = VArr xs) ->
  exists gs, history_push (VObj fs) x = Return (VObj gs) /\ NoDup gs.*1 /\
    own gs "status" = VStr "pending" /\ exists xs, own gs "history" = VArr xs.
Proof.
  intros Hnd Hst [xs Hh]. unfold history_push. cbn [prop get]. rewrite Hh.
  cbn [set_prop]. eexists. split; [done|]. split; [by apply set_own_NoDup|].
  own_set'. eauto.
Qed.

Lemma offer_counter_ok b entry :
  (b = true -> is_string (get entry "listingId") = true) ->
  (b = true -> is_string (get entry "offerId") = true) ->
  triple b (offer_counter rt entry) (fun _ => True).
Proof.
  intros Hl Ho m Hm. unfold offer_counter, bind, view_get, view_put, lift, ret.
  pose proof (colon_key_string b _ _ Hl Ho) as Hk.
  destruct (colon_key rt _ _) as [key|e]; [|done].
  cbn [view_key fst snd].
  destruct (view m !! key) as [offer|] eqn:Hoff; [|done].
  destruct (Hm _ _ Hoff) as (fs & -> & Hnd & Hst).
  cbn [prop get].
  destruct (strict_eq (own fs "status") (VStr "pending")) eqn:Hp; [|done].
  apply strict_eq_str in Hp. cbn [negb set_prop].
  destruct (history_push_ok
              (set_own (set_own fs "amount" (get entry "amount")) "status" (VStr "pending"))
              (VObj [("amount", get entry "amount"); ("by", get entry "by");
                     ("at", get entry "ts")]))
    as (gs & -> & Hnd' & Hst' & Hh').
  { by repeat apply set_own_NoDup. }
  { by own_set'. }
  { own_set'. auto. }
  cbn [fst snd view]. split; [|done].
  apply view_ok_insert; [done|]. stored.
Qed.

Lemma offer_decline_ok b entry :
  (b = true -> is_string (get entry "listingId") = true) ->
  (b = true -> is_string (get entry "offerId") = true) ->
  triple b (offer_decline rt entry) (fun _ => True).
Proof.
  intros Hl Ho m Hm. unfold offer_decline, bind, view_get, view_put, lift, ret.
  pose proof (colon_key_string b _ _ Hl Ho) as Hk.
  destruct (colon_key rt _ _) as [key|e]; [|done].
  cbn [view_key fst snd].
  destruct (view m !! key) as [offer|] eqn:Hoff; [|done].
  destruct (Hm _ _ Hoff) as (fs & -> & Hnd & Hst).
  cbn [prop get].
  destruct (negb (strict_eq (own fs "status") (VStr "pending"))); [done|].
  cbn [set_prop fst snd view]. split; [|done].
  apply view_ok_insert; [done|]. stored.
Qed.

Lemma rule_set_ok b entry :
  (b = true -> is_string (get entry "owner") = true) ->
  triple b (rule_set rt entry) (fun _ => True).
Proof.
  intros Hid m Hm. unfold rule_set, rule_key, bind, next_rule, view_put, lift.
  pose proof (colon_key_string b _ (VStr (nextId "RULE" (incr (ruleSeq (seqs m))))) Hid
                (fun _ => eq_refl)) as Hk.
  destruct (colon_key rt _ _) as [key|e]; [|done].
  cbn [view_key fst snd view seqs]. split; [|done].
  apply view_ok_insert; [done|]. stored.
Qed.

Lemma rule_delete_ok b entry :
  (b = true -> is_string (get entry "owner") = true) ->
  (b = true -> is_string (get entry "ruleId") = true) ->
  triple b (rule_delete rt entry) (fun _ => True).
Proof.
  intros Hl Ho m Hm. unfold rule_delete, rule_key, bind, view_get, view_put, lift, ret.
  pose proof (colon_key_string b _ _ Hl Ho) as Hk.
  destruct (colon_key rt _ _) as [key|e]; [|done].
  cbn [view_key fst snd].
  destruct (view m !! _) as [rule|] eqn:Hoff; [|done].
  destruct (Hm _ _ Hoff) as (fs & -> & Hnd & Hst).
  cbn [prop get].
  destruct (negb (strict_eq (own fs "owner") (get entry "owner"))); [done|].
  cbn [set_prop fst snd view]. split; [|done].
  apply view_ok_insert; [done|]. stored.
Qed.


Lemma offer_accept_ok b entry :
  (b = true -> is_string (get entry "listingId") = true) ->
  (b = true -> is_string (get entry "offerId") = true) ->
  triple b (offer_accept rt entry) (fun _ => True).
Proof.
  intros Hl Ho m Hm. unfold offer_accept, bind, view_get, view_put, next_deal, lift, ret.
  pose proof (colon_key_string b _ _ Hl Ho) as Hk.
  destruct (colon_key rt _ _) as [key|e]; [|done].
  cbn [view_key fst snd].
  destruct (view m !! key) as [offer|] eqn:Hoff; [|done].
  destruct (Hm _ _ Hoff) as (fs & -> & Hnd & Hst).
  cbn [prop get].
  destruct (negb (strict_eq (own fs "status") (VStr "pending"))); [done|].
  cbn [set_prop fst snd view seqs].
  match goal with |- context [<[key := ?x]> (view m)] =>
    assert (view_ok (<[key := x]> (view m))) as Hv1
      by (apply view_ok_insert; [done|]; stored);
    set (v1 := <[key := x]> (view m)) in *
  end.
  pose proof (view_key_string b _ Hl) as Hk2.
  destruct (view_key rt (get entry "listingId")) as [lk|e]; [|done].
  destruct (v1 !! lk) as [listing|] eqn:Hlst.
  - destruct (Hv1 _ _ Hlst) as (ls & -> & Hnd' & Hst').
    cbn [prop get set_prop fst snd view seqs]. split; [|done].
    apply view_ok_insert; [apply view_ok_insert; [done|]|]; stored.
  - cbn [prop get set_prop fst snd view seqs]. split; [|done].
    apply view_ok_insert; [done|]. stored.
Qed.

Lemma dispatch_ok b op entry :
  (b = true -> forallb (fun f => is_string (get entry f)) (key_fields op) = true) ->
  triple b (dispatch rt op entry) (fun _ => True).
Proof.
  unfold dispatch. intros H.
  repeat match goal with
  | |- triple _ (if String.eqb op ?s then _ else _) _ =>
      destruct (String.eqb_spec op s) as [->|_];
      [ first [ apply listing_post_ok | apply listing_update_ok | apply listing_remove_ok
              | apply offer_send_ok | apply offer_counter_ok | apply offer_accept_ok
              | apply offer_decline_ok | apply rule_set_ok | apply rule_delete_ok ];
        intros Hb; specialize (H Hb); cbn in H;
        repeat (apply andb_prop in H as [? H]); done | ]
  end.
  intros m Hm. done.
Qed.

Lemma apply_node_ok b node :
  (b = true -> well_keyed node = true) ->
  triple b (apply_node rt node) (fun _ => True).
Proof.
  intros H. destruct node as [entry|]; [|by intros m Hm].
  unfold apply_node, bind, lift. intros m Hm.
  destruct entry; cbn [prop get fst snd];
    try (split; [done|]; destruct b; [discriminate (H eq_refl)|done]);
    try done.
  destruct (own fields "op") eqn:Hop; try done.
  apply dispatch_ok; [|done]. intros Hb. specialize (H Hb).
  unfold well_keyed in H. cbn [get] in H. by rewrite Hop in H.
Qed.

Lemma apply_ok b nodes :
  (b = true -> forallb well_keyed nodes = true) ->
  triple b (apply rt nodes) (fun _ => True).
Proof.
  induction nodes as [|node nodes IH]; intros H m Hm; [done|].
  cbn [apply]. unfold bind.
  destruct (apply_node_ok b node) with (m := m) as [Hv Hr]; [|done|].
  { intros Hb. specialize (H Hb). simpl in H. by apply andb_prop in H as [? _]. }
  destruct (apply_node rt node m) as [m1 [[]|e]]; [|done].
  apply IH; [|done].
  intros Hb. specialize (H Hb). simpl in H. by apply andb_prop in H as [_ ?].
Qed.
End Invariant.

(** ** Symbolic execution of [apply_node] *)

Lemma apply_node_dispatch rt entry op m :
  get entry "op" = VStr op -> apply_node rt (Some entry) m = dispatch rt op entry m.
Proof.
  intros Hop. unfold apply_node, bind, lift.
  destruct entry; try discriminate. cbn [prop fst snd]. by rewrite Hop.
Qed.

Lemma apply_node_no_case rt node m :
  no_case node = true -> apply_node rt node m = (m, Return tt).
Proof.
  destruct node as [entry|]; [|done].
  unfold apply_node, bind, lift. intros H.
  destruct entry; try discriminate; cbn [prop get fst snd]; try done.
  cbn [no_case get] in H.
  destruct (own fields "op") as [| | | |op| |]; try done.
  unfold known_op in H. cbn [existsb] in H.
  apply negb_true_iff in H. repeat (apply orb_false_elim in H as [? H]).
  unfold dispatch.
  repeat match goal with E : String.eqb op _ = false |- _ => rewrite E; clear E end.
  done.
Qed.

(** ** The claims *)

(** C1 (the code breaks it).  The ids come from the module counters, which
    are process memory: they outlive a view and are lost with the process.
    Applying the one-entry log [post_keyboard] from an empty view twice in
    one process stores the listing under [LST-001] the first time and under
    [LST-002] the second, so the two final views differ.  And a process
    that starts on the committed view of the first run gives the next
    listing the id [LST-001] again and overwrites the committed one. *)
Theorem replay_in_one_process_assigns_new_ids :
  let log := [Some post_keyboard] in
  let first := apply sample_runtime log empty_mem in
  let second := apply sample_runtime log {| seqs := seqs (fst first); view := ∅ |} in
  let restarted :=
    apply sample_runtime [Some post_mouse] {| seqs := fresh; view := view (fst first) |} in
  snd first = Return tt /\ snd second = Return tt /\
  stored_field (view (fst first)) "LST-001" "title" = VStr "Keyboard" /\
  view (fst second) !! "LST-001" = None /\
  stored_field (view (fst second)) "LST-002" "title" = VStr "Keyboard" /\
  view (fst first) <> view (fst second) /\
  snd restarted = Return tt /\
  stored_field (view (fst restarted)) "LST-001" "title" = VStr "Mouse".
Proof.
  cbv zeta. repeat split; try (vm_compute; reflexivity).
  intros E. apply (f_equal (fun v : View => v !! "LST-001")) in E.
  vm_compute in E. discriminate.
Qed.

(** C2 (amended).  From every view that satisfies [view_ok] (the empty view
    does, and [apply] keeps it, so every view [apply] builds does), on every
    list of nodes none of which decodes to [null] and whose entries have
    strings in the key fields of their operation, [apply] returns without
    raising.  A node that fails to decode, or decodes to a value other than
    [null] whose [op] is missing, not a string or not a known operation, is
    skipped with view and counters unchanged, and the loop goes on with the
    next node.  An entry with a known operation is applied with whatever
    other fields it has. *)
Theorem apply_returns_on_well_keyed_logs rt :
  (forall nodes m, view_ok (view m) -> forallb well_keyed nodes = true ->
     exists m', apply rt nodes m = (m', Return tt) /\ view_ok (view m')) /\
  (forall node nodes m, no_case node = true ->
     apply rt (node :: nodes) m = apply rt nodes m) /\
  (forall nodes m, view_ok (view m) -> view_ok (view (fst (apply rt nodes m)))).
Proof.
  split; [|split].
  - intros nodes m Hm Hk.
    destruct (apply_ok rt true nodes (fun _ => Hk) m Hm) as [Hv Hr].
    destruct (apply rt nodes m) as [m' [[]|e]]; [eauto|done].
  - intros node nodes m H. cbn [apply]. unfold bind.
    by rewrite apply_node_no_case.
  - intros nodes m Hm. by destruct (apply_ok rt false nodes (fun H => False_ind _ (Bool.diff_false_true H)) m Hm).
Qed.

Lemma apply_returns_on_well_keyed_logs_witness :
  let nodes := [None; Some (VStr "hello"); Some bare_post; Some post_keyboard;
                Some (offer_from "B" 90); Some (accept_by "S" "OFR-001")] in
  (view_ok (view empty_mem) /\ forallb well_keyed nodes = true) /\
  (exists m', apply sample_runtime nodes empty_mem = (m', Return tt) /\ view_ok (view m')) /\
  (no_case None = true /\
   apply sample_runtime (None :: [Some post_keyboard]) empty_mem =
   apply sample_runtime [Some post_keyboard] empty_mem).
Proof.
  cbv zeta. split; [split; [exact view_ok_empty | reflexivity]|]. split.
  - apply (proj1 (apply_returns_on_well_keyed_logs sample_runtime));
      [exact view_ok_empty | reflexivity].
  - split; [reflexivity|].
    apply (proj1 (proj2 (apply_returns_on_well_keyed_logs sample_runtime))). reflexivity.
Defined.

(** C2, as stated, fails: an entry with a known operation and no other field
    is applied, not skipped; a node that decodes to [null] raises and the
    node after it is never applied; an operation raises on a key field that
    does not convert to a string, after it has advanced its counter; and on a
    view that holds [null] under a key, an update of that key raises. *)
Lemma apply_applies_malformed_and_raises_on_null :
  (snd (apply sample_runtime [Some bare_post] empty_mem) = Return tt /\
   stored_field (view (fst (apply sample_runtime [Some bare_post] empty_mem)))
     "LST-001" "status" = VStr "active") /\
  apply sample_runtime [Some VNull; Some post_keyboard] empty_mem
    = (empty_mem, Raise TypeError) /\
  apply sample_runtime [Some odd_offer; Some post_keyboard] empty_mem
    = ({| seqs := {| listingSeq := 0; offerSeq := 1; dealSeq := 0; ruleSeq := 0 |};
          view := ∅ |}, Raise TypeError) /\
  snd (apply sample_runtime [Some (update_price "S" "LST-001" 1)]
         {| seqs := fresh; view := {["LST-001" := VNull]} |}) = Raise TypeError.
Proof. repeat split; vm_compute; reflexivity. Qed.

(** C3 (the code breaks it).  Every operation that takes a listing id looks
    it up in the one keyspace, where offers live too.  After the sale of
    [sale_log], an offer sent on the "listing" [LST-001:OFR-001] and then
    accepted marks that stored value sold: the accepted offer [OFR-001] ends
    with status ['sold'].  And a [listing_remove] entry without [seller]
    passes the owner check on an offer, which has no [seller] either: the
    accepted offer ends with status ['removed']. *)
Theorem terminal_offer_is_rewritten_through_listing_id :
  let sold := fst (apply sample_runtime sale_log empty_mem) in
  let resold :=
    apply sample_runtime
      [Some (offer_on "LST-001:OFR-001" "C" 5);
       Some (accept_on "LST-001:OFR-001" "OFR-002" "C")] sold in
  let removed :=
    apply_node sample_runtime (Some (remove_unsigned "LST-001:OFR-001")) sold in
  stored_field (view sold) "LST-001:OFR-001" "status" = VStr "accepted" /\
  snd resold = Return tt /\
  stored_field (view (fst resold)) "LST-001:OFR-001" "status" = VStr "sold" /\
  stored_field (view (fst resold)) "LST-001:OFR-001" "dealId" = VStr "DEAL-002" /\
  snd removed = Return tt /\
  stored_field (view (fst removed)) "LST-001:OFR-001" "status" = VStr "removed".
Proof. cbv zeta. repeat split; vm_compute; reflexivity. Qed.

(** C4 (the code breaks it).  [listing_update] looks [entry.id] up in the one
    keyspace; a deal records its seller, so the seller's update of the id
    [DEAL-001] passes the owner check and rewrites the deal record, which
    gains a [price] and an [updatedAt]. *)
Theorem listing_update_rewrites_deal :
  let sold := fst (apply sample_runtime sale_log empty_mem) in
  let after :=
    fst (apply_node sample_runtime (Some (update_price "S" "DEAL-001" 1)) sold) in
  stored_field (view sold) "DEAL-001" "offerId" = VStr "OFR-001" /\
  stored_field (view sold) "DEAL-001" "finalPrice" = VNum 90 /\
  stored_field (view sold) "DEAL-001" "price" = VUndef /\
  stored_field (view after) "DEAL-001" "price" = VNum 1 /\
  stored_field (view after) "DEAL-001" "updatedAt" = VNum 4000 /\
  view sold !! "DEAL-001" <> view after !! "DEAL-001".
Proof.
  cbv zeta. repeat split; try (vm_compute; reflexivity).
  vm_compute. discriminate.
Qed.

(** C5.  The log [double_sale_log] posts one listing, sends two offers on it,
    accepts the first and then the second: after the first acceptance the
    listing is sold and the second offer still pending, and after the second
    the view holds two different deals, [DEAL-001] and [DEAL-002], both for
    the listing [LST-001].  [offer_accept] never reads the listing's
    status. *)
Theorem double_sale_two_deals :
  let once := fst (apply sample_runtime (take 4 double_sale_log) empty_mem) in
  let twice := apply sample_runtime double_sale_log empty_mem in
  stored_field (view once) "LST-001" "status" = VStr "sold" /\
  stored_field (view once) "LST-001:OFR-002" "status" = VStr "pending" /\
  snd twice = Return tt /\
  stored_field (view (fst twice)) "LST-001:OFR-002" "status" = VStr "accepted" /\
  stored_field (view (fst twice)) "DEAL-001" "listingId" = VStr "LST-001" /\
  stored_field (view (fst twice)) "DEAL-002" "listingId" = VStr "LST-001" /\
  stored_field (view (fst twice)) "DEAL-001" "offerId" = VStr "OFR-001" /\
  stored_field (view (fst twice)) "DEAL-002" "offerId" = VStr "OFR-002" /\
  view (fst twice) !! "DEAL-001" <> view (fst twice) !! "DEAL-002".
Proof.
  cbv zeta. repeat split; try (vm_compute; reflexivity).
  vm_compute. discriminate.
Qed.

(** C6 (amended).  [listing_update] and [listing_remove] change nothing when
    the stored value's [seller] is not strictly equal to the entry's
    [seller], and [rule_delete] changes nothing when the stored rule's
    [owner] is not strictly equal to the entry's [owner].  ([offer_counter],
    [offer_accept] and [offer_decline] compare no identity: they only record
    [entry.by].) *)
Theorem non_owner_mutation_is_noop rt m entry :
  (forall op k listing seller,
     op = "listing_update" \/ op = "listing_remove" ->
     get entry "op" = VStr op ->
     view_key rt (get entry "id") = Return k ->
     view m !! k = Some listing ->
     prop listing "seller" = Return seller ->
     strict_eq seller (get entry "seller") = false ->
     apply_node rt (Some entry) m = (m, Return tt)) /\
  (forall k rule owner,
     get entry "op" = VStr "rule_delete" ->
     rule_key rt (get entry "owner") (get entry "ruleId") = Return k ->
     view m !! k = Some rule ->
     prop rule "owner" = Return owner ->
     strict_eq owner (get entry "owner") = false ->
     apply_node rt (Some entry) m = (m, Return tt)).
Proof.
  split.
  - intros op k listing seller Hop Hget Hk Hl Hs Hne.
    rewrite (apply_node_dispatch _ _ _ _ Hget).
    destruct Hop as [-> | ->]; cbn [dispatch String.eqb Ascii.eqb Bool.eqb];
      unfold listing_update, listing_remove, bind, view_get, lift, ret;
      rewrite Hk; cbn [fst snd]; rewrite Hl, Hs, Hne; reflexivity.
  - intros k rule owner Hget Hk Hl Hs Hne.
    rewrite (apply_node_dispatch _ _ _ _ Hget).
    cbn [dispatch String.eqb Ascii.eqb Bool.eqb].
    unfold rule_delete, bind, view_get, lift, ret.
    rewrite Hk. cbn [view_key fst snd]. rewrite Hl, Hs, Hne. reflexivity.
Qed.

Lemma non_owner_mutation_is_noop_witness :
  let m := fst (apply sample_runtime [Some post_keyboard; Some shared_rule] empty_mem) in
  (stored_field (view m) "LST-001" "seller" = VStr "S" /\
   stored_field (view m) "rule:a:b:RULE-001" "owner" = VStr "a:b") /\
  apply_node sample_runtime (Some (remove_by "X" "LST-001")) m = (m, Return tt) /\
  apply_node sample_runtime (Some (delete_rule "a" "b:RULE-001")) m = (m, Return tt).
Proof.
  cbv zeta. split; [split; vm_compute; reflexivity|]. split.
  - eapply (proj1 (non_owner_mutation_is_noop sample_runtime _ (remove_by "X" "LST-001"))
              "listing_remove" "LST-001");
      [right; reflexivity | reflexivity | reflexivity
      | vm_compute; reflexivity | reflexivity | reflexivity].
  - eapply (proj2 (non_owner_mutation_is_noop sample_runtime _ (delete_rule "a" "b:RULE-001"))
              "rule:a:b:RULE-001");
      [reflexivity | reflexivity | vm_compute; reflexivity | reflexivity | reflexivity].
Defined.

(** C6, as stated, fails on offers: an identity that is neither the buyer of
    the offer nor the seller of the listing declines the pending offer, or
    accepts it and closes the deal. *)
Lemma stranger_declines_or_accepts_offer :
  let open :=
    fst (apply sample_runtime [Some post_keyboard; Some (offer_from "B" 90)] empty_mem) in
  let declined := fst (apply_node sample_runtime (Some (decline_by "X" "OFR-001")) open) in
  let accepted := fst (apply_node sample_runtime (Some (accept_by "X" "OFR-001")) open) in
  stored_field (view open) "LST-001" "seller" = VStr "S" /\
  stored_field (view open) "LST-001:OFR-001" "buyer" = VStr "B" /\
  stored_field (view open) "LST-001:OFR-001" "status" = VStr "pending" /\
  stored_field (view declined) "LST-001:OFR-001" "status" = VStr "declined" /\
  stored_field (view declined) "LST-001:OFR-001" "declinedBy" = VStr "X" /\
  stored_field (view accepted) "LST-001:OFR-001" "status" = VStr "accepted" /\
  stored_field (view accepted) "LST-001:OFR-001" "acceptedBy" = VStr "X" /\
  stored_field (view accepted) "LST-001" "status" = VStr "sold" /\
  stored_field (view accepted) "DEAL-001" "buyer" = VStr "B".
Proof. cbv zeta. repeat split; vm_compute; reflexivity. Qed.

(** C7 (amended).  [_ruleSet] replies with a failure and appends nothing
    exactly when none of [auto_buy_below], [auto_accept_above] and
    [auto_counter_ratio] is present.  When at least one is present it
    appends one [rule_set] entry and replies [ok: true]; the first present
    one, in that order, decides the rule type, and the others are
    ignored. *)
Theorem ruleSet_first_present_parameter address now cmd :
  let buy := get cmd "auto_buy_below" in
  let acc := get cmd "auto_accept_above" in
  let ctr := get cmd "auto_counter_ratio" in
  (buy = VUndef -> acc = VUndef -> ctr = VUndef ->
     fst (Router._ruleSet address now cmd) = [] /\
     get (snd (Router._ruleSet address now cmd)) "ok" = VBool false) /\
  (buy <> VUndef \/ acc <> VUndef \/ ctr <> VUndef ->
     exists entry,
       fst (Router._ruleSet address now cmd) = [entry] /\
       get (snd (Router._ruleSet address now cmd)) "ok" = VBool true /\
       get entry "op" = VStr "rule_set" /\
       get entry "ruleType" =
         VStr (if negb (strict_eq buy VUndef) then "auto_buy"
               else if negb (strict_eq acc VUndef) then "auto_accept"
               else "auto_counter")).
Proof.
  intros buy acc ctr. unfold Router._ruleSet. fold buy acc ctr. split.
  - intros -> -> ->. simpl. done.
  - intros H.
    destruct (strict_eq buy VUndef) eqn:Hb; cbn [negb].
    2: { eexists. repeat split; try reflexivity. }
    destruct (strict_eq acc VUndef) eqn:Ha; cbn [negb].
    2: { eexists. repeat split; try reflexivity. }
    destruct (strict_eq ctr VUndef) eqn:Hc; cbn [negb].
    2: { eexists. repeat split; try reflexivity. }
    apply strict_eq_undef in Hb, Ha, Hc. intuition.
Qed.

Lemma ruleSet_first_present_parameter_witness :
  (get bare_rule_command "auto_buy_below" = VUndef /\
   get bare_rule_command "auto_accept_above" = VUndef /\
   get bare_rule_command "auto_counter_ratio" = VUndef) /\
  (fst (Router._ruleSet (VStr "S") 5000 bare_rule_command) = [] /\
   get (snd (Router._ruleSet (VStr "S") 5000 bare_rule_command)) "ok" = VBool false) /\
  get ratio_command "auto_counter_ratio" <> VUndef /\
  (exists entry,
     fst (Router._ruleSet (VStr "S") 5000 ratio_command) = [entry] /\
     get (snd (Router._ruleSet (VStr "S") 5000 ratio_command)) "ok" = VBool true /\
     get entry "op" = VStr "rule_set" /\
     get entry "ruleType" = VStr "auto_counter").
Proof.
  split; [repeat split; reflexivity|]. split.
  - apply (proj1 (ruleSet_first_present_parameter (VStr "S") 5000 bare_rule_command));
      reflexivity.
  - split; [discriminate|].
    apply (proj2 (ruleSet_first_present_parameter (VStr "S") 5000 ratio_command)).
    right; right; discriminate.
Defined.

(** C7, as stated, fails: a command that supplies both [auto_buy_below] and
    [auto_accept_above] is not rejected; an [auto_buy] entry is appended and
    the reply is [ok: true]. *)
Lemma ruleSet_accepts_two_parameters :
  get two_parameter_command "auto_buy_below" = VNum 50 /\
  get two_parameter_command "auto_accept_above" = VNum 100 /\
  Router._ruleSet (VStr "S") 5000 two_parameter_command =
    ([VObj [("op", VStr "rule_set"); ("ruleType", VStr "auto_buy");
            ("params", VObj [("max_price", VNum 50)]);
            ("owner", VStr "S"); ("ts", VNum 5000)]],
     VObj [("ok", VBool true); ("message", VStr "Rule set: auto_buy")]).
Proof. repeat split; vm_compute; reflexivity. Qed.

(** ** The rule engine *)

Lemma SFeqb_refl_false s : SFeqb s s = false -> s = S754_nan.
Proof.
  destruct s as [sg|sg| |sg m e]; try done.
  { by destruct sg. }
  unfold SFeqb, SFcompare.
  destruct sg; rewrite Z.compare_refl; change PosDef.Pos.compare_cont with Pos.compare_cont;
    rewrite Pos.compare_cont_refl; done.
Qed.

(** A comparison with [NaN] is false. *)
Lemma ltb_nan x y : (is_nan x || is_nan y)%bool = true -> PrimFloat.ltb x y = false.
Proof.
  rewrite FloatAxioms.ltb_spec. unfold is_nan. rewrite !FloatAxioms.eqb_spec.
  intros [H|H]%orb_true_iff; apply negb_true_iff, SFeqb_refl_false in H; rewrite H.
  - done.
  - by destruct (Prim2SF x).
Qed.

Lemma js_lt_num rt a b : js_lt rt (VNum a) (VNum b) = Return (PrimFloat.ltb a b).
Proof.
  unfold js_lt, IsLessThan. cbn [ToPrimitive number_of_primitive].
  destruct (is_nan a || is_nan b)%bool eqn:E; [|done].
  by rewrite ltb_nan.
Qed.

Section EngineFacts.
Context (rt : Runtime) (listing_get : string -> value).

(** A rule that alone issues no command is passed over. *)
Lemma evalAcceptRules_skip rule rules listingId offerMsg :
  Market._evalAcceptRules rt listing_get [rule] listingId offerMsg = Return None ->
  Market._evalAcceptRules rt listing_get (rule :: rules) listingId offerMsg =
  Market._evalAcceptRules rt listing_get rules listingId offerMsg.
Proof.
  cbn [Market._evalAcceptRules].
  destruct (Market.scoped rule "auto_accept" listingId) as [ia|]; [|done].
  destruct (if ia then _ else _) as [[]|]; try done.
  destruct (Market.scoped rule "auto_counter" listingId) as [[]|]; try done.
  destruct (Market.counter_branch rt listing_get rule listingId offerMsg) as [[]|]; done.
Qed.

Lemma evalAcceptRules_skip_all pre rules listingId offerMsg :
  Forall (fun r => Market._evalAcceptRules rt listing_get [r] listingId offerMsg = Return None)
    pre ->
  Market._evalAcceptRules rt listing_get (pre ++ rules)%list listingId offerMsg =
  Market._evalAcceptRules rt listing_get rules listingId offerMsg.
Proof.
  induction 1 as [|r pre Hr _ IH]; [done|].
  rewrite <- app_comm_cons, evalAcceptRules_skip; done.
Qed.

Lemma auto_counter_first rule rest listingId offerMsg price ratio amount :
  get rule "type" = VStr "auto_counter" ->
  get (get rule "params") "listingId" = VStr listingId ->
  get (get rule "params") "ratio" = VNum ratio ->
  truthy (get (listing_get listingId) "ok") = true ->
  get (get (listing_get listingId) "data") "price" = VNum price ->
  get offerMsg "amount" = VNum amount ->
  let floor := Math_floor (price * ratio) in
  Market._evalAcceptRules rt listing_get (rule :: rest) listingId offerMsg =
  Return (Some (if PrimFloat.ltb amount floor
                then Market.counter_command listingId offerMsg floor
                else Market.accept_command listingId offerMsg)).
Proof.
  intros Hty Hl Hr Hok Hp Ha floor.
  assert (prop rule "type" = Return (VStr "auto_counter")) as Hpt.
  { destruct rule; try discriminate. cbn [prop]. by rewrite Hty. }
  assert (prop (get rule "params") "listingId" = Return (VStr listingId)) as Hpl.
  { destruct (get rule "params"); try discriminate. cbn [prop]. by rewrite Hl. }
  assert (prop (listing_get listingId) "ok" = Return (get (listing_get listingId) "ok")) as Hpo.
  { destruct (listing_get listingId); try discriminate; done. }
  assert (prop (get (listing_get listingId) "data") "price" = Return (VNum price)) as Hpp.
  { destruct (get (listing_get listingId) "data"); try discriminate. cbn [prop]. by rewrite Hp. }
  cbn [Market._evalAcceptRules]. unfold Market.scoped. rewrite Hpt.
  cbn [strict_eq String.eqb Ascii.eqb Bool.eqb]. rewrite Hpl.
  cbn [strict_eq]. rewrite String.eqb_refl.
  unfold Market.counter_branch. rewrite Hpo, Hok. cbn [negb]. rewrite Hpp, Hr.
  unfold js_mul. cbn [ToNumber ToPrimitive number_of_primitive].
  rewrite Ha, js_lt_num. fold floor. by destruct (PrimFloat.ltb amount floor).
Qed.

End EngineFacts.

(** C8 (amended).  When the rules before it in list order issue no command,
    an [auto_counter] rule scoped to the listing of an incoming offer, on a
    listing that [listing_get] finds, computes
    [floor = Math.floor(asking price × ratio)]; the engine counters at exactly
    [floor] when the offered amount is below [floor] and accepts otherwise
    (prices, ratio and amount being numbers).  With ask 100 and ratio 0.9 the
    floor is 90, an offer of 85 is countered at 90 and an offer of 92 is
    accepted. *)
Theorem auto_counter_floor rt listing_get :
  (forall pre rule rest listingId offerMsg price ratio amount,
     Forall (fun r => Market._evalAcceptRules rt listing_get [r] listingId offerMsg
                      = Return None) pre ->
     get rule "type" = VStr "auto_counter" ->
     get (get rule "params") "listingId" = VStr listingId ->
     get (get rule "params") "ratio" = VNum ratio ->
     truthy (get (listing_get listingId) "ok") = true ->
     get (get (listing_get listingId) "data") "price" = VNum price ->
     get offerMsg "amount" = VNum amount ->
     let floor := Math_floor (price * ratio) in
     Market._evalAcceptRules rt listing_get (pre ++ rule :: rest)%list listingId offerMsg =
     Return (Some (if PrimFloat.ltb amount floor
                   then Market.counter_command listingId offerMsg floor
                   else Market.accept_command listingId offerMsg))) /\
  Math_floor (100 * 0.9)%float = 90%float /\
  Market._evalAcceptRules rt (fun _ => listing_found 100)
    [counter_rule "LST-001" 0.9] "LST-001" (offer_sent 85)
  = Return (Some (Market.counter_command "LST-001" (offer_sent 85) 90)) /\
  Market._evalAcceptRules rt (fun _ => listing_found 100)
    [counter_rule "LST-001" 0.9] "LST-001" (offer_sent 92)
  = Return (Some (Market.accept_command "LST-001" (offer_sent 92))).
Proof.
  split; [|split; [|split]].
  - intros pre rule rest listingId offerMsg price ratio amount Hpre Hty Hl Hr Hok Hp Ha floor.
    rewrite evalAcceptRules_skip_all by done.
    by apply auto_counter_first.
  - vm_compute. reflexivity.
  - rewrite (auto_counter_first rt _ _ _ "LST-001" _ 100%float 0.9%float 85%float)
      by reflexivity.
    vm_compute. reflexivity.
  - rewrite (auto_counter_first rt _ _ _ "LST-001" _ 100%float 0.9%float 92%float)
      by reflexivity.
    vm_compute. reflexivity.
Qed.

Lemma auto_counter_floor_witness :
  let pre := [accept_rule "LST-001" 100; counter_rule "LST-002" 0.5] in
  Forall (fun r => Market._evalAcceptRules sample_runtime (fun _ => listing_found 100)
                     [r] "LST-001" (offer_sent 85) = Return None) pre /\
  Market._evalAcceptRules sample_runtime (fun _ => listing_found 100)
    (pre ++ [counter_rule "LST-001" 0.9])%list "LST-001" (offer_sent 85)
  = Return (Some (Market.counter_command "LST-001" (offer_sent 85) 90)).
Proof.
  cbv zeta.
  assert (Forall (fun r => Market._evalAcceptRules sample_runtime
                             (fun _ => listing_found 100) [r] "LST-001" (offer_sent 85)
                           = Return None)
            [accept_rule "LST-001" 100; counter_rule "LST-002" 0.5]) as Hpre
    by (repeat constructor).
  split; [exact Hpre|].
  exact (proj1 (auto_counter_floor sample_runtime (fun _ => listing_found 100))
           _ (counter_rule "LST-001" 0.9) [] "LST-001" (offer_sent 85)
           100%float 0.9%float 85%float
           Hpre eq_refl eq_refl eq_refl eq_refl eq_refl eq_refl).
Defined.

(** C8, as stated, fails: the floor is rounded down.  With ask 105 and ratio
    0.9 the product is 94.5; an offer of 94 is below it, yet the engine
    accepts the offer instead of countering at 94.5. *)
Lemma auto_counter_accepts_below_ask_times_ratio :
  (105 * 0.9)%float = 94.5%float /\
  PrimFloat.ltb 94 (105 * 0.9)%float = true /\
  Market._evalAcceptRules sample_runtime (fun _ => listing_found 105)
    [counter_rule "LST-001" 0.9] "LST-001" (offer_sent 94)
  = Return (Some (Market.accept_command "LST-001" (offer_sent 94))).
Proof. repeat split; vm_compute; reflexivity. Qed.

(** ** The rate limiter *)

Lemma filter_length_lt {A} (P : A -> bool) (l : list A) x :
  In x l -> P x = false -> (List.length (List.filter P l) < List.length l)%nat.
Proof.
  induction l as [|y l IH]; simpl; [done|].
  intros [->|Hin] Hx.
  - rewrite Hx. pose proof (List.filter_length_le P l). lia.
  - specialize (IH Hin Hx). destruct (P y); simpl; lia.
Qed.

Lemma filter_all {A} (P : A -> bool) (l : list A) :
  (forall x, In x l -> P x = true) -> List.filter P l = l.
Proof.
  induction l as [|y l IH]; simpl; [done|].
  intros H. rewrite (H y) by auto. f_equal. apply IH. auto.
Qed.

(** C9.  With [live] the stored timestamps still inside the window
    ([now - t < W], [W] one hour): when [N] or more are live the trigger is
    suppressed, the result is [false] and no timestamp is recorded (only the
    aged ones are dropped); when fewer are live it is accepted and [now] is
    recorded.  So after [N] accepted triggers a further trigger is accepted
    exactly once the oldest of them has left the window, that is when
    [W <= now - oldest]. *)
Theorem rate_limiter_window (N now : Z) (ts : list Z) :
  let live := List.filter (fun t => (now - t <? Market.DEAL_RATE_WINDOW_MS)%Z) ts in
  ((N <= Z.of_nat (List.length live))%Z ->
     Market._checkRateLimit N now ts = (live, false)) /\
  ((Z.of_nat (List.length live) < N)%Z ->
     Market._checkRateLimit N now ts = ((live ++ [now])%list, true)) /\
  (forall oldest,
     In oldest ts -> (forall t, In t ts -> (oldest <= t)%Z) ->
     Z.of_nat (List.length ts) = N ->
     (snd (Market._checkRateLimit N now ts) = true <->
      (Market.DEAL_RATE_WINDOW_MS <= now - oldest)%Z)).
Proof.
  intros live. unfold Market._checkRateLimit. fold live.
  split; [|split].
  - intros H. destruct (Z.geb_spec (Z.of_nat (List.length live)) N); [done|lia].
  - intros H. destruct (Z.geb_spec (Z.of_nat (List.length live)) N); [lia|done].
  - intros oldest Hin Hmin Hlen.
    destruct (Z.geb_spec (Z.of_nat (List.length live)) N) as [Hge|Hlt]; cbn [snd].
    + split; [done|]. intros Hold. exfalso.
      assert (List.length live < List.length ts)%nat; [|lia].
      apply (filter_length_lt _ _ oldest); [done|]. by apply Z.ltb_ge.
    + split; [|done]. intros _.
      destruct (Z.le_gt_cases Market.DEAL_RATE_WINDOW_MS (now - oldest)) as [|Hlive]; [done|].
      exfalso. unfold live in Hlt. rewrite filter_all in Hlt; [lia|].
      intros t Ht. apply Z.ltb_lt. specialize (Hmin t Ht). lia.
Qed.

Lemma rate_limiter_window_witness :
  let ts := [1000; 2000; 3000]%Z in
  ((3 <= Z.of_nat (List.length
                     (List.filter (fun t => (3600999 - t <? Market.DEAL_RATE_WINDOW_MS)%Z) ts)))%Z /\
   Market._checkRateLimit 3 3600999 ts = (ts, false)) /\
  ((Z.of_nat (List.length
                (List.filter (fun t => (3601000 - t <? Market.DEAL_RATE_WINDOW_MS)%Z) ts)) < 3)%Z /\
   Market._checkRateLimit 3 3601000 ts = ([2000; 3000; 3601000]%Z, true)) /\
  (In 1000%Z ts /\ (forall t, In t ts -> (1000 <= t)%Z) /\ Z.of_nat (List.length ts) = 3%Z) /\
  (snd (Market._checkRateLimit 3 3601000 ts) = true <->
   (Market.DEAL_RATE_WINDOW_MS <= 3601000 - 1000)%Z).
Proof.
  cbv zeta. split; [split; [vm_compute; discriminate|]|split; [split; [reflexivity|]|]].
  - apply (proj1 (rate_limiter_window 3 3600999 [1000; 2000; 3000]%Z)).
    vm_compute; discriminate.
  - apply (proj1 (proj2 (rate_limiter_window 3 3601000 [1000; 2000; 3000]%Z))).
    reflexivity.
  - assert (In 1000%Z [1000; 2000; 3000]%Z /\
            (forall t, In t [1000; 2000; 3000]%Z -> (1000 <= t)%Z) /\
            Z.of_nat (List.length [1000; 2000; 3000]%Z) = 3%Z) as H.
    { split; [left; reflexivity|]. split; [|reflexivity].
      intros t [<-|[<-|[<-|[]]]]; lia. }
    split; [exact H|].
    apply (proj2 (proj2 (rate_limiter_window 3 3601000 [1000; 2000; 3000]%Z)) 1000%Z);
      apply H.
Defined.

(** ** Acceptance of an offer on a listing that is not stored *)

(** C10.  When the key the entry addresses holds a pending offer and nothing
    is stored under the entry's [listingId], [offer_accept] stores the offer
    as accepted and a deal under the next deal id, and writes nothing else.
    In the deal [listingTitle] is the empty string, [currency] is ['TNK'] and
    [seller] is the entry's own [seller]; [buyer] and [finalPrice] are the
    offer's (each value as [JSON.stringify] writes it). *)
Theorem offer_accept_missing_listing rt m entry key lk offer :
  get entry "op" = VStr "offer_accept" ->
  colon_key rt (get entry "listingId") (get entry "offerId") = Return key ->
  view m !! key = Some offer ->
  get offer "status" = VStr "pending" ->
  view_key rt (get entry "listingId") = Return lk ->
  view m !! lk = None ->
  let dealId := nextId "DEAL" (incr (dealSeq (seqs m))) in
  exists accepted deal m',
    apply_node rt (Some entry) m = (m', Return tt) /\
    view m' = <[dealId := deal]> (<[key := accepted]> (view m)) /\
    view m' !! key = Some accepted /\
    get accepted "status" = VStr "accepted" /\
    view m' !! dealId = Some deal /\
    get deal "listingId" = JSON_stringify (get entry "listingId") /\
    get deal "offerId" = JSON_stringify (get entry "offerId") /\
    get deal "listingTitle" = VStr "" /\
    get deal "buyer" = JSON_stringify (get offer "buyer") /\
    get deal "seller" = JSON_stringify (get entry "seller") /\
    get deal "finalPrice" = JSON_stringify (get offer "amount") /\
    get deal "currency" = VStr "TNK" /\
    (forall k, k <> key -> k <> dealId -> view m' !! k = view m !! k).
Proof.
  intros Hop Hkey Hoff Hst Hlk Hnone dealId.
  assert (key <> dealId) as Hkd.
  { intros E. apply colon_key_has_colon in Hkey. rewrite E in Hkey.
    unfold dealId in Hkey. by rewrite has_colon_nextId in Hkey. }
  assert (lk <> key) as Hlkk by congruence.
  destruct offer as [| | | | | |fs]; try discriminate. cbn [get] in Hst.
  rewrite (apply_node_dispatch _ _ _ _ Hop). cbn [dispatch String.eqb Ascii.eqb Bool.eqb].
  unfold offer_accept, bind, lift, view_get, view_put, next_deal, ret.
  rewrite Hkey. cbn [view_key fst snd]. rewrite Hoff.
  cbn [prop get]. rewrite Hst. cbn [strict_eq String.eqb Ascii.eqb Bool.eqb negb set_prop].
  cbn [fst snd view seqs]. rewrite Hlk.
  rewrite lookup_insert_ne by done. rewrite Hnone.
  cbn [prop get own set_prop fst snd view seqs].
  do 3 eexists. split; [reflexivity|]. cbn [view].
  fold dealId.
  split; [reflexivity|].
  split; [by rewrite lookup_insert_ne, lookup_insert_eq|].
  split. { rewrite JSON_stringify_obj. cbn [get]. rewrite own_stringify_props_defined; by own_set'. }
  split; [by rewrite lookup_insert_eq|].
  rewrite JSON_stringify_obj. cbn [get].
  rewrite !own_stringify_props by keys_nodup.
  cbn [own String.eqb Ascii.eqb Bool.eqb]. own_set'.
  repeat (split; [reflexivity|]).
  intros k Hk1 Hk2. by rewrite !lookup_insert_ne.
Qed.

Lemma offer_accept_missing_listing_witness :
  let m := fst (apply sample_runtime [Some (offer_from "B" 90)] empty_mem) in
  let entry := accept_by "X" "OFR-001" in
  let dealId := nextId "DEAL" (incr (dealSeq (seqs m))) in
  (get entry "op" = VStr "offer_accept" /\
   colon_key sample_runtime (get entry "listingId") (get entry "offerId")
     = Return "LST-001:OFR-001" /\
   view m !! "LST-001:OFR-001" = Some stored_offer /\
   get stored_offer "status" = VStr "pending" /\
   view_key sample_runtime (get entry "listingId") = Return "LST-001" /\
   view m !! "LST-001" = None) /\
  dealId = "DEAL-001" /\
  exists accepted deal m',
    apply_node sample_runtime (Some entry) m = (m', Return tt) /\
    view m' = <[dealId := deal]> (<["LST-001:OFR-001" := accepted]> (view m)) /\
    view m' !! "LST-001:OFR-001" = Some accepted /\
    get accepted "status" = VStr "accepted" /\
    view m' !! dealId = Some deal /\
    get deal "listingId" = JSON_stringify (get entry "listingId") /\
    get deal "offerId" = JSON_stringify (get entry "offerId") /\
    get deal "listingTitle" = VStr "" /\
    get deal "buyer" = JSON_stringify (get stored_offer "buyer") /\
    get deal "seller" = JSON_stringify (get entry "seller") /\
    get deal "finalPrice" = JSON_stringify (get stored_offer "amount") /\
    get deal "currency" = VStr "TNK" /\
    (forall k, k <> "LST-001:OFR-001" -> k <> dealId -> view m' !! k = view m !! k).
Proof.
  cbv zeta. split; [repeat split; vm_compute; reflexivity|].
  split; [vm_compute; reflexivity|].
  apply (offer_accept_missing_listing sample_runtime
           (fst (apply sample_runtime [Some (offer_from "B" 90)] empty_mem))
           (accept_by "X" "OFR-001") "LST-001:OFR-001" "LST-001" stored_offer);
    [reflexivity | reflexivity | vm_compute; reflexivity | reflexivity
    | reflexivity | vm_compute; reflexivity].
Defined.

(** ** Further facts about [apply] *)

(** An [offer_counter], [offer_accept] or [offer_decline] entry whose key
    holds a value with a status other than ['pending'] changes nothing. *)
Theorem terminal_offer_is_untouched rt m entry op key stored status :
  op = "offer_counter" \/ op = "offer_accept" \/ op = "offer_decline" ->
  get entry "op" = VStr op ->
  colon_key rt (get entry "listingId") (get entry "offerId") = Return key ->
  view m !! key = Some stored ->
  prop stored "status" = Return status ->
  strict_eq status (VStr "pending") = false ->
  apply_node rt (Some entry) m = (m, Return tt).
Proof.
  intros Hop Hget Hk Hl Hs Hne.
  rewrite (apply_node_dispatch _ _ _ _ Hget).
  destruct Hop as [-> | [-> | ->]]; cbn [dispatch String.eqb Ascii.eqb Bool.eqb];
    unfold offer_counter, offer_accept, offer_decline, bind, view_get, lift, ret;
    rewrite Hk; cbn [view_key fst snd]; rewrite Hl, Hs, Hne; reflexivity.
Qed.

Lemma terminal_offer_is_untouched_witness :
  let sold := fst (apply sample_runtime sale_log empty_mem) in
  stored_field (view sold) "LST-001:OFR-001" "status" = VStr "accepted" /\
  apply_node sample_runtime (Some (decline_by "S" "OFR-001")) sold = (sold, Return tt).
Proof.
  cbv zeta. split; [vm_compute; reflexivity|].
  eapply (terminal_offer_is_untouched sample_runtime _ (decline_by "S" "OFR-001")
            "offer_decline" "LST-001:OFR-001");
    [right; right; reflexivity | reflexivity | reflexivity
    | vm_compute; reflexivity | reflexivity | reflexivity].
Defined.

(** A node that decodes to [null] raises a [TypeError] at [entry.op]; the
    nodes after it are not applied. *)
Theorem null_node_raises rt nodes m :
  apply rt (Some VNull :: nodes) m = (m, Raise TypeError).
Proof. reflexivity. Qed.

(** Only [offer_accept] stores under a free key that is neither the next
    listing id nor an offer or rule key: no other operation creates a
    deal. *)
Theorem only_offer_accept_creates_deals rt m entry op k :
  get entry "op" = VStr op ->
  op <> "offer_accept" ->
  view m !! k = None ->
  has_colon k = false ->
  k <> nextId "LST" (incr (listingSeq (seqs m))) ->
  view (fst (apply_node rt (Some entry) m)) !! k = None.
Proof.
  intros Hget Hop Hk Hc Hl.
  rewrite (apply_node_dispatch _ _ _ _ Hget). unfold dispatch.
  repeat match goal with
  | |- context [if String.eqb op ?s then _ else _] =>
      destruct (String.eqb_spec op s) as [->|_]
  end; try done.
  - unfold listing_post, bind, next_listing, view_put. cbn [view_key fst snd view seqs].
    by rewrite lookup_insert_ne.
  - unfold listing_update, bind, view_get, view_put, lift, ret.
    destruct (view_key rt (get entry "id")) as [s|e]; [|done]. cbn [fst snd].
    destruct (view m !! s) as [listing|] eqn:Hs; [|done].
    assert (s <> k) by congruence.
    destruct (prop listing "seller") as [seller|]; [|done]. cbn [fst snd].
    destruct (negb (strict_eq seller (get entry "seller"))); [done|].
    repeat match goal with
    | |- context [if ?b then set_prop ?l ?f ?x else Return ?l] =>
        destruct (if b then set_prop l f x else Return l); [|done]; cbn [fst snd]
    | |- context [set_prop ?l ?f ?x] =>
        destruct (set_prop l f x); [|done]; cbn [fst snd]
    end.
    cbn [view]. by rewrite lookup_insert_ne.
  - unfold listing_remove, bind, view_get, view_put, lift, ret.
    destruct (view_key rt (get entry "id")) as [s|e]; [|done]. cbn [fst snd].
    destruct (view m !! s) as [listing|] eqn:Hs; [|done].
    assert (s <> k) by congruence.
    destruct (prop listing "seller") as [seller|]; [|done]. cbn [fst snd].
    destruct (negb (strict_eq seller (get entry "seller"))); [done|].
    repeat match goal with
    | |- context [set_prop ?l ?f ?x] =>
        destruct (set_prop l f x); [|done]; cbn [fst snd]
    end.
    cbn [view]. by rewrite lookup_insert_ne.
  - unfold offer_send, bind, next_offer, view_put, lift.
    destruct (colon_key rt _ _) as [key|e] eqn:Hkey; [|done].
    cbn [view_key fst snd view seqs].
    apply colon_key_has_colon in Hkey.
    rewrite lookup_insert_ne; [done|]. intros ->. congruence.
  - unfold offer_counter, bind, view_get, view_put, lift, ret.
    destruct (colon_key rt _ _) as [key|e] eqn:Hkey; [|done].
    cbn [view_key fst snd].
    destruct (view m !! key) as [offer|] eqn:Hs; [|done].
    assert (key <> k) by congruence.
    destruct (prop offer "status") as [status|]; [|done]. cbn [fst snd].
    destruct (negb (strict_eq status (VStr "pending"))); [done|].
    repeat match goal with
    | |- context [history_push ?l ?x] =>
        destruct (history_push l x); [|done]; cbn [fst snd]
    | |- context [set_prop ?l ?f ?x] =>
        destruct (set_prop l f x); [|done]; cbn [fst snd]
    end.
    cbn [view]. by rewrite lookup_insert_ne.
  - unfold offer_decline, bind, view_get, view_put, lift, ret.
    destruct (colon_key rt _ _) as [key|e] eqn:Hkey; [|done].
    cbn [view_key fst snd].
    destruct (view m !! key) as [offer|] eqn:Hs; [|done].
    assert (key <> k) by congruence.
    destruct (prop offer "status") as [status|]; [|done]. cbn [fst snd].
    destruct (negb (strict_eq status (VStr "pending"))); [done|].
    repeat match goal with
    | |- context [set_prop ?l ?f ?x] =>
        destruct (set_prop l f x); [|done]; cbn [fst snd]
    end.
    cbn [view]. by rewrite lookup_insert_ne.
  - unfold rule_set, rule_key, bind, next_rule, view_put, lift.
    destruct (colon_key rt _ _) as [key|e] eqn:Hkey; [|done].
    cbn [view_key fst snd view seqs].
    apply colon_key_has_colon in Hkey.
    rewrite lookup_insert_ne; [done|]. intros <-.
    change (has_colon ("rule:" ++ key) = false) in Hc.
    rewrite has_colon_app in Hc. done.
  - unfold rule_delete, rule_key, bind, view_get, view_put, lift, ret.
    destruct (colon_key rt _ _) as [key|e] eqn:Hkey; [|done].
    cbn [view_key fst snd].
    destruct (view m !! ("rule:" ++ key)) as [rule|] eqn:Hs; [|done].
    assert ("rule:" ++ key <> k) by congruence.
    destruct (prop rule "owner") as [owner|]; [|done]. cbn [fst snd].
    destruct (negb (strict_eq owner (get entry "owner"))); [done|].
    repeat match goal with
    | |- context [set_prop ?l ?f ?x] =>
        destruct (set_prop l f x); [|done]; cbn [fst snd]
    end.
    cbn [view]. by rewrite lookup_insert_ne.
Qed.

Lemma only_offer_accept_creates_deals_witness :
  let open :=
    fst (apply sample_runtime [Some post_keyboard; Some (offer_from "B" 90)] empty_mem) in
  (view open !! "DEAL-001" = None /\ has_colon "DEAL-001" = false /\
   "DEAL-001" <> nextId "LST" (incr (listingSeq (seqs open)))) /\
  view (fst (apply_node sample_runtime (Some (decline_by "S" "OFR-001")) open))
    !! "DEAL-001" = None.
Proof.
  cbv zeta. split; [repeat split; vm_compute; (reflexivity || discriminate)|].
  apply (only_offer_accept_creates_deals sample_runtime _ _ "offer_decline");
    [reflexivity | discriminate | vm_compute; reflexivity | reflexivity
    | vm_compute; discriminate].
Defined.

(** ** One deal per accepted offer *)

Lemma after_last_colon_plain s : has_colon s = false -> after_last_colon s = s.
Proof.
  induction s as [|c s IH]; simpl; [done|].
  intros [Hc Hs]%orb_false_elim. by rewrite Hs, Hc.
Qed.

Lemma after_last_colon_app a t :
  has_colon t = false -> after_last_colon (a ++ ":" ++ t) = t.
Proof.
  intros Ht. induction a as [|c a IH]; simpl.
  - change ("" +:+ t) with t. by rewrite Ht.
  - rewrite has_colon_app. simpl. by rewrite orb_true_r.
Qed.

Lemma uint_of_padded k d :
  exists d', NilEmpty.uint_of_string (repeat_char k "0" ++ NilEmpty.string_of_uint d) = Some d' /\
             N.of_uint d' = N.of_uint d.
Proof.
  induction k as [|k (d' & Hd & Hn)].
  - exists d. split; [apply NilEmpty.usu | done].
  - exists (Decimal.D0 d'). split; [|done].
    change (repeat_char (S k) "0" ++ NilEmpty.string_of_uint d)
      with (String "0" (repeat_char k "0" ++ NilEmpty.string_of_uint d)).
    cbn [NilEmpty.uint_of_string]. by rewrite Hd.
Qed.

Lemma N_of_digits_padStart n : N_of_digits (padStart 3 "0" (String_of_N n)) = n.
Proof.
  unfold N_of_digits, padStart, String_of_N.
  destruct (uint_of_padded (3 - String.length (NilEmpty.string_of_uint (N.to_uint n)))
              (N.to_uint n)) as (d' & -> & ->).
  apply DecimalN.Unsigned.of_to.
Qed.

Lemma append_cancel (p a b : string) : p ++ a = p ++ b -> a = b.
Proof. induction p as [|c p IH]; simpl; [done|]. intros [= H]. auto. Qed.

Lemma nextId_inj p i j : nextId p i = nextId p j -> i = j.
Proof.
  unfold nextId. intros H%append_cancel%(append_cancel "-").
  apply (f_equal N_of_digits) in H. by rewrite !N_of_digits_padStart in H.
Qed.

Lemma nextId_prefix p q i j :
  String.length p = String.length q -> nextId p i = nextId q j -> p = q.
Proof.
  unfold nextId. revert q. induction p as [|c p IH]; intros [|d q]; simpl; try done.
  intros [= Hl] [= -> H]. f_equal. by apply IH.
Qed.

Lemma nextId_head c p d q i j : nextId (String c p) i = nextId (String d q) j -> c = d.
Proof. unfold nextId. intros H. by injection H. Qed.

Lemma nextId_colon_free p n k a :
  has_colon p = false -> nextId p n <> a ++ ":" ++ k.
Proof.
  intros Hp E. apply (f_equal has_colon) in E.
  rewrite has_colon_nextId, !has_colon_app in E by done.
  simpl in E. by rewrite orb_true_r in E.
Qed.

Lemma Inv_empty : Inv empty_mem.
Proof.
  split; cbn [view seqs empty_mem].
  - apply view_ok_empty.
  - intros k x j Hx. by rewrite lookup_empty in Hx.
  - intros j d Hd. by rewrite lookup_empty in Hd.
  - intros j l o (d & Hd & _). by rewrite lookup_empty in Hd.
  - intros i j l o (d & Hd & _). by rewrite lookup_empty in Hd.
Qed.

Lemma closed_rewrite (v : View) k y y' k0 :
  v !! k = Some y -> (~ pending y -> ~ pending y') ->
  closed v k0 -> closed (<[k := y']> v) k0.
Proof.
  intros Hk Hb (z & Hz & Hp). destruct (decide (k = k0)) as [<-|Hne].
  - exists y'. rewrite lookup_insert_eq. split; [done|]. apply Hb. congruence.
  - exists z. by rewrite lookup_insert_ne.
Qed.

Lemma deal_pair_rewrite (v : View) k y y' j l o :
  v !! k = Some y -> benign y y' ->
  deal_pair (<[k := y']> v) j l o <-> deal_pair v j l o.
Proof.
  intros Hk (Hl & Ho & _). unfold deal_pair.
  destruct (decide (k = nextId "DEAL" j)) as [->|Hne].
  - rewrite lookup_insert_eq. split.
    + intros (d & [= <-] & H1 & H2). exists y. by rewrite <- Hl, <- Ho.
    + intros (d & Hd & H1 & H2). exists y'. rewrite Hk in Hd. injection Hd as <-.
      by rewrite Hl, Ho.
  - by rewrite lookup_insert_ne.
Qed.

(** Rewriting a stored value. *)
Lemma Inv_rewrite m c k y y' :
  Inv m -> same_seqs (seqs m) c ->
  view m !! k = Some y -> stored_ok y' -> benign y y' ->
  Inv {| seqs := c; view := <[k := y']> (view m) |}.
Proof.
  intros [H1 H2 H3 H4 H5] [Ho Hd] Hk Hy' Hb. split; cbn [view seqs].
  - by apply view_ok_insert.
  - intros k0 x j Hx Hj. rewrite Ho.
    destruct (decide (k = k0)) as [<-|Hne]; [by eapply H2|].
    rewrite lookup_insert_ne in Hx by done. by eapply H2.
  - intros j d Hj. rewrite Hd.
    destruct (decide (k = nextId "DEAL" j)) as [->|Hne]; [by eapply H3|].
    rewrite lookup_insert_ne in Hj by done. by eapply H3.
  - intros j l o Hp%(deal_pair_rewrite _ _ _ _ _ _ _ Hk Hb).
    eapply closed_rewrite; [done|apply Hb|]. by eapply H4.
  - intros i j l o Hi%(deal_pair_rewrite _ _ _ _ _ _ _ Hk Hb)
                   Hj%(deal_pair_rewrite _ _ _ _ _ _ _ Hk Hb).
    by eapply H5.
Qed.

Lemma deal_pair_insert_ne (v : View) k x j l o :
  k <> nextId "DEAL" j -> deal_pair (<[k := x]> v) j l o <-> deal_pair v j l o.
Proof. intros Hne. unfold deal_pair. by rewrite lookup_insert_ne. Qed.

Lemma closed_insert_fresh (v : View) k x k0 :
  v !! k = None -> closed v k0 -> closed (<[k := x]> v) k0.
Proof.
  intros Hk (z & Hz & Hp). exists z. rewrite lookup_insert_ne; [done|]. congruence.
Qed.

(** Storing a value that is not pending under a key that is no deal id and
    no offer key. *)
Lemma Inv_insert_other m c k x :
  Inv m -> same_seqs (seqs m) c ->
  (forall j, k <> nextId "DEAL" j) ->
  (forall j, after_last_colon k <> nextId "OFR" j) ->
  stored_ok x -> ~ pending x ->
  Inv {| seqs := c; view := <[k := x]> (view m) |}.
Proof.
  intros [H1 H2 H3 H4 H5] [Ho Hd] Hkd Hko Hx Hp. split; cbn [view seqs].
  - by apply view_ok_insert.
  - intros k0 y j Hy Hj. rewrite Ho.
    destruct (decide (k = k0)) as [<-|Hne]; [by destruct (Hko j)|].
    rewrite lookup_insert_ne in Hy by done. by eapply H2.
  - intros j d Hj. rewrite Hd. rewrite lookup_insert_ne in Hj by done. by eapply H3.
  - intros j l o Hj%deal_pair_insert_ne; [|done].
    destruct (decide (k = l ++ ":" ++ o)) as [->|Hne].
    + exists x. by rewrite lookup_insert_eq.
    + destruct (H4 _ _ _ Hj) as (z & Hz & Hzp). exists z. by rewrite lookup_insert_ne.
  - intros i j l o Hi%deal_pair_insert_ne Hj%deal_pair_insert_ne; [|done..].
    by eapply H5.
Qed.

(** Storing a new offer under the next offer id. *)
Lemma Inv_insert_offer m c k x :
  Inv m ->
  offerSeq c = (offerSeq (seqs m) + 1)%N -> dealSeq c = dealSeq (seqs m) ->
  has_colon k = true ->
  after_last_colon k = nextId "OFR" (offerSeq (seqs m) + 1) ->
  stored_ok x ->
  Inv {| seqs := c; view := <[k := x]> (view m) |}.
Proof.
  intros [H1 H2 H3 H4 H5] Ho Hd Hc Hk Hx.
  assert (view m !! k = None) as Hfresh.
  { destruct (view m !! k) as [y|] eqn:Hy; [|done].
    specialize (H2 _ _ _ Hy Hk). lia. }
  assert (forall j, k <> nextId "DEAL" j) as Hkd.
  { intros j ->. by rewrite has_colon_nextId in Hc. }
  split; cbn [view seqs].
  - by apply view_ok_insert.
  - intros k0 y j Hy Hj. rewrite Ho.
    destruct (decide (k = k0)) as [<-|Hne].
    + rewrite Hk in Hj. apply nextId_inj in Hj. lia.
    + rewrite lookup_insert_ne in Hy by done. specialize (H2 _ _ _ Hy Hj). lia.
  - intros j d Hj. rewrite Hd. rewrite lookup_insert_ne in Hj by done. by eapply H3.
  - intros j l o Hj%deal_pair_insert_ne; [|done].
    apply closed_insert_fresh; [done|]. by eapply H4.
  - intros i j l o Hi%deal_pair_insert_ne Hj%deal_pair_insert_ne; [|done..].
    by eapply H5.
Qed.

(** Storing a new deal under the next deal id, for an offer that has just
    been closed and that no deal references yet. *)
Lemma Inv_insert_deal m c x :
  Inv m ->
  offerSeq c = offerSeq (seqs m) -> dealSeq c = (dealSeq (seqs m) + 1)%N ->
  stored_ok x ->
  (forall l o, get x "listingId" = VStr l -> get x "offerId" = VStr o ->
     closed (view m) (l ++ ":" ++ o) /\ forall j, ~ deal_pair (view m) j l o) ->
  Inv {| seqs := c; view := <[nextId "DEAL" (dealSeq (seqs m) + 1) := x]> (view m) |}.
Proof.
  intros [H1 H2 H3 H4 H5] Ho Hd Hx Hnew.
  set (k := nextId "DEAL" (dealSeq (seqs m) + 1)).
  assert (view m !! k = None) as Hfresh.
  { destruct (view m !! k) as [y|] eqn:Hy; [|done].
    specialize (H3 _ _ Hy). lia. }
  assert (forall j l o, deal_pair (<[k := x]> (view m)) j l o ->
            (j = (dealSeq (seqs m) + 1)%N /\ get x "listingId" = VStr l /\
             get x "offerId" = VStr o) \/
            (j <> (dealSeq (seqs m) + 1)%N /\ deal_pair (view m) j l o)) as Hcases.
  { intros j l o (d & Hdj & Hl & Hoo).
    destruct (decide (j = (dealSeq (seqs m) + 1)%N)) as [->|Hne].
    - left. fold k in Hdj. rewrite lookup_insert_eq in Hdj. injection Hdj as <-. done.
    - right. split; [done|]. exists d. rewrite lookup_insert_ne in Hdj; [done|].
      unfold k. intros E%nextId_inj. done. }
  split; cbn [view seqs].
  - by apply view_ok_insert.
  - intros k0 y j Hy Hj. rewrite Ho.
    destruct (decide (k = k0)) as [<-|Hne].
    + unfold k in Hj. rewrite after_last_colon_plain in Hj by by apply has_colon_nextId.
      by apply nextId_head in Hj.
    + rewrite lookup_insert_ne in Hy by done. by eapply H2.
  - intros j d Hj. rewrite Hd.
    destruct (decide (k = nextId "DEAL" j)) as [E|Hne].
    + apply nextId_inj in E. lia.
    + rewrite lookup_insert_ne in Hj by done. specialize (H3 _ _ Hj). lia.
  - intros j l o [(-> & Hl & Hoo)|(Hne & Hj)]%Hcases.
    + apply closed_insert_fresh; [done|]. by apply Hnew.
    + apply closed_insert_fresh; [done|]. by eapply H4.
  - intros i j l o [(-> & Hl & Hoo)|(Hne & Hi)]%Hcases
                   [(-> & Hl' & Hoo')|(Hne' & Hj)]%Hcases; try done.
    + by destruct (proj2 (Hnew _ _ Hl Hoo) j).
    + by destruct (proj2 (Hnew _ _ Hl' Hoo') i).
    + by eapply H5.
Qed.

Lemma benign_stringify fs gs :
  NoDup gs.*1 ->
  own gs "listingId" = own fs "listingId" ->
  own gs "offerId" = own fs "offerId" ->
  (own fs "status" <> VStr "pending" -> own gs "status" <> VStr "pending") ->
  benign (VObj fs) (JSON_stringify (VObj gs)).
Proof.
  intros Hnd Hl Ho Hs. rewrite JSON_stringify_obj. unfold benign, pending. cbn [get].
  rewrite !own_stringify_props, Hl, Ho by done.
  split; [|split].
  - intros l. split; [apply JSON_stringify_str | by intros ->].
  - intros o. split; [apply JSON_stringify_str | by intros ->].
  - intros Hp Hq%JSON_stringify_str. by apply Hs.
Qed.

Lemma incr_le n : (n <= incr n)%N.
Proof. unfold incr. destruct (N.ltb_spec n (2 ^ 53)); lia. Qed.

Lemma incr_bounded n : (incr n < 2 ^ 53)%N -> incr n = (n + 1)%N.
Proof. unfold incr. destruct (N.ltb_spec n (2 ^ 53)); lia. Qed.

Lemma Inv_seqs m c :
  Inv m -> (offerSeq (seqs m) <= offerSeq c)%N -> (dealSeq (seqs m) <= dealSeq c)%N ->
  Inv {| seqs := c; view := view m |}.
Proof.
  intros [H1 H2 H3 H4 H5] Ho Hd. split; cbn [view seqs]; try done.
  - intros k x j Hx Hj. specialize (H2 _ _ _ Hx Hj). lia.
  - intros j d Hj. specialize (H3 _ _ Hj). lia.
Qed.

Lemma colon_key_str rt a s k :
  colon_key rt a (VStr s) = Return k -> exists sa, k = sa ++ ":" ++ s.
Proof.
  unfold colon_key. destruct (ToString rt a) as [sa|]; [|done].
  cbn [ToString]. intros [= <-]. eauto.
Qed.

Lemma history_push_obj fs xs x :
  own fs "history" = VArr xs ->
  history_push (VObj fs) x = Return (VObj (set_own fs "history" (VArr (xs ++ [x])%list))).
Proof. intros H. unfold history_push. cbn [prop get]. by rewrite H. Qed.

Ltac mono_tac :=
  unfold mono; cbn [seqs fst snd offerSeq dealSeq];
  repeat match goal with
  | |- context [match ?x with _ => _ end] =>
      lazymatch x with
      | context [match _ with _ => _ end] => fail
      | _ => destruct x
      end; cbn [seqs fst snd offerSeq dealSeq]
  end;
  try match goal with
  | |- context [incr ?n] => pose proof (incr_le n)
  end;
  try lia.

Section Deals.
Context (rt : Runtime).

Lemma listing_post_mono entry m : mono m (fst (listing_post rt entry m)).
Proof.
  unfold listing_post, bind, next_listing, view_put, view_key. mono_tac.
Qed.

Lemma listing_update_mono entry m : mono m (fst (listing_update rt entry m)).
Proof.
  unfold listing_update, bind, view_get, view_put, lift, ret. mono_tac.
Qed.

Lemma listing_remove_mono entry m : mono m (fst (listing_remove rt entry m)).
Proof.
  unfold listing_remove, bind, view_get, view_put, lift, ret. mono_tac.
Qed.

Lemma offer_send_mono entry m : mono m (fst (offer_send rt entry m)).
Proof.
  unfold offer_send, bind, next_offer, view_put, lift, view_key.
  destruct (colon_key rt _ _); unfold mono; cbn [seqs fst snd offerSeq dealSeq];
    pose proof (incr_le (offerSeq (seqs m))); lia.
Qed.

Lemma offer_counter_mono entry m : mono m (fst (offer_counter rt entry m)).
Proof.
  unfold offer_counter, bind, view_get, view_put, lift, ret. mono_tac.
Qed.

Lemma offer_decline_mono entry m : mono m (fst (offer_decline rt entry m)).
Proof.
  unfold offer_decline, bind, view_get, view_put, lift, ret. mono_tac.
Qed.

Lemma rule_set_mono entry m : mono m (fst (rule_set rt entry m)).
Proof.
  unfold rule_set, bind, next_rule, view_put, lift, view_key.
  destruct (rule_key rt _ _); unfold mono; cbn [seqs fst snd offerSeq dealSeq]; lia.
Qed.

Lemma rule_delete_mono entry m : mono m (fst (rule_delete rt entry m)).
Proof.
  unfold rule_delete, bind, view_get, view_put, lift, ret. mono_tac.
Qed.

Lemma offer_accept_mono entry m : mono m (fst (offer_accept rt entry m)).
Proof.
  unfold offer_accept, bind, view_get, view_put, next_deal, lift, ret.
  mono_tac.
Qed.

Ltac not_pending :=
  unfold pending; rewrite JSON_stringify_obj; cbn [get];
  rewrite own_stringify_props by (repeat apply set_own_NoDup; first [done | keys_nodup]);
  own_set'; first [ discriminate | simpl; discriminate ].

Ltac benign_set :=
  apply benign_stringify;
  [ by repeat apply set_own_NoDup
  | by own_set' | by own_set'
  | own_set'; first [ done | intros _; discriminate ] ].

Lemma listing_post_inv entry m :
  Inv m -> Inv (fst (listing_post rt entry m)).
Proof.
  intros Hm. unfold listing_post, bind, next_listing, view_put.
  cbn [view_key fst snd view seqs].
  apply Inv_insert_other; [done | done | | | stored | not_pending].
  - intros j E%nextId_head. discriminate.
  - intros j. rewrite after_last_colon_plain by by apply has_colon_nextId.
    intros E%nextId_head. discriminate.
Qed.

Lemma listing_update_inv entry m :
  Inv m -> Inv (fst (listing_update rt entry m)).
Proof.
  intros Hm. unfold listing_update, bind, view_get, view_put, lift, ret.
  destruct (view_key rt (get entry "id")) as [s|e]; [|done]. cbn [fst snd].
  destruct (view m !! s) as [listing|] eqn:Hl; [|done].
  destruct (inv_ok _ Hm _ _ Hl) as (fs & -> & Hnd & Hst).
  cbn [prop get fst snd].
  destruct (negb (strict_eq (own fs "seller") (get entry "seller"))); [done|].
  destruct (negb (strict_eq (get entry "price") VUndef));
    destruct (negb (strict_eq (get entry "desc") VUndef));
    cbn [set_prop fst snd view seqs];
    (eapply Inv_rewrite; [done | done | done | stored | benign_set]).
Qed.

Lemma listing_remove_inv entry m :
  Inv m -> Inv (fst (listing_remove rt entry m)).
Proof.
  intros Hm. unfold listing_remove, bind, view_get, view_put, lift, ret.
  destruct (view_key rt (get entry "id")) as [s|e]; [|done]. cbn [fst snd].
  destruct (view m !! s) as [listing|] eqn:Hl; [|done].
  destruct (inv_ok _ Hm _ _ Hl) as (fs & -> & Hnd & Hst).
  cbn [prop get fst snd].
  destruct (negb (strict_eq (own fs "seller") (get entry "seller"))); [done|].
  cbn [set_prop fst snd view seqs].
  eapply Inv_rewrite; [done | done | done | stored | benign_set].
Qed.

Lemma offer_send_inv entry m :
  Inv m -> bounded (seqs (fst (offer_send rt entry m))) -> Inv (fst (offer_send rt entry m)).
Proof.
  intros Hm. unfold offer_send, bind, next_offer, view_put, lift.
  destruct (colon_key rt _ _) as [key|e] eqn:Hkey; cbn [view_key fst snd view seqs].
  - intros [Hb _]. cbn [offerSeq] in Hb. apply incr_bounded in Hb.
    rewrite Hb in *. destruct (colon_key_str _ _ _ _ Hkey) as (sa & ->).
    apply Inv_insert_offer; [done | done | done | | | stored].
    + rewrite !has_colon_app. simpl. by rewrite orb_true_r.
    + by rewrite after_last_colon_app by by apply has_colon_nextId.
  - intros _. apply (Inv_seqs m); [done | | ]; cbn [offerSeq dealSeq]; [apply incr_le | lia].
Qed.

Lemma offer_counter_inv entry m :
  Inv m -> Inv (fst (offer_counter rt entry m)).
Proof.
  intros Hm. unfold offer_counter, bind, view_get, view_put, lift, ret.
  destruct (colon_key rt _ _) as [key|e]; [|done].
  cbn [view_key fst snd].
  destruct (view m !! key) as [offer|] eqn:Hoff; [|done].
  destruct (inv_ok _ Hm _ _ Hoff) as (fs & -> & Hnd & Hst).
  cbn [prop get].
  destruct (strict_eq (own fs "status") (VStr "pending")) eqn:Hp; [|done].
  apply strict_eq_str in Hp. destruct (Hst Hp) as [xs Hxs].
  cbn [negb set_prop fst snd].
  erewrite history_push_obj by (own_set'; exact Hxs).
  cbn [set_prop fst snd view seqs].
  eapply Inv_rewrite; [done | done | done | stored | ].
  apply benign_stringify; [by repeat apply set_own_NoDup | by own_set' | by own_set' | done].
Qed.

Lemma offer_decline_inv entry m :
  Inv m -> Inv (fst (offer_decline rt entry m)).
Proof.
  intros Hm. unfold offer_decline, bind, view_get, view_put, lift, ret.
  destruct (colon_key rt _ _) as [key|e]; [|done].
  cbn [view_key fst snd].
  destruct (view m !! key) as [offer|] eqn:Hoff; [|done].
  destruct (inv_ok _ Hm _ _ Hoff) as (fs & -> & Hnd & Hst).
  cbn [prop get].
  destruct (negb (strict_eq (own fs "status") (VStr "pending"))); [done|].
  cbn [set_prop fst snd view seqs].
  eapply Inv_rewrite; [done | done | done | stored | benign_set].
Qed.

Lemma rule_set_inv entry m :
  Inv m -> Inv (fst (rule_set rt entry m)).
Proof.
  intros Hm. unfold rule_set, rule_key, bind, next_rule, view_put, lift.
  destruct (colon_key rt _ _) as [key|e] eqn:Hkey; cbn [view_key fst snd view seqs].
  - destruct (colon_key_str _ _ _ _ Hkey) as (sa & ->).
    apply Inv_insert_other; [done | done | | | stored | not_pending].
    + intros j E. apply (nextId_colon_free "DEAL" j
                           (nextId "RULE" (incr (ruleSeq (seqs m)))) ("rule:" ++ sa)); [done|].
      rewrite <- E. reflexivity.
    + intros j.
      change ("rule:" ++ sa ++ ":" ++ nextId "RULE" (incr (ruleSeq (seqs m))))
        with (("rule:" ++ sa) ++ ":" ++ nextId "RULE" (incr (ruleSeq (seqs m)))).
      rewrite after_last_colon_app by by apply has_colon_nextId.
      intros E%nextId_head. discriminate.
  - by apply (Inv_seqs m).
Qed.

Lemma rule_delete_inv entry m :
  Inv m -> Inv (fst (rule_delete rt entry m)).
Proof.
  intros Hm. unfold rule_delete, rule_key, bind, view_get, view_put, lift, ret.
  destruct (colon_key rt _ _) as [key|e]; [|done].
  cbn [view_key fst snd].
  destruct (view m !! ("rule:" ++ key)) as [rule|] eqn:Hoff; [|done].
  destruct (inv_ok _ Hm _ _ Hoff) as (fs & -> & Hnd & Hst).
  cbn [prop get].
  destruct (negb (strict_eq (own fs "owner") (get entry "owner"))); [done|].
  cbn [set_prop fst snd view seqs].
  eapply Inv_rewrite; [done | done | done | stored | benign_set].
Qed.

Lemma offer_accept_inv entry m :
  Inv m -> bounded (seqs (fst (offer_accept rt entry m))) ->
  Inv (fst (offer_accept rt entry m)).
Proof.
  intros Hm. unfold offer_accept, bind, view_get, view_put, next_deal, lift, ret.
  destruct (colon_key rt _ _) as [key|e] eqn:Hkey; [|done].
  cbn [view_key fst snd].
  destruct (view m !! key) as [offer|] eqn:Hoff; [|done].
  destruct (inv_ok _ Hm _ _ Hoff) as (fs & -> & Hnd & Hst).
  cbn [prop get].
  destruct (strict_eq (own fs "status") (VStr "pending")) eqn:Hp; [|done].
  apply strict_eq_str in Hp.
  cbn [negb set_prop fst snd view seqs].
  match goal with |- context [<[key := ?x]> (view m)] => set (accepted := x) end.
  assert (Inv {| seqs := seqs m; view := <[key := accepted]> (view m) |}) as Hm1.
  { eapply Inv_rewrite; [done | done | done | unfold accepted; stored
                        | unfold accepted; benign_set]. }
  set (v1 := <[key := accepted]> (view m)) in *.
  destruct (view_key rt (get entry "listingId")) as [lk|e] eqn:Hlk.
  2: { cbn [fst snd seqs]. intros _.
       apply (Inv_seqs _ _ Hm1); cbn [seqs offerSeq dealSeq]; [lia | apply incr_le]. }
  cbn [fst snd].
  assert (forall l o deal,
            get deal "listingId" = JSON_stringify (get entry "listingId") ->
            get deal "offerId" = JSON_stringify (get entry "offerId") ->
            get deal "listingId" = VStr l -> get deal "offerId" = VStr o ->
            closed v1 (l ++ ":" ++ o) /\ forall j, ~ deal_pair v1 j l o) as Hnew.
  { intros l o deal -> -> Hl%JSON_stringify_str Ho%JSON_stringify_str.
    rewrite Hl, Ho in Hkey. cbn in Hkey. injection Hkey as <-.
    split.
    - exists accepted. unfold v1. rewrite lookup_insert_eq. split; [done|].
      unfold accepted. not_pending.
    - intros j Hj. unfold v1 in Hj.
      apply (deal_pair_rewrite _ _ (VObj fs)) in Hj; [|done|unfold accepted; benign_set].
      destruct (inv_deals _ Hm _ _ _ Hj) as (y & Hy & Hyp).
      rewrite Hoff in Hy. injection Hy as <-. by apply Hyp. }
  assert (v1 !! nextId "DEAL" (dealSeq (seqs m) + 1) = None) as Hfresh.
  { destruct (v1 !! _) as [y|] eqn:Hy; [|done].
    pose proof (inv_deal_ids _ Hm1 _ _ Hy) as Hle. cbn [seqs] in Hle. lia. }
  destruct (v1 !! lk) as [listing|] eqn:Hlst.
  - destruct (inv_ok _ Hm1 _ _ Hlst) as (ls & -> & Hnd' & Hst').
    cbn [prop get set_prop fst snd view seqs].
    intros [_ Hb]. cbn [dealSeq] in Hb. apply incr_bounded in Hb. rewrite Hb.
    assert (lk <> nextId "DEAL" (dealSeq (seqs m) + 1)) as Hne by congruence.
    match goal with |- context [<[nextId "DEAL" _ := ?x]> v1] => set (deal := x) end.
    match goal with |- Inv {| seqs := ?c; view := _ |} => set (c1 := c) end.
    set (m2 := {| seqs := c1; view := <[nextId "DEAL" (dealSeq (seqs m) + 1) := deal]> v1 |}).
    match goal with |- Inv {| seqs := _; view := <[lk := ?y]> _ |} =>
      change (Inv {| seqs := c1; view := <[lk := y]> (view m2) |})
    end.
    apply (Inv_rewrite m2 c1 lk (VObj ls));
      [ | done | cbn [view m2]; rewrite lookup_insert_ne by done; exact Hlst
        | stored | benign_set ].
    unfold m2, c1.
    apply (Inv_insert_deal {| seqs := seqs m; view := v1 |}); [done|done|done| |].
    + unfold deal. stored.
    + intros l o. apply Hnew; unfold deal; rewrite JSON_stringify_obj; cbn [get];
        rewrite own_stringify_props by keys_nodup; reflexivity.
  - cbn [prop get set_prop fst snd view seqs].
    intros [_ Hb]. cbn [dealSeq] in Hb. apply incr_bounded in Hb. rewrite Hb.
    match goal with |- context [<[nextId "DEAL" _ := ?x]> v1] => set (deal := x) end.
    apply (Inv_insert_deal {| seqs := seqs m; view := v1 |}); [done|done|done| |].
    + unfold deal. stored.
    + intros l o. apply Hnew; unfold deal; rewrite JSON_stringify_obj; cbn [get];
        rewrite own_stringify_props by keys_nodup; reflexivity.
Qed.

Lemma dispatch_mono op entry m : mono m (fst (dispatch rt op entry m)).
Proof.
  unfold dispatch.
  repeat match goal with
  | |- context [if String.eqb op ?s then _ else _] => destruct (String.eqb op s)
  end;
  first [ apply listing_post_mono | apply listing_update_mono | apply listing_remove_mono
        | apply offer_send_mono | apply offer_counter_mono | apply offer_accept_mono
        | apply offer_decline_mono | apply rule_set_mono | apply rule_delete_mono
        | split; reflexivity ].
Qed.

Lemma dispatch_inv op entry m :
  Inv m -> bounded (seqs (fst (dispatch rt op entry m))) -> Inv (fst (dispatch rt op entry m)).
Proof.
  unfold dispatch. intros Hm.
  repeat match goal with
  | |- context [if String.eqb op ?s then _ else _] => destruct (String.eqb op s)
  end; intros Hb;
  first [ by apply listing_post_inv | by apply listing_update_inv
        | by apply listing_remove_inv | by apply offer_send_inv
        | by apply offer_counter_inv | by apply offer_accept_inv
        | by apply offer_decline_inv | by apply rule_set_inv | by apply rule_delete_inv
        | exact Hm ].
Qed.

Lemma apply_node_mono node m : mono m (fst (apply_node rt node m)).
Proof.
  destruct node as [entry|]; [|split; reflexivity].
  unfold apply_node, bind, lift.
  destruct (prop entry "op") as [op|e]; [|split; reflexivity].
  destruct op; try (split; reflexivity). apply dispatch_mono.
Qed.

Lemma apply_node_inv node m :
  Inv m -> bounded (seqs (fst (apply_node rt node m))) -> Inv (fst (apply_node rt node m)).
Proof.
  intros Hm. destruct node as [entry|]; [|done].
  unfold apply_node, bind, lift.
  destruct (prop entry "op") as [op|e]; [|done].
  destruct op; try done. by apply dispatch_inv.
Qed.

Lemma mono_trans m1 m2 m3 : mono m1 m2 -> mono m2 m3 -> mono m1 m3.
Proof. intros [? ?] [? ?]. split; lia. Qed.

Lemma mono_bounded m1 m2 : mono m1 m2 -> bounded (seqs m2) -> bounded (seqs m1).
Proof. intros [? ?] [? ?]. split; lia. Qed.

Lemma apply_mono nodes m : mono m (fst (apply rt nodes m)).
Proof.
  revert m. induction nodes as [|node nodes IH]; intros m; [split; reflexivity|].
  cbn [apply]. unfold bind.
  pose proof (apply_node_mono node m) as H1.
  destruct (apply_node rt node m) as [m1 [[]|e]]; cbn [fst] in *; [|done].
  eapply mono_trans; [exact H1 | apply IH].
Qed.

Lemma apply_inv nodes m :
  Inv m -> bounded (seqs (fst (apply rt nodes m))) -> Inv (fst (apply rt nodes m)).
Proof.
  revert m. induction nodes as [|node nodes IH]; intros m Hm; [done|].
  cbn [apply]. unfold bind.
  pose proof (apply_node_inv node m Hm) as H1.
  destruct (apply_node rt node m) as [m1 [[]|e]]; cbn [fst] in *; [|done].
  intros Hb. apply IH; [|done].
  apply H1. eapply mono_bounded; [apply apply_mono | exact Hb].
Qed.

End Deals.

(** From the empty view and fresh counters, whatever the log, while the
    offer and deal counters stay below 2^53: two stored deals that reference
    the same listing id and offer id (both strings) are the same deal. *)
Theorem one_deal_per_offer rt nodes i j l o :
  let m := fst (apply rt nodes empty_mem) in
  bounded (seqs m) ->
  deal_pair (view m) i l o -> deal_pair (view m) j l o -> i = j.
Proof.
  intros m Hb. apply (inv_unique m). apply apply_inv; [apply Inv_empty | exact Hb].
Qed.

Lemma one_deal_per_offer_witness :
  bounded (seqs (fst (apply sample_runtime sale_log empty_mem))) /\
  deal_pair (view (fst (apply sample_runtime sale_log empty_mem))) 1 "LST-001" "OFR-001" /\
  (1 = 1)%N.
Proof.
  assert (bounded (seqs (fst (apply sample_runtime sale_log empty_mem)))) as Hb
    by (split; vm_compute; reflexivity).
  assert (deal_pair (view (fst (apply sample_runtime sale_log empty_mem)))
            1 "LST-001" "OFR-001") as Hd
    by (eexists; split; [vm_compute; reflexivity | split; vm_compute; reflexivity]).
  split; [exact Hb | split; [exact Hd |]].
  exact (one_deal_per_offer sample_runtime sale_log 1 1 "LST-001" "OFR-001" Hb Hd Hd).
Defined.

(** * The router and the agent *)

Import Notions.

Lemma apply_view_ok rt nodes m :
  view_ok (view m) -> view_ok (view (fst (apply rt nodes m))).
Proof.
  intros Hm.
  exact (proj1 (apply_ok rt false nodes (fun H => False_ind _ (Bool.diff_false_true H))
                  m Hm)).
Qed.

Import Router Protocol.

Lemma ok_field msg data : get (_ok msg data) "ok" = VBool true.
Proof. unfold _ok. destruct (truthy msg), (negb (strict_eq data VUndef)); reflexivity. Qed.

Ltac route_cases :=
  repeat match goal with
  | |- context [if String.eqb ?op ?s then _ else _] =>
      destruct (String.eqb_spec op s) as [->|?]
  end.

Ltac step :=
  match goal with
  | |- context [match ?x with _ => _ end] =>
      lazymatch x with
      | context [match _ with _ => _ end] => fail
      | _ => destruct x eqn:?
      end
  end.

Ltac run_handler :=
  unfold bind, lift, ret, base_append, sc_broadcast; cbn [appended broadcasts];
  repeat (step; cbn [negb orb andb appended broadcasts fst snd]).

Ltac finish cmd Hget :=
  lazymatch goal with
  | |- sends_one_or_nothing _ (_, Raise _) =>
      cbn [sends_one_or_nothing appended nothing app List.length]; lia
  | |- sends_one_or_nothing _ (_, Return (_err _)) => left; split; reflexivity
  | |- sends_one_or_nothing _ (_, Return (_ok _ _)) =>
      right; split; [apply ok_field|]; exists cmd; eexists;
      split; [reflexivity|]; split; [exact Hget|];
      cbn [is_read existsb String.eqb Ascii.eqb Bool.eqb orb];
      first [ reflexivity | eexists; split; reflexivity ]
  end.

Lemma ruleSet_shape address now cmd :
  _ruleSet address now cmd =
    ([], _err (VStr "rule_set: specify auto_buy_below, auto_accept_above, or auto_counter_ratio")) \/
  exists e msg, _ruleSet address now cmd = ([e], _ok msg VUndef) /\
                get e "op" = VStr "rule_set".
Proof.
  unfold _ruleSet.
  destruct (negb (strict_eq (get cmd "auto_buy_below") VUndef));
    [right; eexists _, _; split; reflexivity|].
  destruct (negb (strict_eq (get cmd "auto_accept_above") VUndef));
    [right; eexists _, _; split; reflexivity|].
  destruct (negb (strict_eq (get cmd "auto_counter_ratio") VUndef));
    [right; eexists _, _; split; reflexivity|].
  by left.
Qed.

(** What one call of [handle] sends.  When it replies [ok: false] it has
    sent nothing.  When it replies [ok: true] the command has an [op] that
    is a string: a read has sent nothing, every other operation has appended
    exactly one entry, whose [op] is the command's.  When it raises it has
    appended at most one entry. *)
Theorem handle_sends_one_entry_or_nothing rt address now v raw :
  match handle rt address now v raw nothing with
  | (o, Return reply) =>
      (get reply "ok" = VBool false /\ o = nothing) \/
      (get reply "ok" = VBool true /\
       exists cmd op, command_of raw = Some cmd /\ get cmd "op" = VStr op /\
         if is_read op then o = nothing
         else exists e, appended o = [e] /\ get e "op" = VStr op)
  | (o, Raise _) => (List.length (appended o) <= 1)%nat
  end.
Proof.
  change (sends_one_or_nothing (command_of raw) (handle rt address now v raw nothing)).
  unfold handle. fold (command_of raw).
  destruct (command_of raw) as [cmd|] eqn:Hcmd; [|left; done].
  unfold bind at 1, lift at 1.
  destruct (prop cmd "op") as [op|e] eqn:Hop; [|simpl; lia].
  assert (get cmd "op" = op) as Hget.
  { destruct cmd; try discriminate; by injection Hop. }
  destruct (truthy op) eqn:Htr; cbn [negb]; [|left; done].
  unfold route.
  assert (sends_one_or_nothing (Some cmd)
            (bind (lift (ToString rt op))
               (fun s => ret (_err (VStr ("Unknown op: " ++ s)))) nothing)) as Hunknown.
  { unfold bind, lift, ret. destruct (ToString rt op); [left; done|simpl; lia]. }
  destruct op as [| |b|x|op|xs|fs]; try apply Hunknown.
  route_cases; try apply Hunknown; clear Hunknown.
  all: unfold _listingPost, _listingUpdate, _listingRemove, _listingList, _listingGet,
    _dealGet, get_by_id, _offerSend, _offerCounter, _offerAccept, _offerDecline,
    _dealList, rule_set_command, _ruleList, _ruleDelete, deal_channel.
  all: try (destruct (ruleSet_shape address now cmd) as [->|(e & msg & -> & He)]).
  all: run_handler.
  all: try finish cmd Hget.
  right. split; [apply ok_field|]. exists cmd, "rule_set". 
  split; [done|]. split; [done|]. exists e. done.
Qed.

(** The entry [_ruleSet] appends, when it appends one. *)
Lemma ruleSet_entry address now cmd :
  _ruleSet address now cmd =
    ([], _err (VStr "rule_set: specify auto_buy_below, auto_accept_above, or auto_counter_ratio")) \/
  exists ruleType params msg,
    _ruleSet address now cmd =
      ([JSON_stringify (VObj [("op", VStr "rule_set"); ("ruleType", VStr ruleType);
                              ("params", params); ("owner", address);
                              ("ts", VNum now)])],
       _ok msg VUndef).
Proof.
  unfold _ruleSet.
  destruct (negb (strict_eq (get cmd "auto_buy_below") VUndef));
    [right; eexists _, _, _; reflexivity|].
  destruct (negb (strict_eq (get cmd "auto_accept_above") VUndef));
    [right; eexists _, _, _; reflexivity|].
  destruct (negb (strict_eq (get cmd "auto_counter_ratio") VUndef));
    [right; eexists _, _, _; reflexivity|].
  by left.
Qed.

Ltac unfold_handlers :=
  unfold _listingPost, _listingUpdate, _listingRemove, _listingList, _listingGet,
    _dealGet, get_by_id, _offerSend, _offerCounter, _offerAccept, _offerDecline,
    _dealList, rule_set_command, _ruleList, _ruleDelete, deal_channel.

(** The field [f] of an entry built from the property list [fs]. *)
Lemma entry_field fs f :
  NoDup fs.*1 -> get (JSON_stringify (VObj fs)) f = JSON_stringify (own fs f).
Proof. intros H. rewrite JSON_stringify_obj. cbn [get]. by apply own_stringify_props. Qed.

Ltac entry_fields :=
  rewrite !entry_field by keys_nodup;
  cbn [own String.eqb Ascii.eqb Bool.eqb JSON_stringify].

(** Whatever the command says, the identity an entry carries is the router's
    own address and its time is the router's clock. *)
Theorem entries_carry_the_router_address rt address now v raw :
  Forall (fun e =>
            Forall (fun f => get e f = VUndef \/ get e f = JSON_stringify address)
              ["seller"; "buyer"; "by"; "owner"] /\
            get e "ts" = JSON_stringify (VNum now))
    (appended (fst (handle rt address now v raw nothing))).
Proof.
  change (Forall (stamped address now) (appended (fst (handle rt address now v raw nothing)))).
  unfold handle.
  destruct (match raw with Text parsed => parsed | Direct cmd => Some cmd end)
    as [cmd|]; [|constructor].
  unfold bind at 1, lift at 1.
  destruct (prop cmd "op") as [op|e]; [|constructor].
  destruct (truthy op); cbn [negb]; [|constructor].
  unfold route.
  assert (Forall (stamped address now)
            (appended (fst (bind (lift (ToString rt op))
               (fun s => ret (_err (VStr ("Unknown op: " ++ s)))) nothing)))) as Hunknown.
  { unfold bind, lift, ret. destruct (ToString rt op); constructor. }
  destruct op as [| |b|x|op|xs|fs]; try apply Hunknown.
  route_cases; try apply Hunknown; clear Hunknown.
  all: unfold_handlers.
  all: try (destruct (ruleSet_entry address now cmd) as [->|(ruleType & params & msg & ->)]).
  all: run_handler.
  all: cbn [appended nothing app fst].
  all: try (constructor; fail).
  all: apply Forall_singleton; split;
    [repeat (apply Forall_cons; split; [entry_fields; auto|]); constructor
    |entry_fields; reflexivity].
Qed.

Lemma well_keyed_entry fs :
  well_keyed (Some (JSON_stringify (VObj fs))) =
  match get (JSON_stringify (VObj fs)) "op" with
  | VStr op => forallb (fun f => is_string (get (JSON_stringify (VObj fs)) f)) (key_fields op)
  | _ => true
  end.
Proof. reflexivity. Qed.

Lemma JSON_stringify_string s : JSON_stringify (VStr s) = VStr s.
Proof. reflexivity. Qed.

Ltac entry_strings :=
  rewrite ?entry_field by keys_nodup;
  cbn [own String.eqb Ascii.eqb Bool.eqb];
  rewrite ?JSON_stringify_string.

Lemma truthy_string x :
  truthy x = true -> string_or_absent x = true -> exists s, x = VStr s.
Proof. destruct x; try discriminate; eauto. Qed.

Lemma string_command_entries rt a now v raw :
  string_ids raw = true ->
  forallb well_keyed
    (map Some (appended (fst (handle rt (VStr a) now v raw nothing)))) = true.
Proof.
  unfold string_ids, handle. fold (command_of raw).
  destruct (command_of raw) as [cmd|]; [|done].
  cbn [forallb]. intros H.
  apply andb_prop in H as [Hid H]. apply andb_prop in H as [Hl H].
  apply andb_prop in H as [Ho H]. apply andb_prop in H as [Hr _].
  unfold bind at 1, lift at 1.
  destruct (prop cmd "op") as [op|e]; [|done].
  destruct (truthy op); cbn [negb]; [|done].
  unfold route.
  assert (forallb well_keyed (map Some
            (appended (fst (bind (lift (ToString rt op))
               (fun s => ret (_err (VStr ("Unknown op: " ++ s)))) nothing)))) = true)
    as Hunknown.
  { unfold bind, lift, ret. by destruct (ToString rt op). }
  destruct op as [| |b|x|op|xs|fs]; try apply Hunknown.
  route_cases; try apply Hunknown; clear Hunknown.
  all: unfold_handlers.
  all: try (destruct (ruleSet_entry (VStr a) now cmd) as [->|(ruleType & params & msg & ->)]).
  all: run_handler.
  all: cbn [appended nothing app fst map forallb].
  all: try reflexivity.
  all: rewrite andb_true_r, well_keyed_entry; entry_strings;
    cbn [key_fields String.eqb Ascii.eqb Bool.eqb forallb].
  all: try reflexivity.
  all: repeat match goal with
       | H : negb (truthy ?x) = false |- _ =>
           apply negb_false_iff in H;
           first [ destruct (truthy_string x H Hid) as [? ->]
                 | destruct (truthy_string x H Hl) as [? ->]
                 | destruct (truthy_string x H Ho) as [? ->]
                 | destruct (truthy_string x H Hr) as [? ->]
                 | clear H ]
       | H : negb (truthy ?x) || negb (truthy ?y) = false |- _ =>
           apply orb_false_elim in H as [? ?]
       end.
  all: entry_strings; reflexivity.
Qed.

(** A log that routers wrote from commands whose ids are strings is applied
    without a fault, from every well-formed view. *)
Theorem router_logs_apply_without_fault rt calls m :
  Forall (fun c => string_ids (command c) = true) calls ->
  view_ok (view m) ->
  exists m', apply rt (log_of rt calls) m = (m', Return tt) /\ view_ok (view m').
Proof.
  intros Hc Hm.
  assert (forallb well_keyed (log_of rt calls) = true) as Hk.
  { unfold log_of. induction Hc as [|c calls Hcmd _ IH]; [done|].
    cbn [flat_map]. rewrite forallb_app, IH, andb_true_r.
    by apply string_command_entries. }
  destruct (apply_ok rt true (log_of rt calls) (fun _ => Hk) m Hm) as [Hv Hr].
  destruct (apply rt (log_of rt calls) m) as [m' [[]|e]]; [eauto|done].
Qed.

Lemma router_logs_apply_without_fault_witness :
  Forall (fun c => string_ids (command c) = true) sample_calls /\
  exists m', apply sample_runtime (log_of sample_runtime sample_calls) empty_mem
             = (m', Return tt) /\ view_ok (view m').
Proof.
  assert (Forall (fun c => string_ids (command c) = true) sample_calls) as H
    by (repeat constructor).
  split; [exact H|].
  exact (router_logs_apply_without_fault sample_runtime sample_calls empty_mem H
           view_ok_empty).
Defined.

Lemma has_own_defined fs k : own fs k <> VUndef -> has_own fs k = true.
Proof.
  induction fs as [|[k' x] fs IH]; simpl; [done|].
  destruct (String.eqb_spec k' k); [done|auto].
Qed.

Lemma has_own_stringify_props fs k :
  JSON_stringify (own fs k) <> VUndef -> has_own (stringify_props fs) k = true.
Proof.
  intros H. apply has_own_defined.
  rewrite own_stringify_props_defined; [done|].
  intros E. by rewrite E in H.
Qed.

(** An [offer_send] command whose [listing_id] is an object with a property
    [toString] (as the JSON text [{"toString":1}] gives): the router appends
    its entry and then raises, and [apply] raises at that entry from every
    state, with the view as it was: no entry after it is applied. *)
Theorem object_listing_id_stops_apply rt address now v cmd fs x :
  get cmd "op" = VStr "offer_send" ->
  get cmd "listing_id" = VObj fs ->
  JSON_stringify (own fs "toString") <> VUndef ->
  get cmd "amount" = VNum x ->
  exists e,
    handle rt address now v (Direct cmd) nothing =
      ({| appended := [e]; broadcasts := [] |}, Raise TypeError) /\
    forall nodes m,
      snd (apply rt (Some e :: nodes) m) = Raise TypeError /\
      view (fst (apply rt (Some e :: nodes) m)) = view m.
Proof.
  intros Hop Hl Hts Hx. eexists. split.
  - unfold handle, bind at 1, lift at 1.
    assert (prop cmd "op" = Return (VStr "offer_send")) as ->.
    { destruct cmd; try discriminate. by rewrite <- Hop. }
    cbn [truthy negb String.eqb Ascii.eqb Bool.eqb route].
    unfold _offerSend, deal_channel. rewrite Hl, Hx.
    cbn [truthy negb is_number ToString].
    rewrite has_own_defined; [reflexivity|].
    intros E. by rewrite E in Hts.
  - intros nodes m.
    match goal with |- context [apply rt (Some ?e :: _) _] => set (entry := e) end.
    assert (exists c, apply_node rt (Some entry) m =
                        ({| seqs := c; view := view m |}, Raise TypeError)) as [c Hnode].
    { rewrite (apply_node_dispatch _ _ "offer_send") by (by unfold entry; entry_strings).
      cbn [dispatch String.eqb Ascii.eqb Bool.eqb].
      unfold offer_send, Contract.bind, next_offer, Contract.lift, colon_key, entry.
      rewrite entry_field by keys_nodup. cbn [own String.eqb Ascii.eqb Bool.eqb].
      rewrite JSON_stringify_obj. cbn [ToString].
      rewrite has_own_stringify_props by done. eauto. }
    cbn [apply]. unfold Contract.bind. by rewrite Hnode.
Qed.

Lemma object_listing_id_stops_apply_witness :
  exists e,
    handle sample_runtime (VStr "B") 2000 ∅ (Direct odd_offer_command) nothing =
      ({| appended := [e]; broadcasts := [] |}, Raise TypeError) /\
    forall nodes m,
      snd (apply sample_runtime (Some e :: nodes) m) = Raise TypeError /\
      view (fst (apply sample_runtime (Some e :: nodes) m)) = view m.
Proof.
  apply (object_listing_id_stops_apply sample_runtime (VStr "B") 2000 ∅
           odd_offer_command [("toString", VNum 1)] 5);
    [reflexivity | reflexivity | vm_compute; discriminate | reflexivity].
Defined.

(** ** The read stream *)

#[local] Instance key_le_trans : Transitive key_le.
Proof. intros a b c. unfold key_le. apply transitivity. Qed.

#[local] Instance key_le_total : Total key_le.
Proof. intros a b. unfold key_le. apply total. apply _. Qed.

Lemma elem_of_createReadStream (v : View) k x :
  (k, x) ∈ createReadStream v <-> v !! k = Some x.
Proof.
  unfold createReadStream. rewrite merge_sort_Permutation.
  apply elem_of_map_to_list.
Qed.

Lemma createReadStream_sorted (v : View) : StronglySorted key_le (createReadStream v).
Proof. apply StronglySorted_merge_sort; apply _. Qed.

Lemma createReadStream_NoDup (v : View) : NoDup (createReadStream v).*1.
Proof.
  unfold createReadStream. rewrite merge_sort_Permutation.
  apply NoDup_fst_map_to_list.
Qed.

Lemma createReadStream_empty : createReadStream ∅ = [].
Proof. reflexivity. Qed.

Lemma createReadStream_singleton k (x : value) : createReadStream {[k := x]} = [(k, x)].
Proof.
  apply Permutation_singleton_r. unfold createReadStream.
  rewrite merge_sort_Permutation. by rewrite map_to_list_singleton.
Qed.

(** ** [listing_list] *)

Lemma reached_at_20 rt : reached_at rt (VNum 20) 20.
Proof.
  intros k [H1 H2].
  do 21 (destruct k as [|k]; [first [lia | vm_compute; reflexivity]|]). lia.
Qed.

Lemma reached_at_10 rt : reached_at rt (VNum 10) 10.
Proof.
  intros k [H1 H2].
  do 11 (destruct k as [|k]; [first [lia | vm_compute; reflexivity]|]). lia.
Qed.

Lemma reached_at_1 rt limit :
  js_ge rt (VNum 1) limit = Return true -> reached_at rt limit 1.
Proof. intros H k [H1 H2]. assert (k = 1)%nat as -> by lia. exact H. Qed.

Lemma view_ok_objects (v : View) :
  view_ok v -> Forall (fun e => is_object e.2 = true) (createReadStream v).
Proof.
  intros Hv. apply Forall_forall. intros [k x] Hin%elem_of_createReadStream.
  by destruct (Hv _ _ Hin) as (fs & -> & _).
Qed.

Section Reads.

Context (rt : Runtime) (address : value).

Lemma listingList_loop_cons limit category mine key fs stream results :
  _listingList_loop rt address limit category VUndef mine ((key, VObj fs) :: stream) results =
  if listing_matches address category mine (key, VObj fs) then
    match js_ge rt (VNum (float_of_Z (Z.of_nat (List.length (results ++ [VObj fs])%list))))
            limit with
    | Raise e => Raise e
    | Return true => Return (results ++ [VObj fs])%list
    | Return false =>
        _listingList_loop rt address limit category VUndef mine stream (results ++ [VObj fs])%list
    end
  else _listingList_loop rt address limit category VUndef mine stream results.
Proof.
  cbn [_listingList_loop]. unfold listing_matches. cbn [fst snd prop get].
  destruct (String.prefix "LST-" key); cbn [negb andb]; [|done].
  destruct (strict_eq (own fs "status") (VStr "active")); cbn [negb andb]; [|done].
  destruct (truthy category); cbn [negb andb orb];
    [destruct (strict_eq (own fs "category") category); cbn [negb andb]; [|done]|];
    (destruct (truthy mine); cbn [negb andb orb];
     [destruct (strict_eq (own fs "seller") address); cbn [negb]; done|done]).
Qed.

Lemma listingList_loop_take limit category mine n stream results :
  reached_at rt limit n -> (List.length results < n)%nat ->
  Forall (fun e => is_object e.2 = true) stream ->
  _listingList_loop rt address limit category VUndef mine stream results =
    Return (take n (results ++ (List.filter (listing_matches address category mine) stream).*2)%list).
Proof.
  intros Hlim. revert results.
  induction stream as [|[key listing] stream IH]; intros results Hlen Hobj.
  - cbn. rewrite app_nil_r. by rewrite take_ge by lia.
  - apply Forall_cons in Hobj as [Hobj Hrest]. cbn [snd] in Hobj.
    destruct listing as [| | | | | |fs]; try discriminate.
    rewrite listingList_loop_cons. cbn [List.filter].
    destruct (listing_matches address category mine (key, VObj fs)); [|by apply IH].
    rewrite Hlim by (rewrite length_app; cbn; lia).
    rewrite length_app. cbn [List.length fmap list_fmap snd].
    destruct (Nat.leb_spec n (List.length results + 1)) as [Hn|Hn].
    + rewrite (cons_middle (VObj fs) results (snd <$> _)), app_assoc.
      rewrite take_app_le by (rewrite ?length_app; cbn; lia).
      by rewrite take_ge by (rewrite ?length_app; cbn; lia).
    + rewrite IH; [|rewrite length_app; cbn; lia|done].
      by rewrite (cons_middle (VObj fs) results (snd <$> _)), app_assoc.
Qed.

End Reads.

Lemma handle_op rt address now v cmd op o :
  get cmd "op" = VStr op -> op <> "" ->
  handle rt address now v (Direct cmd) o = route rt address now v (VStr op) cmd o.
Proof.
  intros Hop Hne. unfold handle, bind at 1, lift at 1.
  assert (prop cmd "op" = Return (VStr op)) as ->.
  { destruct cmd; try discriminate. by rewrite <- Hop. }
  cbn [truthy]. destruct (String.eqb_spec op ""); [done|reflexivity].
Qed.

Lemma listing_list_take rt address now v cmd n :
  view_ok v ->
  get cmd "op" = VStr "listing_list" ->
  get cmd "max_price" = VUndef ->
  reached_at rt (default (get cmd "limit") (VNum 20)) n -> (1 <= n)%nat ->
  handle rt address now v (Direct cmd) nothing =
    (nothing,
     Return (_ok VNull (VArr (take n
       (List.filter (listing_matches address (get cmd "category") (get cmd "mine"))
          (createReadStream v)).*2)))).
Proof.
  intros Hv Hop Hmax Hlim Hn.
  rewrite (handle_op _ _ _ _ _ "listing_list") by done.
  cbn [route String.eqb Ascii.eqb Bool.eqb].
  unfold _listingList, bind, lift, ret. rewrite Hmax.
  rewrite (listingList_loop_take _ _ _ _ _ n); [done|done|simpl; lia|].
  by apply view_ok_objects.
Qed.

(** Without [limit] and [max_price], [listing_list] replies the first twenty
    active listings that pass the [category] and [mine] filters, in ascending
    byte order of their keys. *)
Theorem listing_list_first_twenty rt address now v cmd :
  view_ok v ->
  get cmd "op" = VStr "listing_list" ->
  get cmd "limit" = VUndef ->
  get cmd "max_price" = VUndef ->
  handle rt address now v (Direct cmd) nothing =
    (nothing,
     Return (_ok VNull (VArr (take 20
       (List.filter (listing_matches address (get cmd "category") (get cmd "mine"))
          (createReadStream v)).*2)))).
Proof.
  intros Hv Hop Hlimit Hmax. apply listing_list_take; try done; [|lia].
  rewrite Hlimit. apply reached_at_20.
Qed.

Lemma listing_list_first_twenty_witness :
  view_ok two_listings /\
  handle sample_runtime (VStr "B") 7000 two_listings (Direct list_command) nothing =
    (nothing,
     Return (_ok VNull (VArr (take 20
       (List.filter (listing_matches (VStr "B") VUndef VUndef)
          (createReadStream two_listings)).*2)))).
Proof.
  assert (view_ok two_listings) as H by (apply apply_view_ok, view_ok_empty).
  split; [exact H|].
  exact (listing_list_first_twenty sample_runtime (VStr "B") 7000 two_listings
           list_command H eq_refl eq_refl eq_refl).
Defined.

(** The limit is tested after a listing is kept: a [limit] that the length 1
    already reaches (0, a negative number, [null]) gives the first match, not
    an empty list. *)
Theorem listing_list_low_limit_returns_one rt address now v cmd :
  view_ok v ->
  get cmd "op" = VStr "listing_list" ->
  get cmd "max_price" = VUndef ->
  js_ge rt (VNum 1) (get cmd "limit") = Return true ->
  handle rt address now v (Direct cmd) nothing =
    (nothing,
     Return (_ok VNull (VArr (take 1
       (List.filter (listing_matches address (get cmd "category") (get cmd "mine"))
          (createReadStream v)).*2)))).
Proof.
  intros Hv Hop Hmax Hlim. apply listing_list_take; [done|done|done| |lia].
  apply reached_at_1. destruct (get cmd "limit"); try done.
Qed.

Lemma listing_list_low_limit_returns_one_witness :
  view_ok two_listings /\
  js_ge sample_runtime (VNum 1) (VNum 0) = Return true /\
  handle sample_runtime (VStr "B") 7000 two_listings (Direct list_none_command) nothing =
    (nothing,
     Return (_ok VNull (VArr (take 1
       (List.filter (listing_matches (VStr "B") VUndef VUndef)
          (createReadStream two_listings)).*2)))).
Proof.
  assert (view_ok two_listings) as H by (apply apply_view_ok, view_ok_empty).
  split; [exact H|]. split; [reflexivity|].
  exact (listing_list_low_limit_returns_one sample_runtime (VStr "B") 7000 two_listings
           list_none_command H eq_refl eq_refl eq_refl).
Defined.

(** ** Active records are listings *)

Lemma active_inv_empty : active_inv ∅.
Proof. split; [apply view_ok_empty|]. intros k x H. by rewrite lookup_empty in H. Qed.

Lemma active_insert (v : View) k gs :
  active_inv v ->
  stored_ok (JSON_stringify (VObj gs)) -> NoDup gs.*1 ->
  (own gs "status" = VStr "active" -> listing_record k (JSON_stringify (VObj gs))) ->
  active_inv (<[k := JSON_stringify (VObj gs)]> v).
Proof.
  intros [Hv Ha] Hs Hnd Hnew. split; [by apply view_ok_insert|].
  intros k0 x Hx Hst. destruct (decide (k = k0)) as [<-|Hne].
  - rewrite lookup_insert_eq in Hx.
    assert (x = JSON_stringify (VObj gs)) as -> by congruence.
    apply Hnew. rewrite entry_field in Hst by done. by apply JSON_stringify_str.
  - rewrite lookup_insert_ne in Hx by done. by apply Ha.
Qed.

Lemma active_rewrite (v : View) k fs gs :
  active_inv v -> v !! k = Some (VObj fs) ->
  stored_ok (JSON_stringify (VObj gs)) -> NoDup gs.*1 ->
  (own gs "status" = VStr "active" -> own fs "status" = VStr "active") ->
  own gs "id" = own fs "id" ->
  active_inv (<[k := JSON_stringify (VObj gs)]> v).
Proof.
  intros Hv Hk Hs Hnd Hst Hid. apply active_insert; try done.
  intros Hact. destruct (proj2 Hv _ _ Hk (Hst Hact)) as (j & -> & Hj).
  exists j. split; [done|]. rewrite entry_field by done. rewrite Hid.
  cbn [get] in Hj. by rewrite Hj.
Qed.

Ltac set_nodup := repeat apply set_own_NoDup; first [done | keys_nodup].

Ltac rewrites_inactive :=
  eapply active_rewrite;
  [ done | done | stored | set_nodup
  | own_set'; first [ done | discriminate | intros _; discriminate ]
  | by own_set' ].

Ltac inserts_inactive :=
  apply active_insert;
  [ done | stored | keys_nodup
  | cbn [own String.eqb Ascii.eqb Bool.eqb]; discriminate ].

Section Active.

Context (rt : Runtime).

Lemma listing_post_active entry m :
  active_inv (view m) -> active_inv (view (fst (listing_post rt entry m))).
Proof.
  intros Hm. unfold listing_post, Contract.bind, next_listing, view_put.
  cbn [view_key fst snd view seqs].
  apply active_insert; [done | stored | keys_nodup |].
  intros _. eexists. split; [reflexivity|]. by entry_strings.
Qed.

Lemma listing_update_active entry m :
  active_inv (view m) -> active_inv (view (fst (listing_update rt entry m))).
Proof.
  intros Hm. unfold listing_update, Contract.bind, view_get, view_put, Contract.lift, Contract.ret.
  destruct (view_key rt (get entry "id")) as [s|e]; [|done]. cbn [fst snd].
  destruct (view m !! s) as [listing|] eqn:Hl; [|done].
  destruct (proj1 Hm _ _ Hl) as (fs & -> & Hnd & Hst).
  cbn [prop get fst snd].
  destruct (negb (strict_eq (own fs "seller") (get entry "seller"))); [done|].
  destruct (negb (strict_eq (get entry "price") VUndef));
    destruct (negb (strict_eq (get entry "desc") VUndef));
    cbn [set_prop fst snd view seqs]; rewrites_inactive.
Qed.

Lemma listing_remove_active entry m :
  active_inv (view m) -> active_inv (view (fst (listing_remove rt entry m))).
Proof.
  intros Hm. unfold listing_remove, Contract.bind, view_get, view_put, Contract.lift, Contract.ret.
  destruct (view_key rt (get entry "id")) as [s|e]; [|done]. cbn [fst snd].
  destruct (view m !! s) as [listing|] eqn:Hl; [|done].
  destruct (proj1 Hm _ _ Hl) as (fs & -> & Hnd & Hst).
  cbn [prop get fst snd].
  destruct (negb (strict_eq (own fs "seller") (get entry "seller"))); [done|].
  cbn [set_prop fst snd view seqs]. rewrites_inactive.
Qed.

Lemma offer_send_active entry m :
  active_inv (view m) -> active_inv (view (fst (offer_send rt entry m))).
Proof.
  intros Hm. unfold offer_send, Contract.bind, next_offer, view_put, Contract.lift.
  destruct (colon_key rt _ _) as [key|e] eqn:Hkey; cbn [view_key fst snd view seqs]; [|done].
  inserts_inactive.
Qed.

Lemma offer_counter_active entry m :
  active_inv (view m) -> active_inv (view (fst (offer_counter rt entry m))).
Proof.
  intros Hm. unfold offer_counter, Contract.bind, view_get, view_put, Contract.lift, Contract.ret.
  destruct (colon_key rt _ _) as [key|e]; [|done].
  cbn [view_key fst snd].
  destruct (view m !! key) as [offer|] eqn:Hoff; [|done].
  destruct (proj1 Hm _ _ Hoff) as (fs & -> & Hnd & Hst).
  cbn [prop get].
  destruct (strict_eq (own fs "status") (VStr "pending")) eqn:Hp; [|done].
  apply strict_eq_str in Hp. destruct (Hst Hp) as [xs Hxs].
  cbn [negb set_prop fst snd].
  erewrite history_push_obj by (own_set'; exact Hxs).
  cbn [set_prop fst snd view seqs]. rewrites_inactive.
Qed.

Lemma offer_decline_active entry m :
  active_inv (view m) -> active_inv (view (fst (offer_decline rt entry m))).
Proof.
  intros Hm. unfold offer_decline, Contract.bind, view_get, view_put, Contract.lift, Contract.ret.
  destruct (colon_key rt _ _) as [key|e]; [|done].
  cbn [view_key fst snd].
  destruct (view m !! key) as [offer|] eqn:Hoff; [|done].
  destruct (proj1 Hm _ _ Hoff) as (fs & -> & Hnd & Hst).
  cbn [prop get].
  destruct (negb (strict_eq (own fs "status") (VStr "pending"))); [done|].
  cbn [set_prop fst snd view seqs]. rewrites_inactive.
Qed.

Lemma rule_set_active entry m :
  active_inv (view m) -> active_inv (view (fst (rule_set rt entry m))).
Proof.
  intros Hm. unfold rule_set, rule_key, Contract.bind, next_rule, view_put, Contract.lift.
  destruct (colon_key rt _ _) as [key|e] eqn:Hkey; cbn [view_key fst snd view seqs]; [|done].
  inserts_inactive.
Qed.

Lemma rule_delete_active entry m :
  active_inv (view m) -> active_inv (view (fst (rule_delete rt entry m))).
Proof.
  intros Hm. unfold rule_delete, rule_key, Contract.bind, view_get, view_put, Contract.lift, Contract.ret.
  destruct (colon_key rt _ _) as [key|e]; [|done].
  cbn [view_key fst snd].
  destruct (view m !! ("rule:" ++ key)) as [rule|] eqn:Hoff; [|done].
  destruct (proj1 Hm _ _ Hoff) as (fs & -> & Hnd & Hst).
  cbn [prop get].
  destruct (negb (strict_eq (own fs "owner") (get entry "owner"))); [done|].
  cbn [set_prop fst snd view seqs]. rewrites_inactive.
Qed.

Lemma offer_accept_active entry m :
  active_inv (view m) -> active_inv (view (fst (offer_accept rt entry m))).
Proof.
  intros Hm. unfold offer_accept, Contract.bind, view_get, view_put, next_deal, Contract.lift, Contract.ret.
  destruct (colon_key rt _ _) as [key|e] eqn:Hkey; [|done].
  cbn [view_key fst snd].
  destruct (view m !! key) as [offer|] eqn:Hoff; [|done].
  destruct (proj1 Hm _ _ Hoff) as (fs & -> & Hnd & Hst).
  cbn [prop get].
  destruct (strict_eq (own fs "status") (VStr "pending")) eqn:Hp; [|done].
  cbn [negb set_prop fst snd view seqs].
  match goal with |- context [<[key := ?x]> (view m)] => set (accepted := x) end.
  assert (active_inv (<[key := accepted]> (view m))) as Hm1.
  { unfold accepted. rewrites_inactive. }
  set (v1 := <[key := accepted]> (view m)) in *.
  destruct (view_key rt (get entry "listingId")) as [lk|e] eqn:Hlk; [|done].
  cbn [fst snd].
  destruct (v1 !! lk) as [listing|] eqn:Hlst.
  - destruct (proj1 Hm1 _ _ Hlst) as (ls & -> & Hnd' & Hst').
    cbn [prop get set_prop fst snd view seqs].
    match goal with |- context [<[nextId "DEAL" ?n := ?x]> v1] =>
      set (deal := x); set (dk := nextId "DEAL" n) end.
    assert (active_inv (<[dk := deal]> v1)) as Hm2.
    { unfold deal. inserts_inactive. }
    destruct (decide (dk = lk)) as [<-|Hne].
    + rewrite insert_insert_eq.
      eapply active_rewrite; [exact Hm1 | exact Hlst | stored | set_nodup
        | own_set'; discriminate | by own_set' ].
    + eapply active_rewrite; [done | by rewrite lookup_insert_ne | stored | set_nodup
        | own_set'; discriminate | by own_set' ].
  - cbn [prop get set_prop fst snd view seqs]. inserts_inactive.
Qed.

Lemma dispatch_active op entry m :
  active_inv (view m) -> active_inv (view (fst (dispatch rt op entry m))).
Proof.
  unfold dispatch. intros Hm.
  repeat match goal with
  | |- context [if String.eqb op ?s then _ else _] => destruct (String.eqb op s)
  end;
  first [ by apply listing_post_active | by apply listing_update_active
        | by apply listing_remove_active | by apply offer_send_active
        | by apply offer_counter_active | by apply offer_accept_active
        | by apply offer_decline_active | by apply rule_set_active
        | by apply rule_delete_active | exact Hm ].
Qed.

Lemma apply_node_active node m :
  active_inv (view m) -> active_inv (view (fst (apply_node rt node m))).
Proof.
  intros Hm. destruct node as [entry|]; [|done].
  unfold apply_node, Contract.bind, Contract.lift.
  destruct (prop entry "op") as [op|e]; [|done].
  destruct op; try done. by apply dispatch_active.
Qed.

Lemma apply_active nodes m :
  active_inv (view m) -> active_inv (view (fst (apply rt nodes m))).
Proof.
  revert m. induction nodes as [|node nodes IH]; intros m Hm; [done|].
  cbn [apply]. unfold Contract.bind.
  pose proof (apply_node_active node m Hm) as H1.
  destruct (apply_node rt node m) as [m1 [[]|e]]; cbn [fst] in *; [|done].
  by apply IH.
Qed.

End Active.

Lemma listingList_loop_sound rt address limit category max_price mine stream results rs :
  _listingList_loop rt address limit category max_price mine stream results = Return rs ->
  exists extra, rs = (results ++ extra)%list /\
    Forall (fun r => exists k, (k, r) ∈ stream /\
              get r "status" = VStr "active" /\
              (truthy category = true -> strict_eq (get r "category") category = true) /\
              (truthy mine = true -> strict_eq (get r "seller") address = true))
      extra.
Proof.
  revert results. induction stream as [|[key listing] stream IH]; intros results H.
  - injection H as <-. exists []. by rewrite app_nil_r.
  - assert (forall results,
              _listingList_loop rt address limit category max_price mine stream results
                = Return rs ->
              exists extra, rs = (results ++ extra)%list /\
                Forall (fun r => exists k, (k, r) ∈ (key, listing) :: stream /\
                          get r "status" = VStr "active" /\
                          (truthy category = true ->
                           strict_eq (get r "category") category = true) /\
                          (truthy mine = true ->
                           strict_eq (get r "seller") address = true)) extra) as IH'.
    { intros res Hres. destruct (IH _ Hres) as (extra & -> & Hall).
      exists extra. split; [done|]. eapply Forall_impl; [exact Hall|].
      intros r (k & Hin & Hr). exists k. split; [by right|done]. }
    cbn [_listingList_loop] in H.
    destruct (String.prefix "LST-" key); cbn [negb] in H; [|by apply IH'].
    destruct (prop listing "status") as [status|] eqn:Hstatus; [|done].
    destruct (strict_eq status (VStr "active")) eqn:Hact; cbn [negb] in H; [|by apply IH'].
    apply strict_eq_str in Hact. subst status.
    assert (get listing "status" = VStr "active") as Hst.
    { destruct listing; try discriminate; by injection Hstatus. }
    destruct (truthy category && negb (strict_eq (get listing "category") category))
      eqn:Hcat; [by apply IH'|].
    destruct (if negb (strict_eq max_price VUndef)
              then js_gt rt (get listing "price") max_price else Return false)
      as [[]|]; [by apply IH'| |done].
    destruct (truthy mine && negb (strict_eq (get listing "seller") address))
      eqn:Hmine; [by apply IH'|].
    assert (exists k, (k, listing) ∈ (key, listing) :: stream /\
              get listing "status" = VStr "active" /\
              (truthy category = true ->
               strict_eq (get listing "category") category = true) /\
              (truthy mine = true -> strict_eq (get listing "seller") address = true))
      as Hthis.
    { exists key. split; [by left|]. split; [done|]. split.
      - intros Ht. rewrite Ht in Hcat. by apply negb_false_iff in Hcat.
      - intros Ht. rewrite Ht in Hmine. by apply negb_false_iff in Hmine. }
    destruct (js_ge rt _ limit) as [[]|]; [| |done].
    + injection H as <-. exists [listing]. split; [done|]. by apply Forall_singleton.
    + destruct (IH' _ H) as (extra & -> & Hall).
      exists (listing :: extra). split; [by rewrite <- app_assoc|].
      by apply Forall_cons.
Qed.

(** On a view that [apply] built from the empty view, whatever the log and
    the command: every record [listing_list] replies is a listing, stored
    under a listing id that is its own [id], with status ['active'], and of
    the caller when [mine] is set.  Offers, deals and rules share the keys
    but are never listed. *)
Theorem listing_list_returns_only_listings rt nodes address now cmd o reply :
  let v := view (fst (apply rt nodes empty_mem)) in
  get cmd "op" = VStr "listing_list" ->
  handle rt address now v (Direct cmd) nothing = (o, Return reply) ->
  exists rs, get reply "data" = VArr rs /\
    Forall (fun r => exists j,
              v !! nextId "LST" j = Some r /\
              get r "id" = VStr (nextId "LST" j) /\
              get r "status" = VStr "active" /\
              (truthy (get cmd "mine") = true ->
               strict_eq (get r "seller") address = true)) rs.
Proof.
  intros v Hop. rewrite (handle_op _ _ _ _ _ "listing_list") by done.
  cbn [route String.eqb Ascii.eqb Bool.eqb].
  unfold _listingList, bind, lift, ret.
  destruct (_listingList_loop _ _ _ _ _ _ _ _) as [rs|e] eqn:Hloop; [|done].
  intros [= <- <-]. exists rs. split; [done|].
  destruct (listingList_loop_sound _ _ _ _ _ _ _ _ _ Hloop) as (extra & -> & Hall).
  cbn [app]. eapply Forall_impl; [exact Hall|].
  intros r (k & Hin%elem_of_createReadStream & Hst & _ & Hmine).
  assert (active_inv v) as [_ Ha].
  { apply apply_active. apply active_inv_empty. }
  destruct (Ha _ _ Hin Hst) as (j & -> & Hid). eauto.
Qed.

Lemma listing_list_returns_only_listings_witness :
  let v := view (fst (apply sample_runtime [Some post_keyboard; Some post_mouse]
                        empty_mem)) in
  handle sample_runtime (VStr "S") 7000 v (Direct list_mine_command) nothing =
    (nothing, Return (_ok VNull (VArr [stored_keyboard]))) /\
  exists rs, get (_ok VNull (VArr [stored_keyboard])) "data" = VArr rs /\
    Forall (fun r => exists j,
              v !! nextId "LST" j = Some r /\
              get r "id" = VStr (nextId "LST" j) /\
              get r "status" = VStr "active" /\
              (truthy (get list_mine_command "mine") = true ->
               strict_eq (get r "seller") (VStr "S") = true)) rs.
Proof.
  cbv zeta.
  assert (handle sample_runtime (VStr "S") 7000
            (view (fst (apply sample_runtime [Some post_keyboard; Some post_mouse]
                          empty_mem)))
            (Direct list_mine_command) nothing =
          (nothing, Return (_ok VNull (VArr [stored_keyboard])))) as H
    by (vm_compute; reflexivity).
  split; [exact H|].
  exact (listing_list_returns_only_listings sample_runtime
           [Some post_keyboard; Some post_mouse] (VStr "S") 7000 list_mine_command
           nothing _ eq_refl H).
Defined.

(** ** A JSON text prints to itself *)

Lemma value_nested_ind (P : value -> Prop) :
  P VUndef -> P VNull -> (forall b, P (VBool b)) -> (forall x, P (VNum x)) ->
  (forall s, P (VStr s)) ->
  (forall xs, Forall P xs -> P (VArr xs)) ->
  (forall fs, Forall (fun p => P p.2) fs -> P (VObj fs)) ->
  forall v, P v.
Proof.
  intros Hu Hn Hb Hx Hs Ha Ho. fix IH 1.
  intros [| |b|x|s|xs|fs];
    [exact Hu | exact Hn | apply Hb | apply Hx | apply Hs | | ].
  - apply Ha. induction xs as [|x xs IHxs]; constructor; [apply IH|exact IHxs].
  - apply Ho. induction fs as [|[k x] fs IHfs]; constructor; [apply IH|exact IHfs].
Qed.

Lemma JSON_stringify_array xs : JSON_stringify (VArr xs) = VArr (stringify_elems xs).
Proof. reflexivity. Qed.

Lemma JSON_stringify_idem v : JSON_stringify (JSON_stringify v) = JSON_stringify v.
Proof.
  induction v as [| |b|x|s|xs IH|fs IH] using value_nested_ind; try reflexivity.
  - cbn [JSON_stringify].
    destruct (is_nan x || is_infinity x) eqn:E1; [reflexivity|].
    destruct (PrimFloat.eqb x 0) eqn:E2; [reflexivity|].
    cbn [JSON_stringify]. by rewrite E1, E2.
  - rewrite !JSON_stringify_array. f_equal.
    induction IH as [|x xs Hx _ IHxs]; [reflexivity|].
    cbn [stringify_elems]. rewrite IHxs. f_equal.
    destruct (JSON_stringify x) eqn:E; try reflexivity; by rewrite Hx.
  - rewrite !JSON_stringify_obj. f_equal.
    induction IH as [|[k x] fs Hx _ IHfs]; [reflexivity|].
    cbn [stringify_props snd] in *.
    destruct (JSON_stringify x) eqn:E; [exact IHfs|..];
      cbn [stringify_props]; rewrite Hx, IHfs; reflexivity.
Qed.

(** A [listing_post] command with a title and a price that is a number not
    below zero: the router appends one entry; once [apply] has applied it,
    [listing_get] with the id [apply] assigned replies the listing, with the
    command's title and price, the router's address as seller and its clock
    as creation time, and status ['active'].  [deal_get] with that id replies
    the same record. *)
Theorem posted_listing_is_read_back rt address now v cmd x m reader now' :
  get cmd "op" = VStr "listing_post" ->
  truthy (get cmd "title") = true ->
  get cmd "price" = VNum x -> PrimFloat.ltb x 0 = false ->
  exists e bc r m',
    handle rt address now v (Direct cmd) nothing =
      ({| appended := [e]; broadcasts := [("tracmarket", bc)] |},
       Return (_ok (VStr "Listing posted to tracmarket channel") VUndef)) /\
    apply rt [Some e] m = (m', Return tt) /\
    let id := nextId "LST" (incr (listingSeq (seqs m))) in
    (forall op, op = "listing_get" \/ op = "deal_get" ->
       handle rt reader now' (view m')
         (Direct (VObj [("op", VStr op); ("id", VStr id)])) nothing =
       (nothing, Return (_ok VNull r))) /\
    get r "id" = VStr id /\
    get r "title" = JSON_stringify (get cmd "title") /\
    get r "price" = JSON_stringify (VNum x) /\
    get r "seller" = JSON_stringify address /\
    get r "createdAt" = JSON_stringify (VNum now) /\
    get r "status" = VStr "active".
Proof.
  intros Hop Htitle Hprice Hx. eexists _, _, _, _. split; [|split].
  - rewrite (handle_op _ _ _ _ _ "listing_post") by done.
    cbn [route String.eqb Ascii.eqb Bool.eqb].
    unfold _listingPost, bind, lift, ret, base_append, sc_broadcast.
    rewrite Htitle, Hprice. cbn [negb is_number]. rewrite js_lt_num, Hx.
    reflexivity.
  - cbn [apply]. unfold Contract.bind.
    rewrite (apply_node_dispatch _ _ "listing_post") by (by entry_strings).
    cbn [dispatch String.eqb Ascii.eqb Bool.eqb].
    unfold listing_post, Contract.bind, next_listing, view_put.
    cbn [view_key fst snd view seqs]. reflexivity.
  - cbn zeta. split.
    + intros op [-> | ->]; (rewrite (handle_op _ _ _ _ _ _) by done);
        cbn [route String.eqb Ascii.eqb Bool.eqb];
        unfold _listingGet, _dealGet, get_by_id, bind, lift, ret;
        cbn [get own String.eqb Ascii.eqb Bool.eqb truthy negb view_key view];
        rewrite lookup_insert_eq; reflexivity.
    + rewrite !entry_field by keys_nodup.
      cbn [own String.eqb Ascii.eqb Bool.eqb].
      rewrite ?entry_field by keys_nodup.
      cbn [own String.eqb Ascii.eqb Bool.eqb].
      rewrite !JSON_stringify_idem. done.
Qed.

Lemma posted_listing_is_read_back_witness :
  exists e bc r m',
    handle sample_runtime (VStr "S") 1000 ∅ (Direct post_command) nothing =
      ({| appended := [e]; broadcasts := [("tracmarket", bc)] |},
       Return (_ok (VStr "Listing posted to tracmarket channel") VUndef)) /\
    apply sample_runtime [Some e] empty_mem = (m', Return tt) /\
    let id := nextId "LST" (incr (listingSeq (seqs empty_mem))) in
    (forall op, op = "listing_get" \/ op = "deal_get" ->
       handle sample_runtime (VStr "B") 2000 (view m')
         (Direct (VObj [("op", VStr op); ("id", VStr id)])) nothing =
       (nothing, Return (_ok VNull r))) /\
    get r "id" = VStr id /\
    get r "title" = JSON_stringify (get post_command "title") /\
    get r "price" = JSON_stringify (VNum 120) /\
    get r "seller" = JSON_stringify (VStr "S") /\
    get r "createdAt" = JSON_stringify (VNum 1000) /\
    get r "status" = VStr "active".
Proof.
  apply (posted_listing_is_read_back sample_runtime (VStr "S") 1000 ∅ post_command 120
           empty_mem (VStr "B") 2000); reflexivity.
Defined.

(** ** [deal_list] *)

Lemma append_assoc (a b c : string) : (a ++ b) ++ c = a ++ b ++ c.
Proof.
  induction a as [|x a IH]; [reflexivity|].
  change (String x ((a ++ b) ++ c) = String x (a ++ b ++ c)). by f_equal.
Qed.

Lemma prefix_append p s : String.prefix p (p ++ s) = true.
Proof.
  induction p as [|c p IH]; [change ("" ++ s) with s; by destruct s|].
  change (String.prefix (String c p) (String c (p ++ s)) = true).
  cbn [String.prefix]. destruct (ascii_dec c c); [exact IH|done].
Qed.

(** [deal_list] keeps every value whose key starts with [DEAL-]: after an
    [offer_send] command for a listing id that starts with [DEAL-], applied
    to an empty view, it replies the pending offer as if it were a deal. *)
Theorem deal_list_lists_offer_on_deal_like_listing rt a now v cmd s x c reader now' query :
  get cmd "op" = VStr "offer_send" ->
  get cmd "listing_id" = VStr ("DEAL-" ++ s) ->
  get cmd "amount" = VNum x ->
  get query "op" = VStr "deal_list" ->
  get query "limit" = VUndef ->
  truthy (get query "mine") = false ->
  exists e bc r m',
    handle rt (VStr a) now v (Direct cmd) nothing =
      ({| appended := [e]; broadcasts := [bc] |}, Return (_ok (VStr "Offer sent") VUndef)) /\
    apply rt [Some e] {| seqs := c; view := ∅ |} = (m', Return tt) /\
    handle rt reader now' (view m') (Direct query) nothing =
      (nothing, Return (_ok VNull (VArr [r]))) /\
    get r "id" = VStr (nextId "OFR" (incr (offerSeq c))) /\
    get r "listingId" = VStr ("DEAL-" ++ s) /\
    get r "buyer" = VStr a /\
    get r "status" = VStr "pending".
Proof.
  intros Hop Hl Hx Hq Hlimit Hmine. eexists _, _, _, _. split; [|split; [|split]].
  - rewrite (handle_op _ _ _ _ _ "offer_send") by done.
    cbn [route String.eqb Ascii.eqb Bool.eqb].
    unfold _offerSend, deal_channel, bind, lift, ret, base_append, sc_broadcast.
    rewrite Hl, Hx. cbn [negb is_number truthy String.eqb Ascii.eqb Bool.eqb append ToString].
    reflexivity.
  - cbn [apply]. unfold Contract.bind.
    rewrite (apply_node_dispatch _ _ "offer_send") by (by entry_strings).
    cbn [dispatch String.eqb Ascii.eqb Bool.eqb].
    unfold offer_send, Contract.bind, next_offer, view_put, Contract.lift, colon_key.
    entry_strings.
    cbn [ToString view_key fst snd view seqs].
    reflexivity.
  - rewrite (handle_op _ _ _ _ _ "deal_list") by done.
    cbn [route String.eqb Ascii.eqb Bool.eqb].
    unfold _dealList, bind, lift, ret. rewrite Hlimit. cbn [default view].
    rewrite insert_empty, createReadStream_singleton.
    cbn [_dealList_loop]. rewrite append_assoc, prefix_append, Hmine.
    cbn [negb app List.length]. rewrite (reached_at_10 rt 1) by lia.
    reflexivity.
  - entry_strings. done.
Qed.

Lemma deal_list_lists_offer_on_deal_like_listing_witness :
  exists e bc r m',
    handle sample_runtime (VStr "B") 2000 ∅ (Direct deal_like_offer_command) nothing =
      ({| appended := [e]; broadcasts := [bc] |},
       Return (_ok (VStr "Offer sent") VUndef)) /\
    apply sample_runtime [Some e] {| seqs := fresh; view := ∅ |} = (m', Return tt) /\
    handle sample_runtime (VStr "S") 3000 (view m') (Direct deal_list_command) nothing =
      (nothing, Return (_ok VNull (VArr [r]))) /\
    get r "id" = VStr (nextId "OFR" (incr (offerSeq fresh))) /\
    get r "listingId" = VStr ("DEAL-" ++ "001") /\
    get r "buyer" = VStr "B" /\
    get r "status" = VStr "pending".
Proof.
  apply (deal_list_lists_offer_on_deal_like_listing sample_runtime "B" 2000 ∅
           deal_like_offer_command "001" 5 fresh (VStr "S") 3000 deal_list_command);
    reflexivity.
Defined.

(** ** [rule_list] *)

Lemma ascii_compare_refl c : Ascii.compare c c = Eq.
Proof. unfold Ascii.compare. apply N.compare_refl. Qed.

Lemma leb_empty k : String.leb "" k = true.
Proof. by destruct k. Qed.

(** The keys between [p] and [p] followed by [hi] are those made of [p] and
    a rest that [hi] bounds. *)
Lemma range_iff p hi k :
  String.leb p k && String.leb k (p ++ hi) = true <->
  exists rest, k = p ++ rest /\ String.leb rest hi = true.
Proof.
  revert k. induction p as [|c p IH]; intros k.
  - rewrite leb_empty. cbn [andb append]. split; [eauto|by intros (rest & -> & ?)].
  - destruct k as [|c' k].
    + split; [done|]. by intros (rest & ? & _).
    + change (String c p ++ hi) with (String c (p ++ hi)).
      unfold String.leb. cbn [String.compare].
      rewrite (Ascii.compare_antisym c c').
      destruct (Ascii.compare c' c) eqn:E; cbn [CompOpp].
      * apply Ascii.compare_eq_iff in E as ->.
        fold (String.leb p k). fold (String.leb k (p ++ hi)). rewrite IH.
        split; intros (rest & H & ?); exists rest; split; try done.
        -- change (String c k = String c (p ++ rest)). by f_equal.
        -- change (String c k = String c (p ++ rest)) in H. by injection H.
      * split; [done|]. intros (rest & H & _).
        change (String c' k = String c (p ++ rest)) in H. injection H as -> _.
        by rewrite ascii_compare_refl in E.
      * split; [by rewrite andb_false_r|]. intros (rest & H & _).
        change (String c' k = String c (p ++ rest)) in H. injection H as -> _.
        by rewrite ascii_compare_refl in E.
Qed.

Lemma ruleList_loop_objects stream results :
  Forall (fun e => is_object e.2 = true) stream ->
  _ruleList_loop stream results =
    Return (results ++
            (List.filter (fun e => negb (truthy (get e.2 "deleted"))) stream).*2)%list.
Proof.
  revert results. induction stream as [|[key rule] stream IH]; intros results Hobj.
  - cbn. by rewrite app_nil_r.
  - apply Forall_cons in Hobj as [Hobj Hrest]. cbn [snd] in Hobj.
    destruct rule as [| | | | | |fs]; try discriminate.
    cbn [_ruleList_loop List.filter prop get snd]. rewrite IH by done.
    destruct (negb (truthy (own fs "deleted"))); [|done].
    cbn [fmap list_fmap snd]. by rewrite (cons_middle (VObj fs) results (snd <$> _)), app_assoc.
Qed.

(** [rule_list] on the peer [a] replies exactly the values that are stored
    under a key made of [rule:a:] and a rest that [\xff] bounds, and whose
    [deleted] is not truthy. *)
Theorem rule_list_replies_the_keys_under_the_prefix rt a now v cmd :
  view_ok v ->
  get cmd "op" = VStr "rule_list" ->
  exists rs,
    handle rt (VStr a) now v (Direct cmd) nothing =
      (nothing, Return (_ok VNull (VArr rs))) /\
    forall r, r ∈ rs <->
      exists rest, v !! ("rule:" ++ a ++ ":" ++ rest) = Some r /\
                   String.leb rest xff = true /\
                   truthy (get r "deleted") = false.
Proof.
  intros Hv Hop. eexists. split.
  - rewrite (handle_op _ _ _ _ _ "rule_list") by done.
    cbn [route String.eqb Ascii.eqb Bool.eqb].
    unfold _ruleList, bind, lift, ret. cbn [ToString].
    rewrite ruleList_loop_objects; [reflexivity|].
    unfold createReadStream_range.
    apply Forall_forall. intros e He%list_elem_of_In%filter_In.
    destruct He as [He%list_elem_of_In _].
    pose proof (view_ok_objects v Hv) as Hall.
    rewrite Forall_forall in Hall. by apply Hall.
  - intros r. cbn [app]. rewrite list_elem_of_fmap. split.
    + intros ([k x] & -> & Hin%list_elem_of_In%filter_In).
      destruct Hin as [Hin%filter_In Hdel]. destruct Hin as [Hin%list_elem_of_In Hrange].
      apply elem_of_createReadStream in Hin. cbn [fst snd] in *.
      apply range_iff in Hrange as (rest & -> & Hrest).
      exists rest. rewrite !append_assoc in Hin. cbn [append] in Hin |- *.
      split; [done|]. split; [done|]. by apply negb_true_iff.
    + intros (rest & Hin & Hrest & Hdel).
      exists ("rule:" ++ a ++ ":" ++ rest, r). split; [done|].
      apply list_elem_of_In, filter_In. split; [|cbn [snd]; by rewrite Hdel].
      apply filter_In. split; [by apply list_elem_of_In, elem_of_createReadStream|].
      cbn [fst]. apply range_iff. exists rest. split; [|done].
      rewrite !append_assoc. reflexivity.
Qed.

Lemma rule_list_replies_the_keys_under_the_prefix_witness :
  view_ok seller_view /\
  exists rs,
    handle sample_runtime (VStr "S") 4000 seller_view (Direct rule_list_command) nothing =
      (nothing, Return (_ok VNull (VArr rs))) /\
    forall r, r ∈ rs <->
      exists rest, seller_view !! ("rule:" ++ "S" ++ ":" ++ rest) = Some r /\
                   String.leb rest xff = true /\
                   truthy (get r "deleted") = false.
Proof.
  assert (view_ok seller_view) as H by (apply apply_view_ok, view_ok_empty).
  split; [exact H|].
  exact (rule_list_replies_the_keys_under_the_prefix sample_runtime "S" 4000 seller_view
           rule_list_command H eq_refl).
Defined.

Lemma length_append (a b : string) :
  String.length (a ++ b) = (String.length a + String.length b)%nat.
Proof.
  induction a as [|x a IH]; [reflexivity|].
  change (S (String.length (a ++ b)) = S (String.length a + String.length b)).
  by rewrite IH.
Qed.

Lemma append_cancel_r (a b t : string) : a ++ t = b ++ t -> a = b.
Proof.
  revert b. induction a as [|x a IH]; intros [|y b] H; [done| | |].
  - apply (f_equal String.length) in H. rewrite !length_append in H. simpl in H. lia.
  - apply (f_equal String.length) in H. rewrite !length_append in H. simpl in H. lia.
  - change (String x (a ++ t) = String y (b ++ t)) in H. injection H as -> H.
    f_equal. by apply IH.
Qed.

(** A rule's way through the router and [apply], on an empty view: the entry
    a [rule_set] command appends is stored under the next rule id; from then
    on the owner's [rule_list] replies the rule, with the type and the
    parameters of the entry.  A [rule_delete] command for that id issued on
    the owner's peer takes it off the list; issued on any other peer it
    changes nothing. *)
Theorem rule_is_listed_until_its_owner_deletes_it
    rt a now v cmd e bs reply c now1 b now2 v2 :
  get cmd "op" = VStr "rule_set" ->
  handle rt (VStr a) now v (Direct cmd) nothing =
    ({| appended := [e]; broadcasts := bs |}, Return reply) ->
  let id := nextId "RULE" (incr (ruleSeq c)) in
  let listed m :=
    handle rt (VStr a) now1 (view m) (Direct rule_list_command) nothing in
  exists r m1 e2 m2,
    apply rt [Some e] {| seqs := c; view := ∅ |} = (m1, Return tt) /\
    listed m1 = (nothing, Return (_ok VNull (VArr [r]))) /\
    get r "id" = VStr id /\ get r "owner" = VStr a /\
    get r "type" = get e "ruleType" /\ get r "params" = get e "params" /\
    handle rt (VStr b) now2 v2 (Direct (rule_delete_command id)) nothing =
      ({| appended := [e2]; broadcasts := [] |},
       Return (_ok (VStr ("Rule " ++ id ++ " deleted")) VUndef)) /\
    apply rt [Some e2] m1 = (m2, Return tt) /\
    (b = a -> listed m2 = (nothing, Return (_ok VNull (VArr [])))) /\
    (b <> a -> listed m2 = (nothing, Return (_ok VNull (VArr [r])))).
Proof.
  intros Hop Hh id listed.
  rewrite (handle_op _ _ _ _ _ "rule_set") in Hh by done.
  cbn [route String.eqb Ascii.eqb Bool.eqb] in Hh. unfold rule_set_command in Hh.
  destruct (ruleSet_entry (VStr a) now cmd) as [E|(ruleType & params & msg & E)];
    rewrite E in Hh; [discriminate|]. clear E.
  match type of Hh with context [JSON_stringify ?x] => set (entry := x) in Hh end.
  assert (e = JSON_stringify entry) as -> by (cbn [appended nothing app] in Hh; congruence).
  clear Hh. set (E := JSON_stringify entry).
  set (key := "rule:" ++ a ++ ":" ++ id).
  set (r := JSON_stringify (VObj [("id", VStr id); ("owner", VStr a);
                                  ("type", get E "ruleType");
                                  ("params", get E "params");
                                  ("createdAt", get E "ts")])).
  set (c1 := {| listingSeq := listingSeq c; offerSeq := offerSeq c;
                dealSeq := dealSeq c; ruleSeq := incr (ruleSeq c) |}).
  set (m1 := {| seqs := c1; view := {[key := r]} |}).
  set (e2 := JSON_stringify (VObj [("op", VStr "rule_delete"); ("ruleId", VStr id);
                                   ("owner", VStr b); ("ts", VNum now2)])).
  assert (get E "owner" = VStr a) as Howner by (by unfold E, entry; entry_strings).
  assert (forall x : value,
            createReadStream_range {[key := x]} ("rule:" ++ a ++ ":")
              (("rule:" ++ a ++ ":") ++ xff) = [(key, x)]) as Hrange.
  { intros x. unfold createReadStream_range. rewrite createReadStream_singleton.
    cbn [List.filter fst].
    assert (String.leb ("rule:" ++ a ++ ":") key &&
            String.leb key (("rule:" ++ a ++ ":") ++ xff) = true) as ->; [|done].
    apply range_iff. exists id. split; [|reflexivity].
    unfold key. by rewrite !append_assoc. }
  assert (forall x : value, is_object x = true ->
            handle rt (VStr a) now1 {[key := x]} (Direct rule_list_command) nothing =
              (nothing, Return (_ok VNull (VArr
                 (if truthy (get x "deleted") then [] else [x]))))) as Hlist.
  { intros x Hx. rewrite (handle_op _ _ _ _ _ "rule_list") by done.
    cbn [route String.eqb Ascii.eqb Bool.eqb].
    unfold _ruleList, bind, lift, ret. cbn [ToString]. rewrite Hrange.
    destruct x; try discriminate. cbn [_ruleList_loop prop get].
    by destruct (truthy (own fields "deleted")). }
  assert (get r "deleted" = VUndef) as Hdel by (by unfold r; entry_strings).
  exists r, m1, e2.
  exists (if decide (b = a)
          then {| seqs := c1;
                  view := {[key := JSON_stringify
                              (VObj (set_own (stringify_props
                                  [("id", VStr id); ("owner", VStr a);
                                   ("type", get E "ruleType");
                                   ("params", get E "params");
                                   ("createdAt", get E "ts")]) "deleted" (VBool true)))]} |}
          else m1).
  split; [|split; [|split; [|split; [|split; [|split; [|split; [|split; [|split]]]]]]]].
  - cbn [apply]. unfold Contract.bind.
    rewrite (apply_node_dispatch _ _ "rule_set") by (by unfold E, entry; entry_strings).
    cbn [dispatch String.eqb Ascii.eqb Bool.eqb].
    unfold rule_set, rule_key, Contract.bind, next_rule, view_put, Contract.lift, colon_key.
    rewrite Howner. cbn [ToString view_key fst snd view seqs].
    rewrite insert_empty. reflexivity.
  - unfold listed. cbn [view m1]. rewrite Hlist by done. by rewrite Hdel.
  - by unfold r; entry_strings.
  - by unfold r; entry_strings.
  - unfold r. rewrite entry_field by keys_nodup. cbn [own String.eqb Ascii.eqb Bool.eqb].
    unfold E, entry. rewrite entry_field by keys_nodup. by rewrite JSON_stringify_idem.
  - unfold r. rewrite entry_field by keys_nodup. cbn [own String.eqb Ascii.eqb Bool.eqb].
    unfold E, entry. rewrite entry_field by keys_nodup. by rewrite JSON_stringify_idem.
  - rewrite (handle_op _ _ _ _ _ "rule_delete") by done.
    cbn [route String.eqb Ascii.eqb Bool.eqb].
    unfold _ruleDelete, bind, lift, ret, base_append.
    cbn [rule_delete_command get own String.eqb Ascii.eqb Bool.eqb]. reflexivity.
  - cbn [apply]. unfold Contract.bind.
    rewrite (apply_node_dispatch _ _ "rule_delete") by (by unfold e2; entry_strings).
    cbn [dispatch String.eqb Ascii.eqb Bool.eqb].
    unfold rule_delete, rule_key, Contract.bind, view_get, view_put, Contract.lift,
      Contract.ret, colon_key.
    unfold e2. entry_strings. cbn [ToString view_key fst snd view m1].
    destruct (decide (b = a)) as [->|Hne].
    + fold key. rewrite lookup_singleton_eq. unfold r. rewrite JSON_stringify_obj.
      cbn [prop get]. rewrite own_stringify_props by keys_nodup.
      cbn [own String.eqb Ascii.eqb Bool.eqb].
      cbn [JSON_stringify strict_eq]. rewrite String.eqb_refl.
      cbn [negb set_prop fst snd view seqs m1]. by rewrite insert_singleton_eq.
    + rewrite lookup_singleton_ne; [done|].
      unfold key. intros Heq. apply Hne.
      change ("rule:" ++ (a ++ ":" ++ id) = "rule:" ++ (b ++ ":" ++ id)) in Heq.
      apply append_cancel in Heq. symmetry. by apply (append_cancel_r _ _ (":" ++ id)).
  - intros ->. rewrite decide_True by done. unfold listed. cbn [view].
    rewrite Hlist by done. rewrite entry_field.
    + by rewrite own_set_own_eq.
    + apply set_own_NoDup, stringify_props_NoDup. keys_nodup.
  - intros Hne. rewrite decide_False by done. unfold listed. cbn [view m1].
    rewrite Hlist by done. by rewrite Hdel.
Qed.

Lemma rule_is_listed_until_its_owner_deletes_it_witness :
  handle sample_runtime (VStr "S") 500 ∅ (Direct ratio_command) nothing =
    ({| appended := [ratio_entry]; broadcasts := [] |},
     Return (_ok (VStr "Rule set: auto_counter") VUndef)) /\
  let id := nextId "RULE" (incr (ruleSeq fresh)) in
  let listed m :=
    handle sample_runtime (VStr "S") 600 (view m) (Direct rule_list_command) nothing in
  exists r m1 e2 m2,
    apply sample_runtime [Some ratio_entry] {| seqs := fresh; view := ∅ |}
      = (m1, Return tt) /\
    listed m1 = (nothing, Return (_ok VNull (VArr [r]))) /\
    get r "id" = VStr id /\ get r "owner" = VStr "S" /\
    get r "type" = get ratio_entry "ruleType" /\
    get r "params" = get ratio_entry "params" /\
    handle sample_runtime (VStr "B") 700 ∅ (Direct (rule_delete_command id)) nothing =
      ({| appended := [e2]; broadcasts := [] |},
       Return (_ok (VStr ("Rule " ++ id ++ " deleted")) VUndef)) /\
    apply sample_runtime [Some e2] m1 = (m2, Return tt) /\
    ("B" = "S" -> listed m2 = (nothing, Return (_ok VNull (VArr [])))) /\
    ("B" <> "S" -> listed m2 = (nothing, Return (_ok VNull (VArr [r])))).
Proof.
  assert (handle sample_runtime (VStr "S") 500 ∅ (Direct ratio_command) nothing =
            ({| appended := [ratio_entry]; broadcasts := [] |},
             Return (_ok (VStr "Rule set: auto_counter") VUndef))) as H
    by (vm_compute; reflexivity).
  split; [exact H|].
  exact (rule_is_listed_until_its_owner_deletes_it sample_runtime "S" 500 ∅ ratio_command
           ratio_entry [] _ fresh 600 "B" 700 ∅ eq_refl H).
Defined.

(** ** What [handle] sends is added to what was sent *)

Lemma after_nothing o : after o nothing = o.
Proof. destruct o. unfold after. cbn. by rewrite !app_nil_r. Qed.

Lemma after_assoc o1 o2 o3 : after (after o1 o2) o3 = after o1 (after o2 o3).
Proof. unfold after. cbn. by rewrite !app_assoc. Qed.

Lemma nothing_after o : after nothing o = o.
Proof. by destruct o. Qed.

Lemma framed_ret {T} (a : T) : framed (ret a).
Proof. intros o. unfold ret. cbn. by rewrite after_nothing. Qed.

Lemma framed_lift {T} (r : outcome T) : framed (lift r).
Proof. intros o. unfold lift. cbn. by rewrite after_nothing. Qed.

Lemma framed_append x : framed (base_append x).
Proof. intros o. unfold base_append, after. cbn. by rewrite app_nil_r. Qed.

Lemma framed_broadcast ch x : framed (sc_broadcast ch x).
Proof. intros o. unfold sc_broadcast, after. cbn. by rewrite app_nil_r. Qed.

Lemma framed_bind {T U} (c : P T) (k : T -> P U) :
  framed c -> (forall a, framed (k a)) -> framed (bind c k).
Proof.
  intros Hc Hk o. unfold bind. rewrite (Hc o).
  destruct (c nothing) as [o1 [a|e]]; cbn [fst snd]; [|done].
  rewrite (Hk a (after o o1)), (Hk a o1). cbn [fst snd].
  by rewrite after_assoc.
Qed.

Ltac framed_tac :=
  repeat first
    [ apply framed_ret | apply framed_lift | apply framed_append
    | apply framed_broadcast | apply framed_bind; [|intros ?]
    | match goal with
      | |- framed (if ?b then _ else _) => destruct b
      | |- framed (match ?x with _ => _ end) => destruct x
      end ].

Lemma framed_handle rt address now v raw : framed (handle rt address now v raw).
Proof.
  unfold handle.
  destruct (match raw with Text parsed => parsed | Direct cmd => Some cmd end)
    as [cmd|]; [|apply framed_ret].
  apply framed_bind; [apply framed_lift|]. intros op.
  destruct (negb (truthy op)); [apply framed_ret|].
  unfold route.
  assert (framed (bind (lift (ToString rt op))
                    (fun s => ret (_err (VStr ("Unknown op: " ++ s)))))) as Hunknown
    by framed_tac.
  destruct op as [| |b|x|op|xs|fs]; try apply Hunknown.
  route_cases; try apply Hunknown; clear Hunknown; unfold_handlers; try framed_tac.
  intros o. destruct (_ruleSet address now cmd) as [entries reply]. unfold after.
  cbn. by rewrite app_nil_r.
Qed.

(** A call that sends nothing from an empty outbox sends nothing. *)
Lemma handle_sends_nothing rt address now v raw o r :
  handle rt address now v raw nothing = (nothing, r) ->
  handle rt address now v raw o = (o, r).
Proof. intros H. rewrite framed_handle, H. cbn. by rewrite after_nothing. Qed.

(** ** The rule engine on the router's notifications *)

Import Agent.

Lemma evalAcceptRules_command rt lg rules listingId offerMsg c :
  Market._evalAcceptRules rt lg rules listingId offerMsg = Return (Some c) ->
  (get c "op" = VStr "offer_accept" \/ get c "op" = VStr "offer_counter") /\
  get c "listing_id" = VStr listingId /\
  get c "offer_id" = get offerMsg "offerId".
Proof.
  induction rules as [|rule rules IH]; [done|].
  cbn [Market._evalAcceptRules].
  destruct (Market.scoped rule "auto_accept" listingId) as [is_accept|]; [|done].
  destruct (if is_accept then _ else _) as [[]|];
    [intros [= <-]; split; [by left|done]| |done].
  destruct (Market.scoped rule "auto_counter" listingId) as [[]|]; [|exact IH|done].
  unfold Market.counter_branch.
  destruct (prop _ "ok") as [ok|]; [|done].
  destruct (negb (truthy ok)); [exact IH|].
  destruct (prop _ "price") as [price|]; [|done].
  destruct (js_mul _ _ _) as [x|]; [|done].
  destruct (js_lt _ _ _) as [[]|];
    [intros [= <-]; split; [by right|done]|intros [= <-]; split; [by left|done]|done].
Qed.

Lemma console_log_state rt parts p : (console_log rt parts p).1 = p.
Proof.
  induction parts as [|x parts IH]; [done|].
  cbn [console_log]. unfold Agent.bind, Agent.lift.
  destruct (ToString rt x); [exact IH|done].
Qed.

Lemma handle_without_offer_id rt address now v c o :
  get c "op" = VStr "offer_accept" \/ get c "op" = VStr "offer_counter" ->
  get c "offer_id" = VUndef ->
  exists reply, handle rt address now v (Direct c) o = (o, Return reply) /\
                get reply "ok" = VBool false.
Proof.
  intros Hop Hid.
  destruct Hop as [Hop|Hop]; eexists; (split; [apply handle_sends_nothing|]).
  - rewrite (handle_op _ _ _ _ _ "offer_accept") by done.
    cbn [route String.eqb Ascii.eqb Bool.eqb]. unfold _offerAccept.
    rewrite Hid. cbn [truthy negb]. rewrite orb_true_r. reflexivity.
  - reflexivity.
  - rewrite (handle_op _ _ _ _ _ "offer_counter") by done.
    cbn [route String.eqb Ascii.eqb Bool.eqb]. unfold _offerCounter.
    rewrite Hid. cbn [truthy negb]. rewrite orb_true_r. reflexivity.
  - reflexivity.
Qed.

Lemma protocol_handle_read rt address Date_now view_at cmd p r :
  handle rt address (float_of_Z (Date_now (steps p))) (view_at (steps p))
    (Direct cmd) nothing = (nothing, r) ->
  protocol_handle rt address Date_now view_at cmd p =
    ({| knownListings := knownListings p; dealTimestamps := dealTimestamps p;
        joined := joined p; sent := sent p; steps := S (steps p) |}, r).
Proof.
  intros H. unfold protocol_handle. by rewrite (handle_sends_nothing _ _ _ _ _ _ _ H).
Qed.

Lemma rule_list_sends_nothing rt address now v :
  exists r, handle rt address now v (Direct (VObj [("op", VStr "rule_list")])) nothing
            = (nothing, r).
Proof.
  rewrite (handle_op _ _ _ _ _ "rule_list") by done.
  cbn [route String.eqb Ascii.eqb Bool.eqb].
  unfold _ruleList, Protocol.bind, Protocol.lift, Protocol.ret.
  destruct (ToString rt address) as [s|]; [|eexists; reflexivity].
  destruct (_ruleList_loop (createReadStream_range v ("rule:" ++ s ++ ":")
                              (("rule:" ++ s ++ ":") ++ xff)) []);
    eexists; reflexivity.
Qed.

(** The [OFFER_SENT] message the router broadcasts for an [offer_send]
    command carries no offer id (the id is assigned when the entry is
    applied).  So whatever the rules and the view, the command the rule
    engine issues for it lacks [offer_id] and the router rejects it: handling
    the message sends nothing, in agent mode or not. *)
Theorem router_offer_is_never_auto_accepted
    rt a now v cmd e ch bc reply agent agentMode Date_now view_at from p :
  get cmd "op" = VStr "offer_send" ->
  handle rt a now v (Direct cmd) nothing =
    ({| appended := [e]; broadcasts := [(ch, bc)] |}, Return reply) ->
  sent (sc_message rt agent agentMode Date_now view_at ch (Some bc) from p).1 = sent p.
Proof.
  intros Hop Hh.
  rewrite (handle_op _ _ _ _ _ "offer_send") in Hh by done.
  cbn [route String.eqb Ascii.eqb Bool.eqb] in Hh.
  unfold _offerSend, deal_channel, Protocol.bind, Protocol.lift, Protocol.ret,
    base_append, sc_broadcast in Hh.
  destruct (negb (truthy (get cmd "listing_id"))); [discriminate|].
  destruct (negb (is_number (get cmd "amount"))); [discriminate|].
  destruct (ToString rt (get cmd "listing_id")) as [s|]; [|discriminate].
  cbn [appended broadcasts nothing app] in Hh.
  match type of Hh with context [("deal-" ++ s, ?x)] => set (msg := x) in Hh end.
  assert (ch = "deal-" ++ s /\ bc = msg) as [-> ->] by (split; congruence).
  clear Hh. unfold sc_message.
  change (String.eqb ("deal-" ++ s) "tracmarket") with false. cbn iota.
  rewrite prefix_append. unfold _onDealChannelEvent, Agent.bind at 1, Agent.lift at 1.
  assert (prop msg "event" = Return (VStr "OFFER_SENT")) as -> by reflexivity.
  cbn [strict_eq String.eqb Ascii.eqb Bool.eqb].
  unfold Agent.bind at 1.
  pose proof (console_log_state rt
                (get msg "amount" :: if truthy (get msg "note") then [get msg "note"] else [])
                p) as Hlog.
  destruct (console_log _ _ p) as [p1 [[]|]]; cbn [fst] in Hlog; subst p1; [|done].
  destruct agentMode; [|done].
  unfold _evalAcceptRules, Agent.bind at 1.
  destruct (rule_list_sends_nothing rt agent (float_of_Z (Date_now (steps p)))
              (view_at (steps p))) as [r Hr].
  rewrite (protocol_handle_read _ _ _ _ _ _ _ Hr).
  destruct r as [result|]; [|done].
  unfold Agent.bind at 1, Agent.lift.
  destruct (rules_of result) as [rules|]; [|done].
  cbn [steps].
  destruct (Market._evalAcceptRules _ _ _ _ _) as [[c|]|] eqn:Hc; [|done|done].
  apply evalAcceptRules_command in Hc as (Hcop & _ & Hcid).
  assert (get msg "offerId" = VUndef) as Hm by (by unfold msg; rewrite entry_field by keys_nodup).
  rewrite Hm in Hcid.
  unfold Agent.bind, protocol_handle. cbn [steps sent].
  edestruct (handle_without_offer_id rt agent) as (reply' & -> & _); [exact Hcop|exact Hcid|].
  done.
Qed.

Lemma router_offer_is_never_auto_accepted_witness :
  handle sample_runtime (VStr "B") 2000 ∅ (Direct offer_command) nothing =
    ({| appended := [offer_from "B" 90]; broadcasts := [("deal-LST-001", offer_notice)] |},
     Return (_ok (VStr "Offer sent") VUndef)) /\
  sent (sc_message sample_runtime (VStr "S") true clock (fun _ => seller_view)
          "deal-LST-001" (Some offer_notice) "B" idle).1 = sent idle.
Proof.
  assert (handle sample_runtime (VStr "B") 2000 ∅ (Direct offer_command) nothing =
            ({| appended := [offer_from "B" 90];
                broadcasts := [("deal-LST-001", offer_notice)] |},
             Return (_ok (VStr "Offer sent") VUndef))) as H
    by (vm_compute; reflexivity).
  split; [exact H|].
  exact (router_offer_is_never_auto_accepted sample_runtime (VStr "B") 2000 ∅
           offer_command _ _ _ _ (VStr "S") true clock (fun _ => seller_view) "B" idle
           eq_refl H).
Defined.

Lemma sends_no_offer_refl p : sends_no_offer p p.
Proof. split; [done|]. exists 0%nat. cbn. by rewrite app_nil_r. Qed.

Section BuyRules.

Context (rt : Runtime) (agent : value) (Date_now : nat -> Z) (view_at : nat -> View).

Lemma offer_without_listing_id amount note p :
  exists p' reply,
    protocol_handle rt agent Date_now view_at
      (VObj [("op", VStr "offer_send"); ("listing_id", VUndef);
             ("amount", amount); ("note", note)]) p = (p', Return reply) /\
    sent p' = sent p /\ joined p' = joined p.
Proof.
  unfold protocol_handle.
  erewrite handle_sends_nothing; [by eexists _, _|].
  rewrite (handle_op _ _ _ _ _ "offer_send") by done. reflexivity.
Qed.

Lemma evalBuyRules_loop_without_id rules listing p :
  get listing "id" = VUndef ->
  sends_no_offer p (_evalBuyRules_loop rt agent Date_now view_at rules listing p).1.
Proof.
  intros Hid. revert p. induction rules as [|rule rules IH]; intros p.
  { apply sends_no_offer_refl. }
  pose proof (sends_no_offer_refl p) as Hstay.
  cbn [_evalBuyRules_loop]. unfold Agent.bind at 1, Agent.lift at 1.
  destruct (prop rule "type") as [type|]; [|exact Hstay].
  destruct (negb (strict_eq type (VStr "auto_buy"))); [apply IH|].
  unfold Agent.bind at 1, Agent.lift at 1.
  destruct (prop (get rule "params") "category") as [category|]; [|exact Hstay].
  destruct (truthy category && negb (strict_eq category (get listing "category")));
    [apply IH|].
  unfold Agent.bind at 1, Agent.lift at 1.
  destruct (js_gt rt _ _) as [[]|]; [apply IH| |exact Hstay].
  unfold Agent.bind at 1, checkRateLimit.
  destruct (Market._checkRateLimit 10 _ _) as [ts ok].
  set (p1 := {| knownListings := knownListings p; dealTimestamps := ts;
                joined := joined p; sent := sent p; steps := S (steps p) |}).
  destruct ok; cbn [negb]; [|exact Hstay].
  unfold Agent.bind at 1.
  pose proof (console_log_state rt [get listing "title"; get listing "price"] p1) as Hlog.
  destruct (console_log _ _ p1) as [p2 [[]|]]; cbn [fst] in Hlog; subst p2; [|exact Hstay].
  unfold Agent.bind at 1, Agent.lift at 1, deal_channel. rewrite Hid. cbn [ToString].
  unfold Agent.bind at 1, sc_join. cbn [knownListings dealTimestamps joined sent steps p1].
  unfold Agent.bind at 1.
  match goal with |- context [protocol_handle _ _ _ _ _ ?q] => set (p3 := q) end.
  destruct (offer_without_listing_id (get listing "price")
              (VStr "Auto-buy: accepting ask price") p3) as (p4 & reply & -> & Hs & Hj).
  destruct (IH p4) as [Hs' (k & Hj')].
  split; [by rewrite Hs', Hs|].
  exists (S k). rewrite Hj', Hj. cbn [joined p3 replicate].
  by rewrite <- app_assoc.
Qed.

End BuyRules.

(** The [LISTING_POST] message the router broadcasts for a [listing_post]
    command carries no listing id (the id is assigned when the entry is
    applied).  So whatever the rules, the offers the buy rules issue for it
    lack [listing_id] and the router rejects them: handling the message sends
    nothing, and each rule that fires joins the channel [deal-undefined]. *)
Theorem router_listing_is_never_auto_bought
    rt a now v cmd e bc reply agent agentMode Date_now view_at from p :
  get cmd "op" = VStr "listing_post" ->
  handle rt a now v (Direct cmd) nothing =
    ({| appended := [e]; broadcasts := [("tracmarket", bc)] |}, Return reply) ->
  let p' := (sc_message rt agent agentMode Date_now view_at "tracmarket" (Some bc) from p).1 in
  sent p' = sent p /\
  exists k, joined p' = (joined p ++ replicate k "deal-undefined")%list.
Proof.
  intros Hop Hh.
  change (sends_no_offer p
            (sc_message rt agent agentMode Date_now view_at "tracmarket" (Some bc) from p).1).
  rewrite (handle_op _ _ _ _ _ "listing_post") in Hh by done.
  cbn [route String.eqb Ascii.eqb Bool.eqb] in Hh.
  unfold _listingPost, Protocol.bind, Protocol.lift, Protocol.ret,
    base_append, sc_broadcast in Hh.
  destruct (negb (truthy (get cmd "title"))); [discriminate|].
  destruct (negb (is_number (get cmd "price"))); [discriminate|].
  destruct (js_lt rt (get cmd "price") (VNum 0)) as [[]|]; [discriminate| |discriminate].
  cbn [appended broadcasts nothing app] in Hh.
  match type of Hh with context [("tracmarket", ?x)] => set (msg := x) in Hh end.
  assert (bc = msg) as -> by congruence. clear Hh.
  pose proof (sends_no_offer_refl p) as Hstay.
  unfold sc_message. cbn [String.eqb Ascii.eqb Bool.eqb].
  unfold _onPublicChannelEvent, Agent.bind at 1, Agent.lift at 1.
  assert (prop msg "event" = Return (VStr "LISTING_POST")) as -> by reflexivity.
  cbn [strict_eq String.eqb Ascii.eqb Bool.eqb].
  unfold Agent.bind at 1, set_knownListings.
  match goal with |- sends_no_offer p (_ ?q).1 => set (p1 := q) end.
  unfold Agent.bind at 1.
  match goal with |- context [console_log rt ?parts p1] =>
    pose proof (console_log_state rt parts p1) as Hlog;
    destruct (console_log rt parts p1) as [p2 [[]|]]
  end; cbn [fst] in Hlog; subst p2; [|exact Hstay].
  destruct agentMode; [|exact Hstay].
  unfold _evalBuyRules, Agent.bind at 1.
  destruct (rule_list_sends_nothing rt agent (float_of_Z (Date_now (steps p1)))
              (view_at (steps p1))) as [r Hr].
  rewrite (protocol_handle_read _ _ _ _ _ _ _ Hr).
  destruct r as [result|]; [|exact Hstay].
  unfold Agent.bind at 1, Agent.lift.
  destruct (rules_of result) as [rules|]; [|exact Hstay].
  match goal with |- context [_evalBuyRules_loop _ _ _ _ _ ?l ?q] =>
    apply (evalBuyRules_loop_without_id rt agent Date_now view_at rules l q)
  end.
  unfold msg. cbn [spread JSON_stringify get].
  rewrite own_set_own_ne by discriminate.
  change (get (JSON_stringify (VObj
            [("event", VStr "LISTING_POST"); ("title", get cmd "title");
             ("price", get cmd "price");
             ("currency", js_or (get cmd "currency") (VStr "TNK"));
             ("category", js_or (get cmd "category") (VStr "general"));
             ("seller", a)])) "id" = VUndef).
  by rewrite entry_field by keys_nodup.
Qed.

Lemma router_listing_is_never_auto_bought_witness :
  handle sample_runtime (VStr "S") 1000 ∅ (Direct post_command) nothing =
    ({| appended := [JSON_stringify
                       (VObj [("op", VStr "listing_post"); ("title", VStr "Keyboard");
                              ("desc", VStr ""); ("price", VNum 120);
                              ("currency", VStr "TNK"); ("category", VStr "general");
                              ("tags", VStr ""); ("seller", VStr "S");
                              ("ts", VNum 1000)])];
        broadcasts := [("tracmarket", listing_notice)] |},
     Return (_ok (VStr "Listing posted to tracmarket channel") VUndef)) /\
  let p' := (sc_message sample_runtime (VStr "B") true clock (fun _ => buyer_view)
               "tracmarket" (Some listing_notice) "S" idle).1 in
  sent p' = sent idle /\
  exists k, joined p' = (joined idle ++ replicate k "deal-undefined")%list.
Proof.
  match goal with |- ?A /\ _ => assert A as H by (vm_compute; reflexivity) end.
  split; [exact H|].
  exact (router_listing_is_never_auto_bought sample_runtime (VStr "S") 1000 ∅
           post_command _ _ _ (VStr "B") true clock (fun _ => buyer_view) "S" idle
           eq_refl H).
Defined.

Lemma filter_length_le {T} (f : T -> bool) (l : list T) :
  (List.length (List.filter f l) <= List.length l)%nat.
Proof. induction l as [|x l IH]; simpl; [lia|]. destruct (f x); simpl; lia. Qed.

Section BuyOffers.

Context (rt : Runtime) (agent : value) (Date_now : nat -> Z) (view_at : nat -> View).

Lemma offer_with_listing_id id x note p :
  id <> "" ->
  exists e bc reply,
    protocol_handle rt agent Date_now view_at
      (VObj [("op", VStr "offer_send"); ("listing_id", VStr id);
             ("amount", VNum x); ("note", note)]) p =
      ({| knownListings := knownListings p; dealTimestamps := dealTimestamps p;
          joined := joined p;
          sent := after (sent p) {| appended := [e]; broadcasts := [bc] |};
          steps := S (steps p) |}, Return reply) /\
    offer_entry id x e.
Proof.
  intros Hid. unfold protocol_handle. rewrite framed_handle.
  rewrite (handle_op _ _ _ _ _ "offer_send") by done.
  cbn [route String.eqb Ascii.eqb Bool.eqb].
  unfold _offerSend, deal_channel, Protocol.bind, Protocol.lift, Protocol.ret,
    base_append, sc_broadcast.
  cbn [get own String.eqb Ascii.eqb Bool.eqb truthy is_number negb ToString].
  destruct (String.eqb_spec id ""); [done|]. cbn [negb fst snd appended broadcasts nothing app].
  eexists _, _, _. split; [reflexivity|].
  unfold offer_entry. by rewrite !entry_field by keys_nodup.
Qed.

(** Nothing ends the loop of [_evalBuyRules] after an offer: on a listing
    with an id, a title and a numeric price, every rule that matches sends
    its own offer at the asking price, as long as the rate limiter has room.
    A list of [n] matching rules appends [n] offers for the same listing. *)
Theorem auto_buy_sends_one_offer_per_matching_rule rules listing id title x p :
  get listing "id" = VStr id -> id <> "" ->
  get listing "title" = VStr title ->
  get listing "price" = VNum x ->
  Forall (buys_at rt (VNum x)) rules ->
  (List.length (dealTimestamps p) + List.length rules <= 10)%nat ->
  exists p' es,
    _evalBuyRules_loop rt agent Date_now view_at rules listing p = (p', Return tt) /\
    appended (sent p') = (appended (sent p) ++ es)%list /\
    List.length es = List.length rules /\
    Forall (offer_entry id x) es /\
    joined p' = (joined p ++ replicate (List.length rules) ("deal-" ++ id)%string)%list.
Proof.
  intros Hid Hne Htitle Hprice Hrules. revert p.
  induction Hrules as [|rule rules (Htype & fs & Hparams & Hcat & Hmax) _ IH]; intros p Hroom.
  { exists p, []. cbn. by rewrite !app_nil_r. }
  cbn [_evalBuyRules_loop]. unfold Agent.bind at 1, Agent.lift at 1.
  assert (prop rule "type" = Return (VStr "auto_buy")) as ->.
  { destruct rule; try discriminate. by rewrite <- Htype. }
  cbn [strict_eq String.eqb Ascii.eqb Bool.eqb negb].
  rewrite Hparams. unfold Agent.bind at 1, Agent.lift at 1. cbn [prop get].
  rewrite Hcat. cbn [andb]. rewrite Hprice, Hmax.
  unfold Agent.bind at 1, Agent.lift at 1.
  unfold Agent.bind at 1, checkRateLimit, Market._checkRateLimit.
  set (live := List.filter _ (dealTimestamps p)).
  assert (List.length live <= List.length (dealTimestamps p))%nat as Hlive
    by apply filter_length_le.
  cbn [List.length] in Hroom.
  destruct (Z.geb_spec (Z.of_nat (List.length live)) 10); [lia|].
  cbn [negb]. unfold Agent.bind at 1. rewrite Htitle.
  cbn [console_log ToString]. unfold Agent.bind at 1, Agent.lift at 1.
  unfold Agent.bind at 1, Agent.lift at 1. unfold Agent.ret at 1.
  unfold Agent.bind at 1, Agent.lift at 1, deal_channel. rewrite Hid. cbn [ToString].
  unfold Agent.bind at 1, sc_join. cbn [knownListings dealTimestamps joined sent steps].
  unfold Agent.bind at 1.
  match goal with |- context [protocol_handle _ _ _ _ _ ?q] => set (p3 := q) end.
  destruct (offer_with_listing_id id x (VStr "Auto-buy: accepting ask price") p3 Hne)
    as (e & bc & reply & -> & He).
  match goal with |- context [_evalBuyRules_loop _ _ _ _ _ _ ?q] => set (p4 := q) end.
  destruct (IH p4) as (p' & es & -> & Happ & Hlen & Hes & Hj).
  { cbn [p4 dealTimestamps p3]. rewrite length_app. cbn [List.length]. lia. }
  exists p', (e :: es). split; [done|].
  split; [rewrite Happ; cbn [p4 sent after appended p3]; by rewrite <- app_assoc|].
  split; [cbn [List.length]; lia|].
  split; [by constructor|].
  rewrite Hj. cbn [p4 joined p3 List.length replicate]. by rewrite <- app_assoc.
Qed.

End BuyOffers.

Lemma auto_buy_sends_one_offer_per_matching_rule_witness :
  Forall (buys_at sample_runtime (VNum 120)) [buy_rule 500; buy_rule 200] /\
  exists p' es,
    _evalBuyRules_loop sample_runtime (VStr "B") clock (fun _ => buyer_view)
      [buy_rule 500; buy_rule 200] known_keyboard idle = (p', Return tt) /\
    appended (sent p') = (appended (sent idle) ++ es)%list /\
    List.length es = List.length [buy_rule 500; buy_rule 200] /\
    Forall (offer_entry "LST-001" 120) es /\
    joined p' = (joined idle ++
                 replicate (List.length [buy_rule 500; buy_rule 200])
                   ("deal-" ++ "LST-001")%string)%list.
Proof.
  assert (Forall (buys_at sample_runtime (VNum 120)) [buy_rule 500; buy_rule 200]) as H.
  { repeat apply Forall_cons_2; [| |apply Forall_nil_2];
      (split; [reflexivity|]);
      (eexists; split; [reflexivity|]); split; reflexivity. }
  split; [exact H|].
  apply (auto_buy_sends_one_offer_per_matching_rule sample_runtime (VStr "B") clock
           (fun _ => buyer_view) [buy_rule 500; buy_rule 200] known_keyboard
           "LST-001" "Keyboard" 120 idle);
    [reflexivity | discriminate | reflexivity | reflexivity | exact H | simpl; lia].
Defined.

(** ** The rate limiter over time *)

Lemma accepted_in_late M w times ts :
  Forall (fun t => (w + Market.DEAL_RATE_WINDOW_MS <= t)%Z) times ->
  accepted_in M w times ts = 0%nat.
Proof.
  intros H. revert ts. induction H as [|t times Ht _ IH]; intros ts; [done|].
  cbn [accepted_in]. destruct (Market._checkRateLimit M t ts) as [ts' ok].
  rewrite IH. destruct (Z.ltb_spec t (w + Market.DEAL_RATE_WINDOW_MS)); [lia|].
  by rewrite andb_false_r.
Qed.

Lemma filter_filter_live w t (ts : list Z) :
  (t < w + Market.DEAL_RATE_WINDOW_MS)%Z ->
  List.filter (fun x => (w <=? x)%Z)
    (List.filter (fun x => (t - x <? Market.DEAL_RATE_WINDOW_MS)%Z) ts) =
  List.filter (fun x => (w <=? x)%Z) ts.
Proof.
  intros Ht. induction ts as [|x ts IH]; [done|]. cbn [List.filter].
  destruct (Z.ltb_spec (t - x) Market.DEAL_RATE_WINDOW_MS); cbn [List.filter].
  - by rewrite IH.
  - destruct (Z.leb_spec w x); [lia|exact IH].
Qed.

Lemma accepted_in_bound M w times ts :
  StronglySorted Z.le times ->
  (Z.of_nat (List.length (List.filter (fun x => (w <=? x)%Z) ts)) <= M)%Z ->
  (Z.of_nat (List.length (List.filter (fun x => (w <=? x)%Z) ts) +
             accepted_in M w times ts) <= M)%Z.
Proof.
  intros Hs. revert ts. induction Hs as [|t times _ IH Hle]; intros ts Ha.
  { cbn. lia. }
  destruct (Z.lt_ge_cases t (w + Market.DEAL_RATE_WINDOW_MS)) as [Hin|Hout].
  - cbn [accepted_in]. unfold Market._checkRateLimit.
    set (live := List.filter (fun x => (t - x <? Market.DEAL_RATE_WINDOW_MS)%Z) ts).
    pose proof (filter_filter_live w t ts Hin) as Hlive. fold live in Hlive.
    pose proof (filter_length_le (fun x => (w <=? x)%Z) live) as Hlen.
    destruct (Z.geb_spec (Z.of_nat (List.length live)) M) as [Hfull|Hroom].
    + cbn [andb]. specialize (IH live). rewrite Hlive in IH. cbn [Nat.add]. by apply IH.
    + cbn [andb]. specialize (IH (live ++ [t])%list).
      rewrite List.filter_app, length_app, Hlive in IH. cbn [List.filter] in IH.
      rewrite Hlive in Hlen.
      destruct (Z.leb_spec w t); cbn [List.length] in IH.
      * destruct (Z.ltb_spec t (w + Market.DEAL_RATE_WINDOW_MS)); [|lia].
        cbn [andb]. etransitivity; [|apply IH; lia]. lia.
      * cbn [andb Nat.add]. etransitivity; [|apply IH; lia]. lia.
  - rewrite accepted_in_late; [lia|].
    constructor; [done|]. eapply Forall_impl; [exact Hle|]. intros x Hx. cbn in Hx. lia.
Qed.

(** However the calls are spaced, as long as the clock does not go back:
    from an empty [dealTimestamps], no more than [maxPerHour] of them are
    accepted at times within any one hour, from a time [w] up to but not
    including [w] plus one hour. *)
Theorem rate_limit_over_time (maxPerHour w : Z) (times : list Z) :
  StronglySorted Z.le times ->
  (0 <= maxPerHour)%Z ->
  (Z.of_nat (accepted_in maxPerHour w times []) <= maxPerHour)%Z.
Proof.
  intros Hs HM. apply (accepted_in_bound maxPerHour w times [] Hs). cbn. lia.
Qed.

Lemma rate_limit_over_time_witness :
  StronglySorted Z.le [0; 1; 2; 3600000]%Z /\
  (Z.of_nat (accepted_in 2 0 [0; 1; 2; 3600000]%Z []) <= 2)%Z.
Proof.
  assert (StronglySorted Z.le [0; 1; 2; 3600000]%Z) as H
    by (repeat constructor; lia).
  split; [exact H|].
  apply (rate_limit_over_time 2 0 [0; 1; 2; 3600000]%Z H). lia.
Defined.

(** ** Batches of [apply] *)


(** ** The buy rules at the rate limit *)

Section BuyLimit.

Context (rt : Runtime) (agent : value) (Date_now : nat -> Z) (view_at : nat -> View).

Lemma evalBuyRules_loop_at_limit rules listing p :
  (10 <= List.length
           (List.filter (fun t => (Date_now (steps p) - t <? Market.DEAL_RATE_WINDOW_MS)%Z)
              (dealTimestamps p)))%nat ->
  quiet p (_evalBuyRules_loop rt agent Date_now view_at rules listing p).1.
Proof.
  intros Hfull. induction rules as [|rule rules IH]; [done|].
  cbn [_evalBuyRules_loop]. unfold Agent.bind at 1, Agent.lift at 1.
  destruct (prop rule "type") as [type|]; [|done].
  destruct (negb (strict_eq type (VStr "auto_buy"))); [exact IH|].
  unfold Agent.bind at 1, Agent.lift at 1.
  destruct (prop (get rule "params") "category") as [category|]; [|done].
  destruct (truthy category && negb (strict_eq category (get listing "category")));
    [exact IH|].
  unfold Agent.bind at 1, Agent.lift at 1.
  destruct (js_gt rt _ _) as [[]|]; [exact IH| |done].
  unfold Agent.bind at 1, checkRateLimit, Market._checkRateLimit.
  destruct (Z.geb_spec
              (Z.of_nat (List.length
                 (List.filter
                    (fun t => (Date_now (steps p) - t <? Market.DEAL_RATE_WINDOW_MS)%Z)
                    (dealTimestamps p)))) 10) as [_|Hlt]; [done|lia].
Qed.

End BuyLimit.

(** With ten deals stamped within the hour before the clock is read,
    [_evalBuyRules] sends no offer and joins no channel, whatever the rules
    and the listing.  The clock is read at the second step, after the rules
    have been listed. *)
Theorem auto_buy_stops_at_the_rate_limit rt agent Date_now view_at listing p :
  (10 <= List.length
           (List.filter
              (fun t => (Date_now (S (steps p)) - t <? Market.DEAL_RATE_WINDOW_MS)%Z)
              (dealTimestamps p)))%nat ->
  let p' := (_evalBuyRules rt agent Date_now view_at listing p).1 in
  sent p' = sent p /\ joined p' = joined p.
Proof.
  intros Hfull. cbv zeta.
  change (quiet p (_evalBuyRules rt agent Date_now view_at listing p).1).
  unfold _evalBuyRules, Agent.bind at 1.
  destruct (rule_list_sends_nothing rt agent (float_of_Z (Date_now (steps p)))
              (view_at (steps p))) as [r Hr].
  rewrite (protocol_handle_read _ _ _ _ _ _ _ Hr).
  destruct r as [result|]; [|done].
  unfold Agent.bind at 1, Agent.lift.
  destruct (rules_of result) as [rules|]; [|done].
  match goal with |- context [_evalBuyRules_loop _ _ _ _ _ _ ?q] => set (p1 := q) end.
  apply (evalBuyRules_loop_at_limit rt agent Date_now view_at rules listing p1 Hfull).
Qed.

Lemma auto_buy_stops_at_the_rate_limit_witness :
  let p' := (_evalBuyRules sample_runtime (VStr "B") clock (fun _ => buyer_view)
               known_keyboard busy).1 in
  sent p' = sent busy /\ joined p' = joined busy.
Proof.
  apply (auto_buy_stops_at_the_rate_limit sample_runtime (VStr "B") clock
           (fun _ => buyer_view) known_keyboard busy).
  vm_compute. lia.
Defined.

(** ** The listings a peer knows *)

Lemma map_set_known m t x : (VStr t, x) ∈ map_set m (VStr t) x.
Proof.
  induction m as [|[k' y] m IH]; cbn [map_set]; [apply list_elem_of_here|].
  destruct (same_value_zero k' (VStr t)) eqn:E.
  - assert (k' = VStr t) as ->.
    { destruct k'; cbn in E; try done. apply String.eqb_eq in E. by subst. }
    apply list_elem_of_here.
  - by apply list_elem_of_further.
Qed.

Lemma map_delete_other m t i y :
  i <> t -> (VStr t, y) ∈ m -> (VStr t, y) ∈ map_delete m (VStr i).
Proof.
  intros Hne. induction m as [|[k' z] m IH]; intros Hin; [done|].
  cbn [map_delete]. destruct (same_value_zero k' (VStr i)) eqn:E.
  - assert (k' = VStr i) as ->.
    { destruct k'; cbn in E; try done. apply String.eqb_eq in E. by subst. }
    apply elem_of_cons in Hin as [Heq|Hin]; [congruence|done].
  - apply elem_of_cons in Hin as [Heq|Hin].
    + rewrite Heq. apply list_elem_of_here.
    + apply list_elem_of_further. by apply IH.
Qed.

Section Known.

Context (rt : Runtime) (agent : value) (Date_now : nat -> Z) (view_at : nat -> View).

Lemma protocol_handle_known cmd p :
  knownListings (protocol_handle rt agent Date_now view_at cmd p).1 = knownListings p.
Proof. unfold protocol_handle. by destruct (handle _ _ _ _ _ _). Qed.

Lemma evalBuyRules_loop_known rules listing p :
  knownListings (_evalBuyRules_loop rt agent Date_now view_at rules listing p).1
  = knownListings p.
Proof.
  revert p. induction rules as [|rule rules IH]; intros p; [done|].
  cbn [_evalBuyRules_loop]. unfold Agent.bind at 1, Agent.lift at 1.
  destruct (prop rule "type") as [type|]; [|done].
  destruct (negb (strict_eq type (VStr "auto_buy"))); [apply IH|].
  unfold Agent.bind at 1, Agent.lift at 1.
  destruct (prop (get rule "params") "category") as [category|]; [|done].
  destruct (truthy category && negb (strict_eq category (get listing "category")));
    [apply IH|].
  unfold Agent.bind at 1, Agent.lift at 1.
  destruct (js_gt rt _ _) as [[]|]; [apply IH| |done].
  unfold Agent.bind at 1, checkRateLimit.
  destruct (Market._checkRateLimit 10 _ _) as [ts ok].
  set (p1 := {| knownListings := knownListings p; dealTimestamps := ts;
                joined := joined p; sent := sent p; steps := S (steps p) |}).
  destruct ok; cbn [negb]; [|done].
  unfold Agent.bind at 1.
  pose proof (console_log_state rt [get listing "title"; get listing "price"] p1) as Hlog.
  destruct (console_log _ _ p1) as [p2 [[]|]]; cbn [fst] in Hlog; subst p2; [|done].
  unfold Agent.bind at 1, Agent.lift at 1.
  destruct (deal_channel rt (get listing "id")) as [channel|]; [|done].
  unfold Agent.bind at 1, sc_join. cbn [knownListings dealTimestamps joined sent steps p1].
  unfold Agent.bind at 1.
  match goal with |- context [protocol_handle _ _ _ _ ?c ?q] =>
    pose proof (protocol_handle_known c q) as Hk;
    destruct (protocol_handle rt agent Date_now view_at c q) as [p4 [reply|]]
  end; cbn [fst knownListings] in Hk; [|done].
  by rewrite IH.
Qed.

Lemma evalBuyRules_known listing p :
  knownListings (_evalBuyRules rt agent Date_now view_at listing p).1 = knownListings p.
Proof.
  unfold _evalBuyRules, Agent.bind at 1.
  pose proof (protocol_handle_known (VObj [("op", VStr "rule_list")]) p) as Hk.
  destruct (protocol_handle _ _ _ _ _ p) as [p1 [result|]]; cbn [fst] in Hk; [|done].
  unfold Agent.bind at 1, Agent.lift.
  destruct (rules_of result) as [rules|]; [|done].
  by rewrite evalBuyRules_loop_known.
Qed.

End Known.

(** The [LISTING_POST] message of the router names no id, so a peer files the
    listing under its title; the [LISTING_REMOVE] message names the id.  A
    peer that has received both, for a title and an id that are different
    strings, still knows the listing. *)
Theorem announced_listing_is_not_forgotten
    rt s now v cmd t e bc reply s' now' v' cmd' i e' bc' reply'
    agent agentMode Date_now view_at from from' p :
  get cmd "op" = VStr "listing_post" ->
  get cmd "title" = VStr t ->
  handle rt s now v (Direct cmd) nothing =
    ({| appended := [e]; broadcasts := [("tracmarket", bc)] |}, Return reply) ->
  get cmd' "op" = VStr "listing_remove" ->
  get cmd' "id" = VStr i ->
  i <> t ->
  handle rt s' now' v' (Direct cmd') nothing =
    ({| appended := [e']; broadcasts := [("tracmarket", bc')] |}, Return reply') ->
  let p1 :=
    (sc_message rt agent agentMode Date_now view_at "tracmarket" (Some bc) from p).1 in
  let p2 :=
    (sc_message rt agent agentMode Date_now view_at "tracmarket" (Some bc') from' p1).1 in
  exists listing, (VStr t, listing) ∈ knownListings p2 /\ get listing "id" = VUndef.
Proof.
  intros Hop Ht Hh Hop' Hi Hne Hh'.
  (* the two messages *)
  rewrite (handle_op _ _ _ _ _ "listing_post") in Hh by done.
  cbn [route String.eqb Ascii.eqb Bool.eqb] in Hh.
  unfold _listingPost, Protocol.bind, Protocol.lift, Protocol.ret,
    base_append, sc_broadcast in Hh.
  destruct (negb (truthy (get cmd "title"))); [discriminate|].
  destruct (negb (is_number (get cmd "price"))); [discriminate|].
  destruct (js_lt rt (get cmd "price") (VNum 0)) as [[]|]; [discriminate| |discriminate].
  cbn [appended broadcasts nothing app] in Hh.
  match type of Hh with context [("tracmarket", ?x)] => set (msg := x) in Hh end.
  assert (bc = msg) as -> by congruence. clear Hh.
  rewrite (handle_op _ _ _ _ _ "listing_remove") in Hh' by done.
  cbn [route String.eqb Ascii.eqb Bool.eqb] in Hh'.
  unfold _listingRemove, Protocol.bind, Protocol.lift, Protocol.ret,
    base_append, sc_broadcast in Hh'.
  destruct (negb (truthy (get cmd' "id"))); [discriminate|].
  cbn [appended broadcasts nothing app] in Hh'.
  match type of Hh' with context [("tracmarket", ?x)] => set (msg' := x) in Hh' end.
  destruct (ToString rt (get cmd' "id")); [|discriminate].
  assert (bc' = msg') as -> by congruence. clear Hh'.
  assert (get msg "id" = VUndef) as Hid by (unfold msg; by rewrite entry_field by keys_nodup).
  assert (get msg "title" = VStr t) as Htitle.
  { unfold msg. rewrite entry_field by keys_nodup. cbn [own String.eqb Ascii.eqb Bool.eqb].
    by rewrite Ht. }
  assert (get msg' "id" = VStr i) as Hid'.
  { unfold msg'. rewrite entry_field by keys_nodup. cbn [own String.eqb Ascii.eqb Bool.eqb].
    by rewrite Hi. }
  assert (prop msg "event" = Return (VStr "LISTING_POST")) as Hev by reflexivity.
  assert (prop msg' "event" = Return (VStr "LISTING_REMOVE")) as Hev' by reflexivity.
  assert (exists fs, msg = VObj fs) as [fs Hfs] by (by eexists).
  clearbody msg msg'.
  (* the first message *)
  cbv zeta.
  set (listing := VObj (set_own (spread msg) "seller" (VStr from))).
  assert (get listing "id" = VUndef) as Hlid.
  { unfold listing. rewrite Hfs. cbn [spread get].
    rewrite own_set_own_ne by discriminate. by rewrite Hfs in Hid. }
  assert ((VStr t, listing) ∈ knownListings
            (sc_message rt agent agentMode Date_now view_at "tracmarket" (Some msg)
               from p).1) as Hy.
  { unfold sc_message. cbn [String.eqb Ascii.eqb Bool.eqb].
    unfold _onPublicChannelEvent, Agent.bind at 1, Agent.lift at 1. rewrite Hev.
    cbn [strict_eq String.eqb Ascii.eqb Bool.eqb].
    unfold Agent.bind at 1, set_knownListings.
    rewrite Hid, Htitle. cbn [js_or truthy].
    fold listing.
    match goal with |- context [Agent.bind _ _ ?q] => set (p1 := q) end.
    assert ((VStr t, listing) ∈ knownListings p1) as Hp1
      by (cbn [p1 knownListings]; apply map_set_known).
    unfold Agent.bind at 1.
    match goal with |- context [console_log rt ?parts p1] =>
      pose proof (console_log_state rt parts p1) as Hlog;
      destruct (console_log rt parts p1) as [p2 [[]|]]
    end; cbn [fst] in Hlog; subst p2; [|exact Hp1].
    destruct agentMode; [|exact Hp1].
    by rewrite evalBuyRules_known. }
  exists listing. split; [|exact Hlid].
  match goal with |- context [sc_message _ _ _ _ _ _ (Some msg') _ ?q] =>
    set (p1 := q) in *
  end.
  clearbody p1.
  unfold sc_message. cbn [String.eqb Ascii.eqb Bool.eqb].
  unfold _onPublicChannelEvent, Agent.bind at 1, Agent.lift at 1. rewrite Hev'.
  cbn [strict_eq String.eqb Ascii.eqb Bool.eqb].
  unfold Agent.bind at 1.
  pose proof (console_log_state rt [get msg' "id"] p1) as Hlog.
  destruct (console_log rt [get msg' "id"] p1) as [p2 [[]|]]; cbn [fst] in Hlog; subst p2;
    [|exact Hy].
  unfold set_knownListings. cbn [fst knownListings]. rewrite Hid'.
  by apply map_delete_other.
Qed.

Lemma announced_listing_is_not_forgotten_witness :
  let p1 :=
    (sc_message sample_runtime (VStr "B") false clock (fun _ => buyer_view)
       "tracmarket" (Some listing_notice) "S" idle).1 in
  let p2 :=
    (sc_message sample_runtime (VStr "B") false clock (fun _ => buyer_view)
       "tracmarket" (Some removal_notice) "S" p1).1 in
  exists listing, (VStr "Keyboard", listing) ∈ knownListings p2 /\
                  get listing "id" = VUndef.
Proof.
  eapply (announced_listing_is_not_forgotten sample_runtime
            (VStr "S") 1000 ∅ post_command "Keyboard" _ listing_notice _
            (VStr "S") 4000 ∅ remove_command "LST-001" _ removal_notice _
            (VStr "B") false clock (fun _ => buyer_view) "S" "S" idle);
    [reflexivity | reflexivity | reflexivity | reflexivity | reflexivity
    | discriminate | reflexivity].
Defined.

(** ** The in-memory stand-in of the entry point *)

Lemma same_value_zero_str a s : same_value_zero a (VStr s) = true -> a = VStr s.
Proof. destruct a; cbn; try discriminate. intros ?%String.eqb_eq. by subst. Qed.

Lemma same_value_zero_string a b s :
  same_value_zero a b = true ->
  same_value_zero a (VStr s) = strict_eq b (VStr s).
Proof. destruct a, b; cbn; try discriminate; try done. intros ?%String.eqb_eq. by subst. Qed.

Lemma map_get_set m key x s :
  Main.map_get (map_set m key x) (VStr s) =
  if strict_eq key (VStr s) then x else Main.map_get m (VStr s).
Proof.
  induction m as [|[k y] m IH]; cbn [map_set Main.map_get].
  { destruct key; cbn; try done. }
  destruct (same_value_zero k key) eqn:E; cbn [Main.map_get].
  - rewrite (same_value_zero_string _ _ s E). by destruct (strict_eq key (VStr s)).
  - rewrite IH. destruct (same_value_zero k (VStr s)) eqn:E'; [|done].
    apply same_value_zero_str in E' as ->.
    destruct (strict_eq key (VStr s)) eqn:E''; [|done].
    apply strict_eq_str in E'' as ->. cbn in E. by rewrite String.eqb_refl in E.
Qed.

(** What is put is read back: after the stand-in has appended a [PUT] entry,
    [view.get] gives the text of the entry's value under the entry's key,
    and what it gave before under every other key.  An entry without a value
    reads as [null], and an entry whose key is not a string is never read
    back. *)
Theorem stub_put_then_get d store k :
  get d "op" = VStr "PUT" ->
  Main.view_get k (Main.append (Some d) store) =
  if strict_eq (get d "key") (VStr k)
  then Main.buffer_or_null (JSON_stringify (get d "value"))
  else Main.view_get k store.
Proof.
  intros Hop. unfold Main.view_get, Main.append.
  assert (prop d "op" = Return (VStr "PUT")) as ->.
  { destruct d; try discriminate. by rewrite <- Hop. }
  cbn [strict_eq String.eqb Ascii.eqb Bool.eqb]. rewrite map_get_set.
  by destruct (strict_eq (get d "key") (VStr k)).
Qed.

Lemma stub_put_then_get_witness :
  Main.view_get "k" (Main.append (Some put_entry) []) =
  if strict_eq (get put_entry "key") (VStr "k")
  then Main.buffer_or_null (JSON_stringify (get put_entry "value"))
  else Main.view_get "k" [].
Proof. apply (stub_put_then_get put_entry [] "k"). reflexivity. Defined.

(** The stand-in stores [PUT] entries only: every entry the router appends,
    whatever the command, leaves its store as it was. *)
Theorem stub_drops_router_entries rt address now v raw store :
  Forall (fun e => Main.append (Some e) store = store)
    (appended (fst (handle rt address now v raw nothing))).
Proof.
  unfold handle.
  destruct (match raw with Text parsed => parsed | Direct cmd => Some cmd end)
    as [cmd|]; [|constructor].
  unfold Protocol.bind at 1, Protocol.lift at 1.
  destruct (prop cmd "op") as [op|e]; [|constructor].
  destruct (truthy op); cbn [negb]; [|constructor].
  unfold route.
  assert (Forall (fun e => Main.append (Some e) store = store)
            (appended (fst (Protocol.bind (Protocol.lift (ToString rt op))
               (fun s => Protocol.ret (_err (VStr ("Unknown op: " ++ s)))) nothing))))
    as Hunknown.
  { unfold Protocol.bind, Protocol.lift, Protocol.ret. destruct (ToString rt op); constructor. }
  destruct op as [| |b|x|op|xs|fs]; try apply Hunknown.
  route_cases; try apply Hunknown; clear Hunknown.
  all: unfold_handlers.
  all: try (destruct (ruleSet_entry address now cmd) as [->|(ruleType & params & msg & ->)]).
  all: unfold Protocol.bind, Protocol.lift, Protocol.ret, base_append, sc_broadcast;
    cbn [appended broadcasts];
    repeat (step; cbn [negb orb andb appended broadcasts fst snd]).
  all: cbn [appended nothing app fst].
  all: try (constructor; fail).
  all: apply Forall_singleton; reflexivity.
Qed.

(** ** A sale, from the commands to the reads *)



Section Sale.

Context (rt : Runtime) (s b t : string) (x y now1 now2 now3 : float).

Context (desc currency category tags note : value).

Local Abbreviation e1 := (JSON_stringify (VObj [
      ("op", VStr "listing_post"); ("title", VStr t);
      ("desc", desc); ("price", VNum x);
      ("currency", currency);
      ("category", category);
      ("tags", tags);
      ("seller", VStr s); ("ts", VNum now1) ])).

Local Abbreviation e2 := (JSON_stringify (VObj [
      ("op", VStr "offer_send"); ("listingId", VStr "LST-001");
      ("buyer", VStr b); ("amount", VNum y);
      ("note", note); ("ts", VNum now2) ])).

Local Abbreviation e3 := (JSON_stringify (VObj [
      ("op", VStr "offer_accept"); ("listingId", VStr "LST-001");
      ("offerId", VStr "OFR-001");
      ("by", VStr s); ("seller", VStr s); ("ts", VNum now3) ])).


End Sale.




(** ** A listing that is sold or removed is never active again *)

Lemma settled_empty : settled empty_mem.
Proof.
  split; [apply view_ok_empty|]. intros k x j H. cbn [view empty_mem] in H.
  by rewrite lookup_empty in H.
Qed.

Lemma kept_refl m : settled m -> kept m m.
Proof. by split. Qed.

Lemma kept_trans m1 m2 m3 : kept m1 m2 -> kept m2 m3 -> kept m1 m3.
Proof. intros [_ H1] [H2 H3]. split; [done|]. intros k Hk. by apply H3, H1. Qed.

Lemma kept_seqs m c :
  settled m -> listingSeq c = listingSeq (seqs m) ->
  kept m {| seqs := c; view := view m |}.
Proof.
  intros [Hv Hl] Hc. split; [|done]. split; [done|]. cbn [seqs view]. by rewrite Hc.
Qed.

Lemma status_of_entry gs :
  NoDup gs.*1 ->
  own gs "status" <> VStr "active" ->
  get (JSON_stringify (VObj gs)) "status" <> VStr "active".
Proof.
  intros Hnd Hs. rewrite entry_field by done. intros E. by apply JSON_stringify_str in E.
Qed.

Lemma kept_insert m c key gs :
  settled m -> listingSeq c = listingSeq (seqs m) ->
  stored_ok (JSON_stringify (VObj gs)) -> NoDup gs.*1 ->
  (forall j, key = nextId "LST" j -> (j <= listingSeq (seqs m))%N) ->
  (forall x, view m !! key = Some x -> get x "status" <> VStr "active" ->
             own gs "status" <> VStr "active") ->
  kept m {| seqs := c; view := <[key := JSON_stringify (VObj gs)]> (view m) |}.
Proof.
  intros [Hv Hl] Hc Hs Hnd Hkey Hst. split; [split|]; cbn [seqs view].
  - by apply view_ok_insert.
  - rewrite Hc. intros k x j Hk ->.
    destruct (decide (key = nextId "LST" j)) as [->|Hne]; [by apply Hkey|].
    rewrite lookup_insert_ne in Hk by done. by eapply Hl.
  - intros k (y & Hy & Hya). destruct (decide (key = k)) as [->|Hne].
    + eexists. split; [apply lookup_insert_eq|].
      apply status_of_entry; [done|]. by eapply Hst.
    + exists y. by rewrite lookup_insert_ne.
Qed.

Lemma kept_rewrite m c key fs gs :
  settled m -> listingSeq c = listingSeq (seqs m) ->
  view m !! key = Some (VObj fs) ->
  stored_ok (JSON_stringify (VObj gs)) -> NoDup gs.*1 ->
  (own fs "status" <> VStr "active" -> own gs "status" <> VStr "active") ->
  kept m {| seqs := c; view := <[key := JSON_stringify (VObj gs)]> (view m) |}.
Proof.
  intros Hm Hc Hk Hs Hnd Hst. apply kept_insert; try done.
  - intros j ->. by eapply (proj2 Hm).
  - intros x Hx. assert (x = VObj fs) as -> by congruence. exact Hst.
Qed.

Lemma kept_fresh m c key gs :
  settled m -> listingSeq c = listingSeq (seqs m) ->
  (forall j, key <> nextId "LST" j) ->
  stored_ok (JSON_stringify (VObj gs)) -> NoDup gs.*1 ->
  own gs "status" <> VStr "active" ->
  kept m {| seqs := c; view := <[key := JSON_stringify (VObj gs)]> (view m) |}.
Proof.
  intros Hm Hc Hk Hs Hnd Hst. apply kept_insert; try done.
  intros j E. by destruct (Hk j).
Qed.

Lemma kept_post m c gs :
  settled m ->
  listingSeq c = incr (listingSeq (seqs m)) -> (listingSeq c < 2 ^ 53)%N ->
  stored_ok (JSON_stringify (VObj gs)) -> NoDup gs.*1 ->
  kept m {| seqs := c;
            view := <[nextId "LST" (incr (listingSeq (seqs m))) :=
                        JSON_stringify (VObj gs)]> (view m) |}.
Proof.
  intros [Hv Hl] Hc Hb Hs Hnd.
  assert (incr (listingSeq (seqs m)) = listingSeq (seqs m) + 1)%N as Hn
    by (apply incr_bounded; by rewrite <- Hc).
  split; [split|]; cbn [seqs view].
  - by apply view_ok_insert.
  - rewrite Hc. intros k x j Hk ->.
    destruct (decide (nextId "LST" (incr (listingSeq (seqs m))) = nextId "LST" j))
      as [E%nextId_inj|Hne]; [by rewrite E|].
    rewrite lookup_insert_ne in Hk by done.
    pose proof (Hl _ _ _ Hk eq_refl). lia.
  - intros k (y & Hy & Hya). exists y. split; [|done].
    rewrite lookup_insert_ne; [done|]. intros <-.
    pose proof (Hl _ _ _ Hy eq_refl). lia.
Qed.

Lemma rule_key_not_listing key j : "rule:" ++ key <> nextId "LST" j.
Proof. unfold nextId. discriminate. Qed.

Lemma colon_key_not_listing rt a b key j :
  colon_key rt a b = Return key -> key <> nextId "LST" j.
Proof.
  intros H%colon_key_has_colon E. rewrite E in H.
  by rewrite has_colon_nextId in H.
Qed.

Lemma deal_id_not_listing i j : nextId "DEAL" i <> nextId "LST" j.
Proof. intros E%nextId_head. discriminate. Qed.

Ltac rewrites_kept :=
  eapply kept_rewrite;
  [ done | reflexivity | done | stored | set_nodup
  | own_set'; first [ done | discriminate | intros _; discriminate ] ].

Ltac inserts_kept :=
  apply kept_fresh;
  [ done | reflexivity
  | first [ intros ?; apply rule_key_not_listing
          | intros ?; eapply colon_key_not_listing; eassumption
          | intros ?; apply deal_id_not_listing ]
  | stored | keys_nodup
  | cbn [own String.eqb Ascii.eqb Bool.eqb]; discriminate ].

Ltac lmono_tac :=
  unfold lmono; cbn [seqs fst snd listingSeq];
  repeat match goal with
  | |- context [match ?x with _ => _ end] =>
      lazymatch x with
      | context [match _ with _ => _ end] => fail
      | _ => destruct x
      end; cbn [seqs fst snd listingSeq]
  end;
  try match goal with
  | |- context [incr ?n] => pose proof (incr_le n)
  end;
  try lia.

Section Settled.

Context (rt : Runtime).

Lemma listing_post_lmono entry m : lmono m (fst (listing_post rt entry m)).
Proof.
  unfold listing_post, Contract.bind, next_listing, view_put, view_key. lmono_tac.
Qed.

Lemma listing_update_lmono entry m : lmono m (fst (listing_update rt entry m)).
Proof.
  unfold listing_update, Contract.bind, view_get, view_put, Contract.lift, Contract.ret.
  lmono_tac.
Qed.

Lemma listing_remove_lmono entry m : lmono m (fst (listing_remove rt entry m)).
Proof.
  unfold listing_remove, Contract.bind, view_get, view_put, Contract.lift, Contract.ret.
  lmono_tac.
Qed.

Lemma offer_send_lmono entry m : lmono m (fst (offer_send rt entry m)).
Proof.
  unfold offer_send, Contract.bind, next_offer, view_put, Contract.lift, view_key.
  destruct (colon_key rt _ _); unfold lmono; cbn [seqs fst snd listingSeq]; lia.
Qed.

Lemma offer_counter_lmono entry m : lmono m (fst (offer_counter rt entry m)).
Proof.
  unfold offer_counter, Contract.bind, view_get, view_put, Contract.lift, Contract.ret.
  lmono_tac.
Qed.

Lemma offer_decline_lmono entry m : lmono m (fst (offer_decline rt entry m)).
Proof.
  unfold offer_decline, Contract.bind, view_get, view_put, Contract.lift, Contract.ret.
  lmono_tac.
Qed.

Lemma rule_set_lmono entry m : lmono m (fst (rule_set rt entry m)).
Proof.
  unfold rule_set, Contract.bind, next_rule, view_put, Contract.lift, view_key.
  destruct (rule_key rt _ _); unfold lmono; cbn [seqs fst snd listingSeq]; lia.
Qed.

Lemma rule_delete_lmono entry m : lmono m (fst (rule_delete rt entry m)).
Proof.
  unfold rule_delete, Contract.bind, view_get, view_put, Contract.lift, Contract.ret.
  lmono_tac.
Qed.

Lemma offer_accept_lmono entry m : lmono m (fst (offer_accept rt entry m)).
Proof.
  unfold offer_accept, Contract.bind, view_get, view_put, next_deal, Contract.lift,
    Contract.ret.
  lmono_tac.
Qed.

Lemma dispatch_lmono op entry m : lmono m (fst (dispatch rt op entry m)).
Proof.
  unfold dispatch.
  repeat match goal with
  | |- context [if String.eqb op ?s then _ else _] => destruct (String.eqb op s)
  end;
  first [ apply listing_post_lmono | apply listing_update_lmono
        | apply listing_remove_lmono | apply offer_send_lmono
        | apply offer_counter_lmono | apply offer_accept_lmono
        | apply offer_decline_lmono | apply rule_set_lmono
        | apply rule_delete_lmono | unfold lmono; reflexivity ].
Qed.

Lemma apply_node_lmono node m : lmono m (fst (apply_node rt node m)).
Proof.
  destruct node as [entry|]; [|unfold lmono; reflexivity].
  unfold apply_node, Contract.bind, Contract.lift.
  destruct (prop entry "op") as [op|e]; [|unfold lmono; reflexivity].
  destruct op; try (unfold lmono; reflexivity). apply dispatch_lmono.
Qed.

Lemma apply_lmono nodes m : lmono m (fst (apply rt nodes m)).
Proof.
  revert m. induction nodes as [|node nodes IH]; intros m; [unfold lmono; reflexivity|].
  cbn [apply]. unfold Contract.bind.
  pose proof (apply_node_lmono node m) as H1.
  destruct (apply_node rt node m) as [m1 [[]|e]]; cbn [fst] in *; [|done].
  specialize (IH m1). unfold lmono in *. lia.
Qed.

Lemma listing_post_kept entry m :
  settled m ->
  (listingSeq (seqs (fst (listing_post rt entry m))) < 2 ^ 53)%N ->
  kept m (fst (listing_post rt entry m)).
Proof.
  unfold listing_post, Contract.bind, next_listing, view_put.
  cbn [view_key fst snd view seqs listingSeq]. intros Hm Hb.
  apply kept_post; [done | reflexivity | done | stored | keys_nodup].
Qed.

Lemma listing_update_kept entry m :
  settled m -> kept m (fst (listing_update rt entry m)).
Proof.
  intros Hm. pose proof (kept_refl m Hm) as Hsame.
  unfold listing_update, Contract.bind, view_get, view_put, Contract.lift, Contract.ret.
  destruct (view_key rt (get entry "id")) as [s|e]; [|done]. cbn [fst snd].
  destruct (view m !! s) as [listing|] eqn:Hl; [|done].
  destruct (proj1 Hm _ _ Hl) as (fs & -> & Hnd & Hst).
  cbn [prop get fst snd].
  destruct (negb (strict_eq (own fs "seller") (get entry "seller"))); [done|].
  destruct (negb (strict_eq (get entry "price") VUndef));
    destruct (negb (strict_eq (get entry "desc") VUndef));
    cbn [set_prop fst snd view seqs]; rewrites_kept.
Qed.

Lemma listing_remove_kept entry m :
  settled m -> kept m (fst (listing_remove rt entry m)).
Proof.
  intros Hm. pose proof (kept_refl m Hm) as Hsame.
  unfold listing_remove, Contract.bind, view_get, view_put, Contract.lift, Contract.ret.
  destruct (view_key rt (get entry "id")) as [s|e]; [|done]. cbn [fst snd].
  destruct (view m !! s) as [listing|] eqn:Hl; [|done].
  destruct (proj1 Hm _ _ Hl) as (fs & -> & Hnd & Hst).
  cbn [prop get fst snd].
  destruct (negb (strict_eq (own fs "seller") (get entry "seller"))); [done|].
  cbn [set_prop fst snd view seqs]. rewrites_kept.
Qed.

Lemma offer_send_kept entry m :
  settled m -> kept m (fst (offer_send rt entry m)).
Proof.
  intros Hm. unfold offer_send, Contract.bind, next_offer, view_put, Contract.lift.
  destruct (colon_key rt _ _) as [key|e] eqn:Hkey; cbn [view_key fst snd view seqs];
    [|by apply kept_seqs].
  inserts_kept.
Qed.

Lemma offer_counter_kept entry m :
  settled m -> kept m (fst (offer_counter rt entry m)).
Proof.
  intros Hm. pose proof (kept_refl m Hm) as Hsame.
  unfold offer_counter, Contract.bind, view_get, view_put, Contract.lift, Contract.ret.
  destruct (colon_key rt _ _) as [key|e]; [|done].
  cbn [view_key fst snd].
  destruct (view m !! key) as [offer|] eqn:Hoff; [|done].
  destruct (proj1 Hm _ _ Hoff) as (fs & -> & Hnd & Hst).
  cbn [prop get].
  destruct (strict_eq (own fs "status") (VStr "pending")) eqn:Hp; [|done].
  apply strict_eq_str in Hp. destruct (Hst Hp) as [xs Hxs].
  cbn [negb set_prop fst snd].
  erewrite history_push_obj by (own_set'; exact Hxs).
  cbn [set_prop fst snd view seqs]. rewrites_kept.
Qed.

Lemma offer_decline_kept entry m :
  settled m -> kept m (fst (offer_decline rt entry m)).
Proof.
  intros Hm. pose proof (kept_refl m Hm) as Hsame.
  unfold offer_decline, Contract.bind, view_get, view_put, Contract.lift, Contract.ret.
  destruct (colon_key rt _ _) as [key|e]; [|done].
  cbn [view_key fst snd].
  destruct (view m !! key) as [offer|] eqn:Hoff; [|done].
  destruct (proj1 Hm _ _ Hoff) as (fs & -> & Hnd & Hst).
  cbn [prop get].
  destruct (negb (strict_eq (own fs "status") (VStr "pending"))); [done|].
  cbn [set_prop fst snd view seqs]. rewrites_kept.
Qed.

Lemma rule_set_kept entry m :
  settled m -> kept m (fst (rule_set rt entry m)).
Proof.
  intros Hm. unfold rule_set, rule_key, Contract.bind, next_rule, view_put, Contract.lift.
  destruct (colon_key rt _ _) as [key|e] eqn:Hkey; cbn [view_key fst snd view seqs];
    [|by apply kept_seqs].
  inserts_kept.
Qed.

Lemma rule_delete_kept entry m :
  settled m -> kept m (fst (rule_delete rt entry m)).
Proof.
  intros Hm. pose proof (kept_refl m Hm) as Hsame.
  unfold rule_delete, rule_key, Contract.bind, view_get, view_put, Contract.lift,
    Contract.ret.
  destruct (colon_key rt _ _) as [key|e]; [|done].
  cbn [view_key fst snd].
  destruct (view m !! ("rule:" ++ key)) as [rule|] eqn:Hoff; [|done].
  destruct (proj1 Hm _ _ Hoff) as (fs & -> & Hnd & Hst).
  cbn [prop get].
  destruct (negb (strict_eq (own fs "owner") (get entry "owner"))); [done|].
  cbn [set_prop fst snd view seqs]. rewrites_kept.
Qed.

Lemma offer_accept_kept entry m :
  settled m -> kept m (fst (offer_accept rt entry m)).
Proof.
  intros Hm. pose proof (kept_refl m Hm) as Hsame.
  unfold offer_accept, Contract.bind, view_get, view_put, next_deal, Contract.lift,
    Contract.ret.
  destruct (colon_key rt _ _) as [key|e] eqn:Hkey; [|done].
  cbn [view_key fst snd].
  destruct (view m !! key) as [offer|] eqn:Hoff; [|done].
  destruct (proj1 Hm _ _ Hoff) as (fs & -> & Hnd & Hst).
  cbn [prop get].
  destruct (strict_eq (own fs "status") (VStr "pending")) eqn:Hp; [|done].
  cbn [negb set_prop fst snd view seqs].
  match goal with |- context [<[key := ?x]> (view m)] => set (accepted := x) end.
  set (m1 := {| seqs := seqs m; view := <[key := accepted]> (view m) |}).
  assert (kept m m1) as Hm1 by (unfold m1, accepted; rewrites_kept).
  pose proof (proj1 Hm1) as Hs1.
  change (<[key := accepted]> (view m)) with (view m1).
  destruct (view_key rt (get entry "listingId")) as [lk|e] eqn:Hlk.
  2:{ cbn [fst snd]. eapply kept_trans; [exact Hm1|]. by apply kept_seqs. }
  cbn [fst snd].
  destruct (view m1 !! lk) as [listing|] eqn:Hlst.
  - destruct (proj1 Hs1 _ _ Hlst) as (ls & -> & Hnd' & Hst').
    cbn [prop get set_prop fst snd view seqs].
    match goal with |- context [<[nextId "DEAL" ?n := ?x]> (view m1)] =>
      set (deal := x); set (dk := nextId "DEAL" n) end.
    set (m2 := {| seqs := seqs m1; view := <[dk := deal]> (view m1) |}).
    assert (kept m1 m2) as Hm2 by (unfold m2, deal, dk; inserts_kept).
    eapply kept_trans; [exact Hm1|]. eapply kept_trans; [exact Hm2|].
    change (<[dk := deal]> (view m1)) with (view m2).
    apply kept_insert; [exact (proj1 Hm2) | reflexivity | stored | set_nodup | |].
    + intros j ->. exact (proj2 Hs1 _ _ _ Hlst eq_refl).
    + intros _ _ _. own_set'. discriminate.
  - cbn [prop get set_prop fst snd view seqs].
    eapply kept_trans; [exact Hm1|]. inserts_kept.
Qed.

Lemma dispatch_kept op entry m :
  settled m ->
  (listingSeq (seqs (fst (dispatch rt op entry m))) < 2 ^ 53)%N ->
  kept m (fst (dispatch rt op entry m)).
Proof.
  unfold dispatch. intros Hm.
  repeat match goal with
  | |- context [if String.eqb op ?s then _ else _] => destruct (String.eqb op s)
  end;
  first [ by apply listing_post_kept | intros _; by apply listing_update_kept
        | intros _; by apply listing_remove_kept | intros _; by apply offer_send_kept
        | intros _; by apply offer_counter_kept | intros _; by apply offer_accept_kept
        | intros _; by apply offer_decline_kept | intros _; by apply rule_set_kept
        | intros _; by apply rule_delete_kept | intros _; by apply kept_refl ].
Qed.

Lemma apply_node_kept node m :
  settled m ->
  (listingSeq (seqs (fst (apply_node rt node m))) < 2 ^ 53)%N ->
  kept m (fst (apply_node rt node m)).
Proof.
  intros Hm. pose proof (kept_refl m Hm) as Hsame.
  destruct node as [entry|]; [|done].
  unfold apply_node, Contract.bind, Contract.lift.
  destruct (prop entry "op") as [op|e]; [|done].
  destruct op; try done. by apply dispatch_kept.
Qed.

Lemma apply_kept nodes m :
  settled m ->
  (listingSeq (seqs (fst (apply rt nodes m))) < 2 ^ 53)%N ->
  kept m (fst (apply rt nodes m)).
Proof.
  revert m. induction nodes as [|node nodes IH]; intros m Hm; [intros _; by apply kept_refl|].
  cbn [apply]. unfold Contract.bind.
  pose proof (apply_node_kept node m Hm) as H1.
  destruct (apply_node rt node m) as [m1 [[]|e]]; cbn [fst] in *; [|done].
  intros Hb.
  assert (kept m m1) as Hk.
  { apply H1. pose proof (apply_lmono nodes m1) as Hmono. unfold lmono in Hmono. lia. }
  eapply kept_trans; [exact Hk|]. apply IH; [exact (proj1 Hk)|exact Hb].
Qed.

End Settled.

(** On a log applied from the empty view, while the listing counter is below
    2^53: a key that holds a value whose status is not ['active'] (a listing
    that was sold or removed) holds such a value after every further batch,
    and [listing_list] never again replies a record with that key as [id]. *)
Theorem inactive_listing_stays_inactive rt nodes1 nodes2 k x :
  let m1 := fst (apply rt nodes1 empty_mem) in
  let m2 := fst (apply rt nodes2 m1) in
  (listingSeq (seqs m2) < 2 ^ 53)%N ->
  view m1 !! k = Some x ->
  get x "status" <> VStr "active" ->
  (exists y, view m2 !! k = Some y /\ get y "status" <> VStr "active") /\
  forall address now cmd o reply,
    get cmd "op" = VStr "listing_list" ->
    handle rt address now (view m2) (Direct cmd) nothing = (o, Return reply) ->
    exists rs, get reply "data" = VArr rs /\ Forall (fun r => get r "id" <> VStr k) rs.
Proof.
  intros m1 m2 Hb Hx Hst.
  assert ((listingSeq (seqs m1) < 2 ^ 53)%N) as Hb1.
  { pose proof (apply_lmono rt nodes2 m1) as Hmono. unfold lmono in Hmono.
    fold m2 in Hmono. lia. }
  assert (kept empty_mem m1) as [Hs1 _] by (by apply apply_kept; [apply settled_empty|]).
  assert (kept m1 m2) as [_ Hk] by (by apply apply_kept).
  assert (inactive k (view m2)) as (y & Hy & Hya) by (apply Hk; by exists x).
  split; [by exists y|].
  intros address now cmd o reply Hop.
  rewrite (handle_op _ _ _ _ _ "listing_list") by done.
  cbn [route String.eqb Ascii.eqb Bool.eqb].
  unfold _listingList, Protocol.bind, Protocol.lift, Protocol.ret.
  destruct (_listingList_loop _ _ _ _ _ _ _ _) as [rs|e] eqn:Hloop; [|done].
  intros [= <- <-]. exists rs. split; [done|].
  destruct (listingList_loop_sound _ _ _ _ _ _ _ _ _ Hloop) as (extra & -> & Hall).
  cbn [app]. eapply Forall_impl; [exact Hall|].
  intros r (k' & Hin%elem_of_createReadStream & Hact & _) Hid.
  assert (active_inv (view m2)) as [_ Ha].
  { unfold m2, m1. do 2 apply apply_active. apply active_inv_empty. }
  destruct (Ha _ _ Hin Hact) as (j & -> & Hid').
  assert (nextId "LST" j = k) as <- by congruence.
  assert (r = y) as -> by congruence. done.
Qed.

Lemma inactive_listing_stays_inactive_witness :
  let m1 := fst (apply sample_runtime sale_log empty_mem) in
  let m2 := fst (apply sample_runtime after_sale_log m1) in
  view m1 !! "LST-001" = Some sold_keyboard /\
  (exists y, view m2 !! "LST-001" = Some y /\ get y "status" <> VStr "active") /\
  forall address now cmd o reply,
    get cmd "op" = VStr "listing_list" ->
    handle sample_runtime address now (view m2) (Direct cmd) nothing = (o, Return reply) ->
    exists rs, get reply "data" = VArr rs /\
               Forall (fun r => get r "id" <> VStr "LST-001") rs.
Proof.
  cbv zeta.
  assert (view (fst (apply sample_runtime sale_log empty_mem)) !! "LST-001"
          = Some sold_keyboard) as H by (vm_compute; reflexivity).
  split; [exact H|].
  apply (inactive_listing_stays_inactive sample_runtime sale_log after_sale_log
           "LST-001" sold_keyboard);
    [vm_compute; reflexivity | exact H | vm_compute; discriminate].
Defined.
